(* ===== verification/_CoqProject ===== *)
-Q . S2P
Prelude.v
QuoteRepair.v
PyFloat.v
Transcoder.v
Csv.v
TextFile.v
Convert.v
Main.v
Cli.v
