(* ===== verification/Prelude.v ===== *)
(** * A verification development of mt940convert ([src/mt940convert.py])

    ** The program
    [src/mt940convert.py] turns a bank's CSV export into an MT940 statement.
    Its entry point (lines 130-133) parses the command line with the
    [argparse] parser of lines 11-31 (a file name, [-r/--reknr] and
    [-d/--date]) and passes the options to [run_conversion] (lines
    62-127), which
    - derives the output's name and checks the opening date (lines 63-66);
    - runs the quote repairer ([count_quotes], [fix_quotes] and the trigger
      at lines 82-93): it counts the quotes around every field of the
      header line and, if they are not exactly one on each side, rewrites
      every line of the file with canonically single-quoted fields into a
      [_repaired.csv] file;
    - runs the statement transcoder (lines 95-122): it reads the rows of the
      repaired or original table with [csv.reader], skips the header row,
      keeps a running balance [saldo] in cents and accumulates the document
      [result]: a fixed header block, one [:61:] record and up to two
      [:86:] records per row, and a closing [:62F:] record;
    - writes the document to the output file (lines 124-127).

    ** The files
    - [Prelude] (this file): Python's exceptions as values of a result
      monad with its [x <- m ;; k] notation; Python [str] as a list of
      ASCII characters ([pystr]) with the operations the program uses,
      written with CPython's semantics: indexing with negative indices and
      [IndexError] ([py_getitem]), slicing with clamped and negative bounds
      ([py_slice], [py_drop], [py_take]), [str.find] returning -1
      ([py_find]), [str.split] on one character ([py_split]), [str.join]
      ([py_join]), [str.replace] ([py_replace] for one character,
      [py_str_replace] in general), [in] ([py_in]); their shared lemmas,
      the hint database [pystr] and the tactic [py_simpl].
    - [QuoteRepair]: [count_quotes] with its two [while] loops as
      fuel-bounded index loops ([scan_left], [scan_right]), [fix_quotes]
      as a loop over the zipped profile that threads the rest of the line,
      the repair trigger [needs_repair] and the repair of a whole file
      [repair_lines].
    - [PyFloat]: the numeric conversions, on the kernel's binary64 floats
      ([PrimFloat]): [float(str)] on every ASCII string, with blanks,
      underscores, infinities and NaNs, decimal literals correctly rounded
      ([py_float]); [float(int)] ([py_float_of_int]); [int(float)],
      truncating ([py_int]); the amount conversion of line 104
      ([amount_cents]); the format ['{0:.2f}'] ([format_2f]) and the
      closing amount of line 121 ([saldo_str]).
    - [Transcoder]: the loop body of lines 103-115 as a step function
      [process_row] on an explicit state (document, balance, last date),
      the header template [header_mt940], the closing record
      [close_statement] and the transcoding of a list of rows [statement].
    - [Csv]: CPython's [csv.reader] in the default dialect (not code of the
      repository, modelled from its documentation and C source): the
      character state machine [parse_process_char] and [Reader_iternext].
    - [TextFile]: files read in text mode: universal newlines and lines.
    - [Convert]: [run_conversion] on the input's contents: the class
      [RecordReader] (with its laws [RecordReaderLaws]) through which the
      transcoder pulls records, its instance [csv_reader], the loop
      [transcode_loop] that transcodes each record as it is read, the
      choice of the file to read [conv_lines] and [run_conversion].
    - [Main]: the files as an explicit state [fsys] threaded by a state and
      exception monad [io], the output and repaired names ([out_name],
      [conv_name]), [run_conversion_files] with every read and write of the
      code, [run_conversion] called with optional values
      ([run_conversion_call], with [len] and [str] of [None]:
      [py_len_opt], [py_str_opt]) and the entry point [main] on the parsed
      options [cli_args].
    - [Cli]: the parser of lines 11-31 as data ([mt940_parser]) and
      [parse_args] as CPython 3.11's [argparse] runs it for these actions
      (not code of the repository, modelled from its source): the
      classification of every argument ([parse_optional], [classify]),
      the loop that consumes options and positionals alternately
      ([consume_loop]), the required positional and the extras
      ([parse_tail]); the entry point [entry] on a whole command line.

    ** What the theorems show
    - quote repair ([QuoteRepair]): the two index loops of [count_quotes]
      terminate within their fuel and agree with a structural reference
      ([scan_left_total], [scan_right_total]); the counts of a column are
      its maximal edge quote runs ([count_col_spec], [count_quotes_Ok]);
      [count_quotes] fails, with [IndexError] only, exactly on a field made
      of quotes ([count_quotes_Err]); [fix_quotes] yields, on a line quoted
      the way the profile says, exactly the canonical line
      ([fix_quotes_encoded]); a whole encoded table is rewritten into the
      canonical table ([repair_lines_encoded]); when the last column has
      no closing quotes, the repaired header loses the last character of
      its last field ([repair_open_last_column]); a canonical header
      triggers no repair ([repair_lines_canonical]);
    - numbers ([PyFloat]): the amount conversion is exact or one cent short
      for every amount up to 199,99, and the balance format is exact for
      balances up to 200,00 in absolute value (checked exhaustively by
      evaluation); [float(n)] succeeds for every [|n| < 2^1023]; every
      negative balance in that range is printed with a minus sign
      ([saldo_str_neg], from the specification of float division in
      [FloatAxioms]: [SFdiv] rounds with the sign [xorb sx sy] and never
      yields a NaN on finite operands);
    - transcoding ([Transcoder]): the balance is the signed sum of the
      rows' cents and the loop fails exactly when a row fails
      ([process_rows_saldo]), whatever the order of the rows
      ([process_rows_Permutation]); the document is the header followed by
      the rows' record groups ([process_rows_doc], [statement_document]);
      comments are cut into at most two records of 63 characters
      ([comment_payloads_spec]); the examples of the specification
      evaluate as stated;
    - reading ([Csv], [TextFile], [Convert]): a canonical line is read back
      as its fields unless a field exceeds the size limit
      ([csv_reader_canonical_line]); reading to the end terminates within
      its fuel ([records_csv_fuel]); a text-mode file shorter than the
      limit is always read, the line-break error cannot occur
      ([csv_text_file_safe]); the loop that transcodes each record as it is
      read refines the transcoding of the list of records
      ([read_statement_csv]) and raises a bad row's error before a later
      malformed line's ([read_statement_row_error_first]);
    - the whole conversion ([Convert], [Main]): an export quoted with a
      non-canonical profile converts to the statement of its canonical
      table, the repair being transparent ([run_conversion_encoded]); a
      canonical table passes through ([run_conversion_canonical]); the
      repaired file reads back as the export's rows and converts again to
      the same statement with no second repair ([repaired_file_rows],
      [run_conversion_repaired_file]); an export whose rows convert gets
      its document ([run_conversion_produces]); with its files,
      [run_conversion] refines the conversion on contents and writes
      exactly the repaired file and the document
      ([run_conversion_files_refines]).
    - the closing record ([Transcoder]): every positive balance closes
      with [C] and no sign ([close_positive_balance]);
    - findings: a zero balance closes with [D] ([close_zero_balance]);
      every negative balance is written [D] with a minus sign
      ([close_negative_balance]); a last column without closing quotes
      loses the last character of the repaired header
      ([repair_open_last_column]); amounts lose a cent through binary
      floats ([amount_cents_within_one_cent] bounds the loss); a table
      without data rows raises [UnboundLocalError] ([statement_no_rows]);
      an input named without [.csv] is overwritten by the document
      ([output_overwrites_input]); a failure after the repair leaves the
      repaired file behind ([repaired_file_kept_on_error]); the options
      [-r] and [-d] are not required, giving an account [None] or the
      [TypeError] of [len(None)] ([entry_missing_options]).
    - the command line ([Cli]): on every command line made of well-formed
      words (the file name and the options in any of argparse's spellings:
      [-r v], [-rv], [--rek v], [--rek=v]) the program does what the words
      mean: the last value of an option wins, a missing or second file name
      is a usage error ([entry_refines]); the help option anywhere exits
      first ([entry_help]); a command line without [-d] ends in
      [TypeError] and one without [-r] writes the account [None]
      ([entry_missing_options]); a [-d] value that is not six characters
      long raises [ValueError] before any file is opened
      ([entry_bad_date]); for every [argv] the parse ends and its
      namespace holds single values ([parse_args_some]).

    ** Plan of the development
    Done: all files above.  Left: general bounds on the float conversions
    from [FloatAxioms] (the amount conversion is checked exhaustively up to
    199,99 only); the equivalence of [fix_quotes] with the offset-passing
    form the specification's design notes propose.

    ** Bounds and fuel
    The two [while] loops of [count_quotes] run with fuel [length col + 1]:
    each iteration either stops or moves the index one step, and the index
    [length col] raises [IndexError], so that fuel is always enough
    ([scan_left_total], [scan_right_total]).  The iteration of
    [csv.reader] and the transcoding loop run with fuel [length lines + 1]:
    every record consumes at least a line ([Csv.Reader_iternext_shorter],
    [records_csv_fuel]).  The consumption loop of [parse_args] runs with
    fuel [length argv + 1]: every round consumes an option or an argument
    ([consume_loop_spec]).  The field size limit of [csv.reader] is CPython's
    default, [128 * 1024].  Python integers are unbounded and are modelled
    as [Z]; floats are the kernel's IEEE-754 binary64 numbers, as CPython's.

    ** Not modelled
    The texts [argparse] prints (help, usage and error messages: an
    outcome records which error is reported), and the [argparse] features
    the parser does not use (other actions and [nargs], prefix characters
    other than [-], argument files, groups, subparsers).  Directories and text encodings (files are
    ASCII contents by name; the input is read whole when opened, which
    matches CPython when the repaired file is a different file, and for
    small inputs when it is the input itself).  Characters are ASCII: the
    program only compares them with ASCII characters.  The sign of a NaN
    read by [float()] (never observable by the program).  The escape
    states of [csv.reader], unreachable in the default dialect. *)

From Stdlib Require Import Ascii String.
From Stdlib Require Import List ZArith Lia Bool Permutation.
Import ListNotations.

Declare Scope py_scope.
Delimit Scope py_scope with py.

(** ** Python exceptions and the result monad *)

(** The exceptions the modelled code can raise. *)
Inductive py_exc : Type :=
| IndexError
| ValueError
| OverflowError
| UnboundLocalError  (** a name read before any assignment *)
| CsvError           (** [csv.Error], raised by [csv.reader] *)
| TypeError          (** e.g. [len(None)] *)
| FileNotFoundError  (** [open] of a missing file for reading *)
| AttributeError.    (** e.g. [None.replace(...)] *)

(** A computation that returns a value or raises an exception. *)
Inductive result (A : Type) : Type :=
| Ok (a : A)
| Err (e : py_exc).
Arguments Ok {A} a.
Arguments Err {A} e.

Definition bind {A B : Type} (m : result A) (k : A -> result B) : result B :=
  match m with
  | Ok a => k a
  | Err e => Err e
  end.

Notation "x <- m ;; k" := (bind m (fun x => k))
  (at level 61, m at next level, right associativity) : py_scope.
Open Scope py_scope.

(** Apply a function to the value of a computation. *)
Definition fmap {A B : Type} (f : A -> B) (m : result A) : result B :=
  match m with
  | Ok a => Ok (f a)
  | Err e => Err e
  end.

(** [for x in l: ys.append(f(x))], stopping at the first exception. *)
Fixpoint mapM {A B : Type} (f : A -> result B) (l : list A) : result (list B) :=
  match l with
  | [] => Ok []
  | x :: l' => y <- f x ;; ys <- mapM f l' ;; Ok (y :: ys)
  end.

Local Open Scope Z_scope.

(** ** Python strings *)

(** A Python [str], as its list of characters. *)
Definition pystr := list ascii.

(** A string literal of the program, as a [pystr]. *)
Definition str (s : string) : pystr := list_ascii_of_string s.

(** The double quote, written by its code. *)
Definition dq : ascii := Ascii.ascii_of_nat 34.

(** ['\n'] and ['\r\n']. *)
Definition lf : ascii := Ascii.ascii_of_nat 10.
Definition cr : ascii := Ascii.ascii_of_nat 13.
Definition crlf : pystr := [cr; lf].

(** [len(s)]. *)
Definition py_len (s : pystr) : Z := Z.of_nat (length s).

(** CPython's slice bound adjustment: a negative bound counts from the end,
    and the result is clamped to [0, len]. *)
Definition clamp_index (i n : Z) : Z :=
  if i <? 0 then Z.max 0 (i + n) else Z.min i n.

(** [s[a:b]]. *)
Definition py_slice (s : pystr) (a b : Z) : pystr :=
  let n := py_len s in
  let a' := clamp_index a n in
  let b' := clamp_index b n in
  firstn (Z.to_nat (b' - a')) (skipn (Z.to_nat a') s).

(** [s[a:]] and [s[:b]]. *)
Definition py_drop (s : pystr) (a : Z) : pystr := py_slice s a (py_len s).
Definition py_take (s : pystr) (b : Z) : pystr := py_slice s 0 b.

(** [s[i]]: a negative index counts from the end; out of range raises
    [IndexError]. *)
Definition py_getitem (s : pystr) (i : Z) : result ascii :=
  let i' := if i <? 0 then i + py_len s else i in
  if i' <? 0 then Err IndexError
  else match nth_error s (Z.to_nat i') with
       | Some c => Ok c
       | None => Err IndexError
       end.

(** [p] is a prefix of [s]. *)
Fixpoint prefixb (p s : pystr) : bool :=
  match p, s with
  | [], _ => true
  | x :: p', y :: s' => Ascii.eqb x y && prefixb p' s'
  | _ :: _, [] => false
  end.

(** The first position of [sub] in [s]. *)
Fixpoint find_pos (sub s : pystr) : option nat :=
  if prefixb sub s then Some 0%nat
  else match s with
       | [] => None
       | _ :: s' => option_map S (find_pos sub s')
       end.

(** [s.find(sub, start)]: the lowest index [>= start] where [sub] occurs,
    or -1.  CPython adjusts a negative [start] like a slice bound and
    answers -1 when [start] is past the end. *)
Definition py_find (s sub : pystr) (start : Z) : Z :=
  let n := py_len s in
  let st := if start <? 0 then Z.max 0 (start + n) else start in
  if n <? st then -1
  else match find_pos sub (skipn (Z.to_nat st) s) with
       | Some k => st + Z.of_nat k
       | None => -1
       end.

(** [s.split(sep)] for a one-character separator. *)
Fixpoint py_split (sep : ascii) (s : pystr) : list pystr :=
  match s with
  | [] => [[]]
  | c :: s' =>
      let r := py_split sep s' in
      if Ascii.eqb c sep then [] :: r
      else match r with
           | [] => [[c]]
           | h :: t => (c :: h) :: t
           end
  end.

(** [sep.join(l)] for a one-character separator. *)
Fixpoint py_join (sep : ascii) (l : list pystr) : pystr :=
  match l with
  | [] => []
  | [x] => x
  | x :: l' => x ++ sep :: py_join sep l'
  end.

(** [s.replace(old, new)] for a one-character [old]. *)
Fixpoint py_replace (old : ascii) (new : pystr) (s : pystr) : pystr :=
  match s with
  | [] => []
  | c :: s' => (if Ascii.eqb c old then new else [c]) ++ py_replace old new s'
  end.

(** [s.replace(old, new)] for a non-empty [old], scanning left to right:
    after an occurrence, [skip] characters of it remain to be dropped. *)
Fixpoint replace_from (old new : pystr) (skip : nat) (s : pystr) : pystr :=
  match s with
  | [] => []
  | c :: s' =>
      match skip with
      | S k => replace_from old new k s'
      | O => if prefixb old s then new ++ replace_from old new (pred (length old)) s'
             else c :: replace_from old new 0 s'
      end
  end.

(** [s.replace(old, new)]; an empty [old] inserts [new] around every
    character. *)
Definition py_str_replace (old new s : pystr) : pystr :=
  match old with
  | [] => new ++ concat (map (fun c => c :: new) s)
  | _ :: _ => replace_from old new 0 s
  end.

(** [sub in s] *)
Fixpoint py_in (sub s : pystr) : bool :=
  prefixb sub s || match s with [] => false | _ :: s' => py_in sub s' end.

(** [s == t] *)
Definition py_eqb (s t : pystr) : bool :=
  if list_eq_dec ascii_dec s t then true else false.

(** [c in s] for a character [c]. *)
Definition mem (c : ascii) (s : pystr) : bool := existsb (Ascii.eqb c) s.

(** ** Shared lemmas *)

Create HintDb pystr.
Create Rewrite HintDb pystr.

Lemma bind_Ok {A B : Type} (a : A) (k : A -> result B) : bind (Ok a) k = k a.
Proof. reflexivity. Qed.

Lemma bind_Err {A B : Type} e (k : A -> result B) : bind (Err e) k = Err e.
Proof. reflexivity. Qed.

Lemma bind_Ok_inv {A B : Type} (m : result A) (k : A -> result B) b :
  bind m k = Ok b -> exists a, m = Ok a /\ k a = Ok b.
Proof. destruct m; simpl; [eauto | discriminate]. Qed.

#[export] Hint Rewrite @bind_Ok @bind_Err : pystr.

Lemma mapM_Ok_length {A B : Type} (f : A -> result B) l ys :
  mapM f l = Ok ys -> length ys = length l.
Proof.
  revert ys; induction l as [|x l IH]; simpl; intros ys H.
  - now inversion H.
  - destruct (f x); [|discriminate]. simpl in H.
    destruct (mapM f l) eqn:E; [|discriminate]. simpl in H.
    inversion H; subst. simpl. f_equal. now apply IH.
Qed.

Lemma mapM_Ok_iff {A B : Type} (f : A -> result B) l ys :
  mapM f l = Ok ys <-> Forall2 (fun x y => f x = Ok y) l ys.
Proof.
  revert ys; induction l as [|x l IH]; intros ys; simpl.
  - split; [intros H; inversion H; constructor | intros H; inversion H; reflexivity].
  - split.
    + intros H. destruct (f x) eqn:Ef; [|discriminate]. simpl in H.
      destruct (mapM f l) eqn:E; [|discriminate]. simpl in H.
      inversion H; subst. constructor; [assumption | now apply IH].
    + intros H. inversion H as [|? y ? ys' Hf Hr]; subst.
      rewrite Hf. simpl. apply IH in Hr. now rewrite Hr.
Qed.

Lemma ascii_eqb_refl_true c : Ascii.eqb c c = true.
Proof. apply Ascii.eqb_refl. Qed.

Lemma ascii_eqb_false c d : c <> d -> Ascii.eqb c d = false.
Proof. intros H. destruct (Ascii.eqb_spec c d); congruence. Qed.

#[export] Hint Rewrite ascii_eqb_refl_true : pystr.

Lemma py_len_app s t : py_len (s ++ t) = py_len s + py_len t.
Proof. unfold py_len. rewrite length_app. lia. Qed.

Lemma py_len_cons c s : py_len (c :: s) = 1 + py_len s.
Proof. unfold py_len. simpl length. lia. Qed.

Lemma py_len_nonneg s : 0 <= py_len s.
Proof. unfold py_len. lia. Qed.

#[export] Hint Rewrite py_len_app py_len_cons : pystr.

Lemma firstn_length_app {A : Type} (a b : list A) : firstn (length a) (a ++ b) = a.
Proof. rewrite firstn_app, Nat.sub_diag, firstn_all. simpl. apply app_nil_r. Qed.

Lemma clamp_index_in i n : 0 <= i <= n -> clamp_index i n = i.
Proof. intros H. unfold clamp_index. destruct (Z.ltb_spec i 0); lia. Qed.

Lemma clamp_index_neg i n : i < 0 -> 0 <= i + n -> clamp_index i n = i + n.
Proof. intros H1 H2. unfold clamp_index. destruct (Z.ltb_spec i 0); lia. Qed.

(** Within bounds, a slice is a [skipn] followed by a [firstn]. *)
Lemma py_slice_nat s (a b : nat) :
  (a <= b <= length s)%nat ->
  py_slice s (Z.of_nat a) (Z.of_nat b) = firstn (b - a) (skipn a s).
Proof.
  intros H. unfold py_slice; cbv zeta.
  rewrite !clamp_index_in by (unfold py_len; lia).
  rewrite Nat2Z.id. f_equal. lia.
Qed.

(** The slice that spans the middle part of a concatenation. *)
Lemma py_slice_middle a m b :
  py_slice (a ++ m ++ b) (py_len a) (py_len a + py_len m) = m.
Proof.
  replace (py_len a + py_len m) with (Z.of_nat (length a + length m)) by (unfold py_len; lia).
  unfold py_len. rewrite py_slice_nat by (rewrite !length_app; lia).
  replace (length a + length m - length a)%nat with (length m) by lia.
  rewrite skipn_app, skipn_all, Nat.sub_diag. simpl.
  apply firstn_length_app.
Qed.

Lemma clamp_index_of_nat a n : clamp_index (Z.of_nat a) (Z.of_nat n) = Z.of_nat (Nat.min a n).
Proof. unfold clamp_index. destruct (Z.ltb_spec (Z.of_nat a) 0); lia. Qed.

(** A slice with natural bounds, in or out of range. *)
Lemma py_slice_of_nat s (a b : nat) :
  (a <= b)%nat -> py_slice s (Z.of_nat a) (Z.of_nat b) = firstn (b - a) (skipn a s).
Proof.
  intros Hab. unfold py_slice; cbv zeta. unfold py_len. rewrite !clamp_index_of_nat, Nat2Z.id.
  destruct (Nat.le_gt_cases (length s) a).
  - rewrite (Nat.min_r a), (Nat.min_r b) by lia. rewrite !skipn_all2 by lia.
    now rewrite !firstn_nil.
  - rewrite (Nat.min_l a) by lia.
    destruct (Nat.le_gt_cases b (length s)).
    + rewrite (Nat.min_l b) by lia. f_equal. lia.
    + rewrite (Nat.min_r b) by lia. rewrite !firstn_all2 by (rewrite length_skipn; lia).
      reflexivity.
Qed.

(** [s[len(a):]] of [a ++ b] is [b]. *)
Lemma py_drop_app a b : py_drop (a ++ b) (py_len a) = b.
Proof.
  unfold py_drop. rewrite py_len_app. unfold py_len.
  rewrite <- Nat2Z.inj_add, py_slice_nat by (rewrite length_app; lia).
  rewrite skipn_app, skipn_all, Nat.sub_diag. simpl.
  rewrite firstn_all2; [reflexivity | lia].
Qed.

(** A slice that ends at -1 drops the last character. *)
Lemma py_slice_minus_one a m c :
  py_slice (a ++ m ++ [c]) (py_len a) (-1) = m.
Proof.
  unfold py_slice; cbv zeta. rewrite !py_len_app.
  assert (Hm := py_len_nonneg m). assert (Ha := py_len_nonneg a).
  assert (Hc : py_len [c] = 1) by reflexivity. rewrite Hc.
  rewrite (clamp_index_in (py_len a)) by lia. rewrite (clamp_index_neg (-1)) by lia.
  replace (Z.to_nat (-1 + (py_len a + (py_len m + 1)) - py_len a)) with (length m)
    by (unfold py_len; lia).
  unfold py_len at 1. rewrite Nat2Z.id, skipn_app, skipn_all, Nat.sub_diag. simpl.
  apply firstn_length_app.
Qed.

#[export] Hint Rewrite py_slice_middle py_drop_app py_slice_minus_one : pystr.

Lemma prefixb_app p s : prefixb p (p ++ s) = true.
Proof. induction p; simpl; [reflexivity | now rewrite Ascii.eqb_refl]. Qed.

(** A pattern whose first character does not occur in [a] is found right
    after [a]. *)
Lemma find_pos_after c p a b :
  ~ In c a -> find_pos (c :: p) (a ++ c :: p ++ b) = Some (length a).
Proof.
  induction a as [|d a IH]; intros Hn; simpl.
  - now rewrite Ascii.eqb_refl, prefixb_app.
  - destruct (Ascii.eqb c d) eqn:E.
    + apply Ascii.eqb_eq in E. subst. exfalso. apply Hn. now left.
    + simpl. rewrite IH; [reflexivity | intros H; apply Hn; now right].
Qed.

(** A pattern whose first character does not occur in [s] is not found. *)
Lemma find_pos_absent c p s : ~ In c s -> find_pos (c :: p) s = None.
Proof.
  induction s as [|d s IH]; intros Hn; simpl; [reflexivity|].
  destruct (Ascii.eqb c d) eqn:E.
  - apply Ascii.eqb_eq in E. subst. exfalso. apply Hn. now left.
  - simpl. rewrite IH; [reflexivity | intros H; apply Hn; now right].
Qed.

(** [(pre ++ s).find(sub, len(pre))] searches [s]. *)
Lemma py_find_from pre s sub :
  py_find (pre ++ s) sub (py_len pre) =
  match find_pos sub s with Some k => py_len pre + Z.of_nat k | None => -1 end.
Proof.
  unfold py_find; cbv zeta.
  assert (Hp := py_len_nonneg pre). assert (Hs := py_len_nonneg s).
  replace (py_len pre <? 0) with false by (symmetry; apply Z.ltb_ge; lia).
  replace (py_len (pre ++ s) <? py_len pre) with false
    by (symmetry; apply Z.ltb_ge; rewrite py_len_app; lia).
  replace (Z.to_nat (py_len pre)) with (length pre) by (unfold py_len; lia).
  rewrite skipn_app, skipn_all, Nat.sub_diag. reflexivity.
Qed.

(** The pattern is found right after [a] when its first character does not
    occur in [a]... *)
Lemma py_find_after pre c p a b :
  ~ In c a ->
  py_find (pre ++ a ++ c :: p ++ b) (c :: p) (py_len pre) = py_len pre + py_len a.
Proof. intros Hn. rewrite py_find_from, find_pos_after by assumption. reflexivity. Qed.

(** ... and [-1] is returned when it does not occur at all. *)
Lemma py_find_absent pre c p s :
  ~ In c s -> py_find (pre ++ s) (c :: p) (py_len pre) = -1.
Proof. intros Hn. rewrite py_find_from, find_pos_absent by assumption. reflexivity. Qed.

(** [str.split] undoes [str.join] when no part holds the separator. *)
Lemma py_split_app_sep sep a s :
  ~ In sep a -> py_split sep (a ++ sep :: s) = a :: py_split sep s.
Proof.
  induction a as [|c a IH]; intros Hn; simpl.
  - now rewrite Ascii.eqb_refl.
  - rewrite IH by (intros H; apply Hn; now right).
    rewrite ascii_eqb_false by (intros ->; apply Hn; now left). reflexivity.
Qed.

Lemma py_split_no_sep sep a : ~ In sep a -> py_split sep a = [a].
Proof.
  induction a as [|c a IH]; intros Hn; simpl; [reflexivity|].
  rewrite IH by (intros H; apply Hn; now right).
  rewrite ascii_eqb_false by (intros ->; apply Hn; now left). reflexivity.
Qed.

Lemma py_split_join sep l :
  l <> [] -> Forall (fun x => ~ In sep x) l -> py_split sep (py_join sep l) = l.
Proof.
  induction l as [|x l IH]; intros Hne Hf; [congruence|].
  inversion Hf as [|? ? Hx Hl]; subst.
  destruct l as [|y l].
  - simpl. now apply py_split_no_sep.
  - change (py_join sep (x :: y :: l)) with (x ++ sep :: py_join sep (y :: l)).
    rewrite py_split_app_sep by assumption. f_equal. apply IH; [discriminate | assumption].
Qed.

Lemma py_join_cons_ne sep x l : l <> [] -> py_join sep (x :: l) = x ++ sep :: py_join sep l.
Proof. destruct l; [congruence | reflexivity]. Qed.

(** [skipn k s] starts with the [k]-th character, or is empty. *)
Lemma skipn_nth_error {A : Type} (l : list A) k :
  skipn k l = match nth_error l k with Some c => c :: skipn (S k) l | None => [] end.
Proof.
  revert k; induction l as [|x l IH]; intros [|k]; simpl; try reflexivity.
  apply IH.
Qed.

(** [s[k]] for a non-negative index. *)
Lemma py_getitem_nat s (k : nat) :
  py_getitem s (Z.of_nat k) =
  match nth_error s k with Some c => Ok c | None => Err IndexError end.
Proof.
  unfold py_getitem.
  replace (Z.of_nat k <? 0) with false by (symmetry; apply Z.ltb_ge; lia).
  replace (Z.of_nat k <? 0) with false by (symmetry; apply Z.ltb_ge; lia).
  now rewrite Nat2Z.id.
Qed.

(** [s[-k-1]] is the [k]-th character of the reversed string. *)
Lemma py_getitem_neg s (k : nat) :
  py_getitem s (- Z.of_nat k - 1) =
  match nth_error (rev s) k with Some c => Ok c | None => Err IndexError end.
Proof.
  unfold py_getitem, py_len. rewrite nth_error_rev.
  replace (- Z.of_nat k - 1 <? 0) with true by (symmetry; apply Z.ltb_lt; lia).
  destruct (Nat.ltb_spec k (length s)).
  - replace (- Z.of_nat k - 1 + Z.of_nat (length s) <? 0) with false
      by (symmetry; apply Z.ltb_ge; lia).
    now replace (Z.to_nat (- Z.of_nat k - 1 + Z.of_nat (length s))) with (length s - S k)%nat
      by lia.
  - replace (- Z.of_nat k - 1 + Z.of_nat (length s) <? 0) with true
      by (symmetry; apply Z.ltb_lt; lia).
    reflexivity.
Qed.

Lemma py_len_repeat (c : ascii) n : py_len (repeat c n) = Z.of_nat n.
Proof. unfold py_len. now rewrite repeat_length. Qed.

#[export] Hint Rewrite py_len_repeat : pystr.

(** [s[:-1]] drops the last character. *)
Lemma py_take_minus_one m c : py_take (m ++ [c]) (-1) = m.
Proof. exact (py_slice_minus_one [] m c). Qed.

Lemma combine_app {A B : Type} (a b : list A) (c d : list B) :
  length a = length c -> combine (a ++ b) (c ++ d) = combine a c ++ combine b d.
Proof.
  revert c. induction a as [|x a IH]; intros [|y c] H; try discriminate; [reflexivity|].
  cbn. rewrite IH by (injection H; auto). reflexivity.
Qed.

(** A character added to the last field of a joined line is added to the
    line. *)
Lemma py_join_snoc_char sep xs x c : py_join sep (xs ++ [x ++ [c]]) = py_join sep (xs ++ [x]) ++ [c].
Proof.
  induction xs as [|y xs IH]; [reflexivity|]. cbn [app].
  rewrite !py_join_cons_ne by (destruct xs; discriminate). rewrite IH, <- app_assoc. reflexivity.
Qed.

Lemma mem_In c s : mem c s = true <-> In c s.
Proof.
  unfold mem. rewrite existsb_exists. split.
  - intros (x & Hx & E). apply Ascii.eqb_eq in E. now subst.
  - intros H. exists c. split; [assumption | apply Ascii.eqb_refl].
Qed.

Lemma mem_false c s : mem c s = false -> ~ In c s.
Proof. intros H Hin. apply mem_In in Hin. congruence. Qed.

Lemma mem_app c s t : mem c (s ++ t) = mem c s || mem c t.
Proof. unfold mem. apply existsb_app. Qed.

#[export] Hint Rewrite mem_app : pystr.

Lemma mapM_Ok_Forall {A B : Type} (f : A -> result B) l ys :
  mapM f l = Ok ys -> Forall (fun x => exists y, f x = Ok y) l.
Proof.
  intros H. apply mapM_Ok_iff in H. induction H; constructor; eauto.
Qed.

(** Permuting the inputs of a successful [mapM] permutes its outputs. *)
Lemma mapM_Permutation {A B : Type} (f : A -> result B) l l' ys :
  Permutation l l' -> mapM f l = Ok ys -> exists ys', mapM f l' = Ok ys' /\ Permutation ys ys'.
Proof.
  intros Hp. revert ys. induction Hp as [|x l l' Hp IH|x y l|l l' l'' H1 IH1 H2 IH2]; intros ys H.
  - exists ys. split; [assumption | apply Permutation_refl].
  - simpl in H. destruct (f x) as [b|] eqn:Ef; [|discriminate]. simpl in H.
    destruct (mapM f l) as [bs|] eqn:El; [|discriminate]. simpl in H. inversion H; subst.
    destruct (IH bs eq_refl) as (bs' & Hbs' & Hp'). exists (b :: bs'). simpl.
    rewrite Ef, Hbs'. split; [reflexivity | now constructor].
  - simpl in H. destruct (f y) as [b|] eqn:Ey; [|discriminate]. simpl in H.
    destruct (f x) as [a|] eqn:Ex; [|discriminate]. simpl in H.
    destruct (mapM f l) as [bs|] eqn:El; [|discriminate]. simpl in H. inversion H; subst.
    exists (a :: b :: bs). simpl. rewrite Ex, Ey, El. split; [reflexivity | apply perm_swap].
  - destruct (IH1 ys H) as (ys1 & H1' & P1). destruct (IH2 ys1 H1') as (ys2 & H2' & P2).
    exists ys2. split; [assumption | now transitivity ys1].
Qed.

(** When every failure of [f] is the same exception, [mapM f] fails with it
    exactly when [f] fails on some element. *)
Lemma mapM_Err_iff {A B : Type} (f : A -> result B) (e0 : py_exc) l e :
  (forall x e', f x = Err e' -> e' = e0) ->
  mapM f l = Err e <-> e = e0 /\ Exists (fun x => exists e', f x = Err e') l.
Proof.
  intros Hf. induction l as [|x l IH]; simpl.
  - split; [discriminate | intros [_ H]; inversion H].
  - destruct (f x) as [y|e'] eqn:Ex; simpl.
    + destruct (mapM f l) as [ys|e''] eqn:El; simpl.
      * split; [discriminate|]. intros [_ H]. inversion H as [? ? (e' & He)|? ? H1]; subst.
        -- congruence.
        -- apply Exists_exists in H1 as (z & Hz & e' & He).
           apply mapM_Ok_Forall in El. rewrite Forall_forall in El.
           destruct (El z Hz) as (w & Hw). congruence.
      * rewrite IH. split.
        -- intros [-> H]. split; [reflexivity | now right].
        -- intros [-> H]. split; [reflexivity|]. inversion H as [? ? (e' & He)|]; subst; [congruence | assumption].
    + split.
      * intros H; inversion H; subst. split; [now apply (Hf x) | left; eauto].
      * intros [-> _]. f_equal. now apply (Hf x).
Qed.

Lemma py_replace_app old new s t :
  py_replace old new (s ++ t) = py_replace old new s ++ py_replace old new t.
Proof. induction s as [|c s IH]; simpl; [reflexivity|]. now rewrite IH, app_assoc. Qed.

Lemma py_replace_absent old new s : ~ In old s -> py_replace old new s = s.
Proof.
  induction s as [|c s IH]; intros Hn; simpl; [reflexivity|].
  rewrite ascii_eqb_false by (intros ->; apply Hn; now left).
  simpl. f_equal. apply IH. intros H; apply Hn; now right.
Qed.

(** [s.replace(old, new)] leaves [s] as it is when [old] does not occur. *)
Lemma py_str_replace_absent old new s :
  old <> [] -> py_in old s = false -> py_str_replace old new s = s.
Proof.
  destruct old as [|o old]; [congruence|]. intros _. unfold py_str_replace.
  induction s as [|c s IH]; intros H; [reflexivity|]. cbn [py_in] in H.
  apply orb_false_iff in H as [H1 H2]. cbn [replace_from]. rewrite H1, IH by exact H2. reflexivity.
Qed.

Lemma In_py_join c sep l :
  In c (py_join sep l) -> c = sep \/ exists x, In x l /\ In c x.
Proof.
  induction l as [|x l IH]; simpl; [intros []|].
  destruct l as [|y l]; intros H.
  - right. exists x. split; [now left | assumption].
  - apply in_app_or in H as [H|[H|H]].
    + right. exists x. split; [now left | assumption].
    + now left.
    + destruct (IH H) as [Hs|(z & Hz & Hc)]; [now left|]. right. exists z. split; [now right | assumption].
Qed.

(** [==] on strings, character by character. *)
Lemma py_eqb_cons c d s t : py_eqb (c :: s) (d :: t) = Ascii.eqb c d && py_eqb s t.
Proof.
  unfold py_eqb. destruct (list_eq_dec ascii_dec (c :: s) (d :: t)) as [H|H];
    destruct (list_eq_dec ascii_dec s t) as [H'|H']; destruct (Ascii.eqb_spec c d) as [E|E];
    simpl; congruence.
Qed.

Lemma py_eqb_nil_cons c s : py_eqb [] (c :: s) = false.
Proof. reflexivity. Qed.

Lemma py_eqb_cons_nil c s : py_eqb (c :: s) [] = false.
Proof. reflexivity. Qed.

Lemma py_eqb_nil_nil : py_eqb [] [] = true.
Proof. reflexivity. Qed.

#[export] Hint Rewrite py_eqb_cons py_eqb_nil_cons py_eqb_cons_nil py_eqb_nil_nil : pystr.

Lemma py_eqb_true s t : py_eqb s t = true -> s = t.
Proof. unfold py_eqb. destruct (list_eq_dec ascii_dec s t); congruence. Qed.

(** A prefix is the first [length p] characters. *)
Lemma prefixb_firstn p q : prefixb p q = true -> p = firstn (length p) q /\ (length p <= length q)%nat.
Proof.
  revert q. induction p as [|c p IH]; intros q H; [split; [reflexivity | apply Nat.le_0_l]|].
  destruct q as [|d q]; [discriminate|]. cbn [prefixb] in H.
  apply andb_true_iff in H as [H1 H2]. apply Ascii.eqb_eq in H1. subst d.
  destruct (IH q H2) as [E L]. cbn [length firstn]. rewrite <- E. split; [reflexivity | lia].
Qed.

(** The integers [lo], [lo + 1], ..., [lo + n - 1]. *)
Fixpoint range_Z (lo : Z) (n : nat) : list Z :=
  match n with
  | O => []
  | S n' => lo :: range_Z (lo + 1) n'
  end.

Lemma in_range_Z lo n z : lo <= z < lo + Z.of_nat n -> In z (range_Z lo n).
Proof.
  revert lo; induction n as [|n IH]; intros lo H; cbn; [lia|].
  destruct (Z.eq_dec lo z) as [->|Hne]; [now left | right; apply IH; lia].
Qed.

(** A boolean test checked on a whole range holds at every point of it. *)
Lemma forallb_range_Z (P : Z -> bool) lo n :
  forallb P (range_Z lo n) = true -> forall z, lo <= z < lo + Z.of_nat n -> P z = true.
Proof. intros H z Hz. rewrite forallb_forall in H. now apply H, in_range_Z. Qed.

(** Closes an equation between two ways of associating the same
    concatenation of lists. *)
Ltac app_assoc_norm :=
  cbn [app repeat];
  repeat first [rewrite <- app_assoc | rewrite <- app_comm_cons | rewrite app_nil_r];
  reflexivity.

(** Simplification with the library's rewrite rules. *)
Ltac py_simpl := repeat (autorewrite with pystr in *; simpl in *).
