(* ===== verification/QuoteRepair.v ===== *)
(** * QuoteRepair: the quote repairer of [src/mt940convert.py]

    [count_quotes] (lines 34-44) measures the quote runs around every field
    of the header; [fix_quotes] (lines 47-59) re-splits a line with that
    profile and re-quotes every field; [repair_lines] is the trigger and
    the rewrite of the whole file (lines 82-93).  The theorems: the loops
    of [count_quotes] terminate within their fuel and measure maximal
    quote runs; [fix_quotes] recovers the fields of a line quoted the way
    the profile says, and a whole table quoted with one profile is
    rewritten into its canonical table; when the last column has no
    closing quotes the repaired header loses one character; a canonical
    header triggers no repair. *)

From Stdlib Require Import Ascii String.
From Stdlib Require Import List ZArith Lia Bool.
From S2P Require Import Prelude.
Import ListNotations.
Local Open Scope Z_scope.

Module QuoteRepair.

(** ** [count_quotes] *)

(** [while col[idx(k)] == '\x22': k += 1], with fuel.  [count_quotes] runs it
    with [idx k = k] (line 40) and with [idx k = -k-1] (line 42). *)
Fixpoint scan_quotes (idx : nat -> Z) (fuel : nat) (col : pystr) (k : nat) : result nat :=
  match fuel with
  | O => Ok k
  | S fuel' =>
      c <- py_getitem col (idx k) ;;
      if Ascii.eqb c dq then scan_quotes idx fuel' col (S k) else Ok k
  end.

(** [while col[count_left[i]] == '\x22': count_left[i] += 1] *)
Definition scan_left (fuel : nat) (col : pystr) (k : nat) : result nat :=
  scan_quotes (fun k => Z.of_nat k) fuel col k.

(** [while col[-count_right[i]-1] == '\x22': count_right[i] += 1] *)
Definition scan_right (fuel : nat) (col : pystr) (k : nat) : result nat :=
  scan_quotes (fun k => - Z.of_nat k - 1) fuel col k.

(** The body of the [for] loop for one column: both counts start at 0; the
    fuel [length col + 1] is enough (see [scan_left_total]). *)
Definition count_col (col : pystr) : result (nat * nat) :=
  l <- scan_left (S (length col)) col 0 ;;
  r <- scan_right (S (length col)) col 0 ;;
  Ok (l, r).

(** [count_quotes(header, sep)]: split naively, count every column. *)
Definition count_quotes (header : pystr) (sep : ascii) : result (list nat * list nat) :=
  counts <- mapM count_col (py_split sep header) ;;
  Ok (split counts).

(** ** [fix_quotes] *)

(** ['\x22' + s + '\x22'] *)
Definition wrap (s : pystr) : pystr := [dq] ++ s ++ [dq].

(** The [for left, right in zip(count_left, count_right)] loop ([left] and
    [right] are [lft] and [rgt] here: [left] and [right] are constructors in
    Rocq); [line] is the rest of the line, rebound at the end of every
    iteration. *)
Fixpoint fix_quotes_loop (sep : ascii) (line : pystr) (prof : list (nat * nat)) : list pystr :=
  match prof with
  | [] => []
  | (lft, rgt) :: prof' =>
      let start := Z.of_nat lft in
      let '(stop, next_start) :=
        if Nat.eqb rgt 0
        then let stop := py_find line [sep] start in (stop, stop + py_len [sep])
        else let stop := py_find line (repeat dq rgt) start in
             (stop, stop + Z.of_nat rgt + py_len [sep]) in
      wrap (py_slice line start stop) :: fix_quotes_loop sep (py_drop line next_start) prof'
  end.

(** [fix_quotes(line, count_left, count_right, sep)] *)
Definition fix_quotes (line : pystr) (count_left count_right : list nat) (sep : ascii) : pystr :=
  py_join sep (fix_quotes_loop sep line (combine count_left count_right)).

(** ** The repair of the input file *)

(** The condition of line 85, negated: not every count is exactly 1. *)
Definition needs_repair (count_left count_right : list nat) : bool :=
  negb (forallb (Nat.eqb 1) count_left && forallb (Nat.eqb 1) count_right).

(** Lines 82-93.  [lines] are the lines of the input file as [readline]
    returns them, each with its ['\n'].  The header is the first line less
    its last character; when the trigger fires, the result holds the
    contents written to the [_repaired.csv] file, line by line, with the
    ['\n'] of every written string translated to ['\r\n'] by the file's
    [newline='\r\n']; otherwise [None]: the input file is read as is. *)
Definition repair_lines (lines : list pystr) : result (option (list pystr)) :=
  let header := py_take (hd [] lines) (-1) in
  counts <- count_quotes header ","%char ;;
  let '(quotes_left, quotes_right) := counts in
  if needs_repair quotes_left quotes_right
  then Ok (Some (map (fun line =>
                        py_replace lf crlf (fix_quotes line quotes_left quotes_right ","%char ++ [lf]))
                     (header :: tl lines)))
  else Ok None.

(** ** Reference definitions *)

(** The length of the run of quotes that starts [s]; [IndexError] when the
    run reaches the end of [s]. *)
Fixpoint quote_run (s : pystr) : result nat :=
  match s with
  | [] => Err IndexError
  | c :: s' => if Ascii.eqb c dq then n <- quote_run s' ;; Ok (S n) else Ok 0%nat
  end.

(** The field [f] quoted with [l] quotes on the left, [r] on the right. *)
Definition encode_field (f : pystr) (lr : nat * nat) : pystr :=
  repeat dq (fst lr) ++ f ++ repeat dq (snd lr).

(** A line whose fields [fs] are quoted as the profile [prof] says. *)
Definition encode_line (sep : ascii) (fs : list pystr) (prof : list (nat * nat)) : pystr :=
  py_join sep (map (fun '(f, lr) => encode_field f lr) (combine fs prof)).

(** A field [fix_quotes] can recover with the profile entry [lr]: it holds
    no quote, and no separator when no quote closes it. *)
Definition field_ok (sep : ascii) (f : pystr) (lr : nat * nat) : bool :=
  negb (mem dq f) && (negb (Nat.eqb (snd lr) 0) || negb (mem sep f)).

(** The end of the line after the last field: anything after closing
    quotes; otherwise exactly one character that is not the separator (the
    ['\n'] that [readlines] keeps). *)
Definition tail_ok (sep : ascii) (lr : nat * nat) (tail : pystr) : bool :=
  Nat.ltb 0 (snd lr) ||
  match tail with [c] => negb (Ascii.eqb c sep) | _ => false end.

(** A header field [count_quotes] measures as its profile says: not
    empty, without quotes, without separators. *)
Definition header_ok (sep : ascii) (f : pystr) : bool :=
  negb (Nat.eqb (length f) 0) && negb (mem dq f) && negb (mem sep f).

(** A row of an encoded table: as many fields as the profile, each one
    recoverable, none holding a line feed. *)
Definition row_ok (L R : list nat) (fs : list pystr) : bool :=
  Nat.eqb (length fs) (length L) &&
  forallb (fun '(f, lr) => field_ok ","%char f lr) (combine fs (combine L R)) &&
  negb (existsb (mem lf) fs).

(** The canonical line: every field in exactly one quote on each side. *)
Definition canonical_line (sep : ascii) (fs : list pystr) : pystr :=
  py_join sep (map wrap fs).

(** What the two counts of a column mean: [l] quotes start it and are
    followed by another character, [r] quotes end it and are preceded by
    another character. *)
Definition edge_runs (col : pystr) (l r : nat) : Prop :=
  (exists c x, col = repeat dq l ++ c :: x /\ c <> dq) /\
  (exists d y, col = y ++ d :: repeat dq r /\ d <> dq).

(** ** The loops of [count_quotes] *)

Section ScanSpec.
(** A scan reads [col] through [idx] as if it read [view] in order. *)
Variable idx : nat -> Z.
Variables col view : pystr.
Hypothesis Hidx : forall k, py_getitem col (idx k) =
  match nth_error view k with Some c => Ok c | None => Err IndexError end.

Lemma scan_quotes_run fuel k :
  (length view - k < fuel)%nat ->
  scan_quotes idx fuel col k = (n <- quote_run (skipn k view) ;; Ok (k + n)%nat).
Proof.
  revert k; induction fuel as [|fuel IH]; intros k Hf; [lia|].
  cbn [scan_quotes]. rewrite Hidx, (skipn_nth_error view k).
  destruct (nth_error view k) as [c|] eqn:E; cbn [bind quote_run]; [|reflexivity].
  assert (k < length view)%nat by (apply nth_error_Some; congruence).
  destruct (Ascii.eqb c dq).
  - rewrite IH by lia. destruct (quote_run (skipn (S k) view)); cbn [bind]; [|reflexivity].
    f_equal. lia.
  - cbn [bind]. f_equal. lia.
Qed.
End ScanSpec.

Lemma quote_run_bind_S s :
  (n <- (n <- quote_run s ;; Ok (S n)) ;; Ok n) = (n <- quote_run s ;; Ok (S n)).
Proof. now destruct (quote_run s). Qed.

(** The left loop of [count_quotes] terminates within the fuel
    [len(col) + 1] and computes the quote run that starts the column. *)
Lemma scan_left_quote_run col : scan_left (S (length col)) col 0 = quote_run col.
Proof.
  unfold scan_left. rewrite (scan_quotes_run _ col col) by (apply py_getitem_nat || lia).
  simpl. now destruct (quote_run col).
Qed.

(** C17: The left loop of [count_quotes] terminates within the fuel
    [len(col) + 1] and computes the quote run that starts the column. *)
Theorem scan_left_total col : scan_left (S (length col)) col 0 = quote_run col.
Proof. exact (scan_left_quote_run col). Qed.

(** The right loop terminates within the same fuel and computes the
    quote run that ends the column. *)
Lemma scan_right_quote_run col : scan_right (S (length col)) col 0 = quote_run (rev col).
Proof.
  unfold scan_right.
  rewrite (scan_quotes_run _ col (rev col)) by (apply py_getitem_neg || (rewrite length_rev; lia)).
  simpl. now destruct (quote_run (rev col)).
Qed.

(** The right loop terminates within the same fuel and computes the
    quote run that ends the column. *)
Theorem scan_right_total col : scan_right (S (length col)) col 0 = quote_run (rev col).
Proof. exact (scan_right_quote_run col). Qed.

Lemma quote_run_repeat n c x : c <> dq -> quote_run (repeat dq n ++ c :: x) = Ok n.
Proof.
  intros Hc. induction n as [|n IH]; cbn [repeat app quote_run].
  - now rewrite ascii_eqb_false.
  - now rewrite Ascii.eqb_refl, IH.
Qed.

(** The run is maximal: [n] quotes, then another character. *)
Lemma quote_run_Ok s n :
  quote_run s = Ok n <-> exists c x, s = repeat dq n ++ c :: x /\ c <> dq.
Proof.
  split; [|intros (c & x & -> & Hc); now apply quote_run_repeat].
  revert n; induction s as [|a s IH]; intros n H; simpl in H; [discriminate|].
  destruct (Ascii.eqb_spec a dq) as [->|Ha].
  - destruct (quote_run s) eqn:E; simpl in H; [|discriminate].
    inversion H; subst. destruct (IH _ eq_refl) as (c & x & -> & Hc). now exists c, x.
  - inversion H; subst. now exists a, s.
Qed.

(** The run fails exactly on strings made of quotes only. *)
Lemma quote_run_Err s e :
  quote_run s = Err e <-> e = IndexError /\ Forall (eq dq) s.
Proof.
  split.
  - revert e; induction s as [|a s IH]; intros e H; simpl in H.
    + inversion H; auto.
    + destruct (Ascii.eqb_spec a dq) as [->|Ha]; [|discriminate].
      destruct (quote_run s) eqn:E; simpl in H; [discriminate|].
      inversion H; subst. destruct (IH _ eq_refl) as [-> Hf]. auto.
  - intros [-> Hf]. induction Hf as [|a s <- Hf IH]; cbn [quote_run]; [reflexivity|].
    now rewrite Ascii.eqb_refl, IH.
Qed.

Lemma rev_edge col y d r :
  rev col = repeat dq r ++ d :: y <-> col = rev y ++ d :: repeat dq r.
Proof.
  split; intros H.
  - rewrite <- (rev_involutive col), H, rev_app_distr. simpl.
    now rewrite rev_repeat, <- app_assoc.
  - rewrite H, rev_app_distr. simpl.
    now rewrite rev_repeat, rev_involutive, <- app_assoc.
Qed.

(** One column's counts are exactly its edge quote runs. *)
Lemma count_col_iff col l r : count_col col = Ok (l, r) <-> edge_runs col l r.
Proof.
  unfold count_col, edge_runs. rewrite scan_left_quote_run, scan_right_quote_run.
  split.
  - intros H. destruct (quote_run col) as [l'|] eqn:El; [|discriminate]. simpl in H.
    destruct (quote_run (rev col)) as [r'|] eqn:Er; [|discriminate]. simpl in H.
    inversion H; subst. split; [now apply quote_run_Ok|].
    apply quote_run_Ok in Er as (d & y & Hy & Hd). exists d, (rev y).
    split; [now apply rev_edge | assumption].
  - intros [Hl (d & y & Hy & Hd)]. apply quote_run_Ok in Hl. rewrite Hl. simpl.
    assert (quote_run (rev col) = Ok r) as ->; [|reflexivity].
    apply quote_run_Ok. exists d, (rev y). split; [|assumption].
    apply rev_edge. now rewrite rev_involutive.
Qed.

(** C14: One column's counts are exactly its edge quote runs. *)
Theorem count_col_spec col l r : count_col col = Ok (l, r) <-> edge_runs col l r.
Proof. exact (count_col_iff col l r). Qed.

(** A column raises [IndexError], and nothing else, exactly when it is
    made of quotes only (an empty column included). *)
Lemma count_col_Err_iff col e :
  count_col col = Err e <-> e = IndexError /\ Forall (eq dq) col.
Proof.
  unfold count_col. rewrite scan_left_quote_run, scan_right_quote_run.
  destruct (quote_run col) as [l|e'] eqn:El; simpl.
  - destruct (quote_run (rev col)) as [r|e'] eqn:Er; simpl.
    + split; [discriminate|]. intros [_ Hf].
      apply quote_run_Ok in El as (c & x & -> & Hc).
      apply Forall_app in Hf as [_ Hf]. inversion Hf; congruence.
    + apply quote_run_Err in Er as [-> Hf]. split; [intros H; inversion H|intros [-> _]; reflexivity].
      split; [reflexivity|]. rewrite <- (rev_involutive col). now apply Forall_rev.
  - rewrite <- quote_run_Err, El. split; intros H; inversion H; reflexivity.
Qed.

(** C15: On success, [count_quotes] gives one pair of counts per field of the
    naive split, and each pair is that field's pair of edge quote runs. *)
Theorem count_quotes_Ok header sep L R :
  count_quotes header sep = Ok (L, R) ->
  length L = length (py_split sep header) /\ length R = length (py_split sep header) /\
  Forall2 (fun col lr => edge_runs col (fst lr) (snd lr)) (py_split sep header) (combine L R).
Proof.
  unfold count_quotes. intros H.
  destruct (mapM count_col (py_split sep header)) as [counts|] eqn:E; [|discriminate].
  simpl in H. inversion H as [Hs].
  assert (Hl := mapM_Ok_length _ _ _ E). apply mapM_Ok_iff in E.
  rewrite (split_combine counts Hs).
  assert (HL : L = fst (split counts)) by now rewrite Hs.
  assert (HR : R = snd (split counts)) by now rewrite Hs.
  rewrite HL, HR, length_fst_split, length_snd_split.
  repeat split; try lia.
  refine (Forall2_impl _ _ E). intros col [l r] Hc. now apply count_col_iff.
Qed.

(** C16: [count_quotes] fails, with [IndexError], exactly when some field of
    the naive split is made of quotes only. *)
Theorem count_quotes_Err header sep e :
  count_quotes header sep = Err e <->
  e = IndexError /\ Exists (Forall (eq dq)) (py_split sep header).
Proof.
  unfold count_quotes.
  assert (Hall : forall col e', count_col col = Err e' -> e' = IndexError)
    by (intros col e' H; now apply count_col_Err_iff in H).
  destruct (mapM count_col (py_split sep header)) as [counts|e'] eqn:E; simpl.
  - split; [discriminate|]. intros [-> Hex].
    apply mapM_Ok_Forall in E. rewrite Forall_forall in E.
    apply Exists_exists in Hex as (col & Hin & Hq).
    destruct (E col Hin) as ([l r] & Hc). apply count_col_iff in Hc as [(c & x & Hx & Hcq) _].
    rewrite Hx in Hq. apply Forall_app in Hq as [_ Hq]. inversion Hq; congruence.
  - apply (mapM_Err_iff _ IndexError) in E; [|assumption]. destruct E as [-> Hex].
    split; [intros H; inversion H; subst|intros [-> _]; reflexivity].
    split; [reflexivity|]. refine (Exists_impl _ _ Hex). intros col (e'' & He).
    now apply count_col_Err_iff in He.
Qed.

(** ** [fix_quotes] *)

Lemma field_ok_inv sep f lr :
  field_ok sep f lr = true -> ~ In dq f /\ (snd lr = 0%nat -> ~ In sep f).
Proof.
  unfold field_ok. intros H. apply andb_prop in H as [H1 H2].
  apply negb_true_iff in H1. split; [now apply mem_false|].
  intros Hr. rewrite Hr in H2. simpl in H2. apply negb_true_iff in H2. now apply mem_false.
Qed.

(** One iteration on a field followed by a separator: the field is
    recovered and the loop goes on right after the separator. *)
Lemma fix_step sep f l r rest prof :
  field_ok sep f (l, r) = true ->
  fix_quotes_loop sep (encode_field f (l, r) ++ sep :: rest) ((l, r) :: prof) =
  wrap f :: fix_quotes_loop sep rest prof.
Proof.
  intros Hok. apply field_ok_inv in Hok as [Hq Hs]. simpl snd in Hs.
  unfold encode_field. cbn [fst snd fix_quotes_loop]. cbv zeta.
  replace (Z.of_nat l) with (py_len (repeat dq l)) by apply py_len_repeat.
  set (pre := repeat dq l).
  destruct r as [|r]; cbn [Nat.eqb].
  - replace ((pre ++ f ++ repeat dq 0) ++ sep :: rest) with (pre ++ f ++ sep :: [] ++ rest)
      by app_assoc_norm.
    rewrite py_find_after by auto. rewrite py_slice_middle.
    replace (pre ++ f ++ sep :: [] ++ rest) with ((pre ++ f ++ [sep]) ++ rest)
      by app_assoc_norm.
    replace (py_len pre + py_len f + py_len [sep]) with (py_len (pre ++ f ++ [sep]))
      by (rewrite !py_len_app; lia).
    now rewrite py_drop_app.
  - replace ((pre ++ f ++ repeat dq (S r)) ++ sep :: rest)
      with (pre ++ f ++ dq :: repeat dq r ++ sep :: rest)
      by app_assoc_norm.
    rewrite py_find_after by auto. rewrite py_slice_middle.
    replace (pre ++ f ++ dq :: repeat dq r ++ sep :: rest)
      with ((pre ++ f ++ repeat dq (S r) ++ [sep]) ++ rest)
      by app_assoc_norm.
    replace (py_len pre + py_len f + Z.of_nat (S r) + py_len [sep])
      with (py_len (pre ++ f ++ repeat dq (S r) ++ [sep]))
      by (rewrite !py_len_app, py_len_repeat; lia).
    now rewrite py_drop_app.
Qed.

(** The last iteration: the field is recovered whatever follows closing
    quotes, and, without closing quotes, when one character that is not the
    separator follows. *)
Lemma fix_last sep f l r tail :
  field_ok sep f (l, r) = true -> tail_ok sep (l, r) tail = true ->
  fix_quotes_loop sep (encode_field f (l, r) ++ tail) [(l, r)] = [wrap f].
Proof.
  intros Hok Ht. apply field_ok_inv in Hok as [Hq Hs]. simpl snd in Hs.
  unfold encode_field, tail_ok in *. cbn [fst snd fix_quotes_loop] in *. cbv zeta.
  replace (Z.of_nat l) with (py_len (repeat dq l)) by apply py_len_repeat.
  set (pre := repeat dq l).
  destruct r as [|r]; cbn [Nat.eqb Nat.ltb Nat.leb orb] in *.
  - destruct tail as [|c [|]]; try discriminate.
    apply negb_true_iff in Ht. assert (c <> sep) by (intros ->; now rewrite Ascii.eqb_refl in Ht).
    replace ((pre ++ f ++ repeat dq 0) ++ [c]) with (pre ++ f ++ [c])
      by app_assoc_norm.
    rewrite py_find_absent.
    + now rewrite py_slice_minus_one.
    + intros Hin. apply in_app_or in Hin as [Hin|[Hin|[]]]; [exact (Hs eq_refl Hin) | congruence].
  - replace ((pre ++ f ++ repeat dq (S r)) ++ tail) with (pre ++ f ++ dq :: repeat dq r ++ tail)
      by app_assoc_norm.
    rewrite py_find_after by auto. now rewrite py_slice_middle.
Qed.

Lemma fix_quotes_loop_encoded sep fs prof tail :
  fs <> [] -> length prof = length fs ->
  forallb (fun '(f, lr) => field_ok sep f lr) (combine fs prof) = true ->
  tail_ok sep (last prof (0, 0)%nat) tail = true ->
  fix_quotes_loop sep (encode_line sep fs prof ++ tail) prof = map wrap fs.
Proof.
  unfold encode_line. revert prof.
  induction fs as [|f fs IH]; intros prof Hne Hlen Hok Ht; [congruence|].
  destruct prof as [|[l r] prof]; [discriminate|]. simpl in Hlen, Hok.
  apply andb_prop in Hok as [Hf Hok].
  destruct fs as [|f' fs].
  - destruct prof; [|discriminate]. simpl. now apply fix_last.
  - destruct prof as [|lr' prof]; [discriminate|].
    cbn [combine map py_join]. rewrite <- app_assoc. cbn [app].
    rewrite fix_step by assumption. f_equal.
    apply (IH (lr' :: prof)); [discriminate | simpl in *; lia | assumption | exact Ht].
Qed.

(** (refinement of the repairer): on a line whose fields are quoted the
    way the profile says, and which ends as [readlines] leaves it,
    [fix_quotes] returns exactly the canonical line of those fields. *)
Lemma fix_quotes_on_encoded sep fs L R tail :
  (0 < length fs)%nat -> length L = length fs -> length R = length fs ->
  forallb (fun '(f, lr) => field_ok sep f lr) (combine fs (combine L R)) = true ->
  tail_ok sep (last (combine L R) (0, 0)%nat) tail = true ->
  fix_quotes (encode_line sep fs (combine L R) ++ tail) L R sep = canonical_line sep fs.
Proof.
  intros Hn HL HR Hok Ht. unfold fix_quotes, canonical_line.
  rewrite fix_quotes_loop_encoded; auto.
  - destruct fs; simpl in Hn; [lia | discriminate].
  - rewrite length_combine. lia.
Qed.

(** C4: On a line whose fields are quoted the
    way the profile says, and which ends as [readlines] leaves it,
    [fix_quotes] returns exactly the canonical line of those fields. *)
Theorem fix_quotes_encoded sep fs L R tail :
  (0 < length fs)%nat -> length L = length fs -> length R = length fs ->
  forallb (fun '(f, lr) => field_ok sep f lr) (combine fs (combine L R)) = true ->
  tail_ok sep (last (combine L R) (0, 0)%nat) tail = true ->
  fix_quotes (encode_line sep fs (combine L R) ++ tail) L R sep = canonical_line sep fs.
Proof. exact (fix_quotes_on_encoded sep fs L R tail). Qed.

(** ** Profiles of encoded and canonical headers *)

Lemma header_ok_inv sep f :
  header_ok sep f = true -> f <> [] /\ ~ In dq f /\ ~ In sep f.
Proof.
  unfold header_ok. intros H. apply andb_prop in H as [H H3]. apply andb_prop in H as [H1 H2].
  apply negb_true_iff in H1, H2, H3.
  split; [intros ->; discriminate|]. split; now apply mem_false.
Qed.

Lemma count_col_encoded f lr :
  f <> [] -> ~ In dq f -> count_col (encode_field f lr) = Ok lr.
Proof.
  intros Hne Hq. destruct lr as [l r]. apply count_col_iff. unfold encode_field; simpl.
  split.
  - destruct f as [|c x]; [congruence|]. exists c, (x ++ repeat dq r).
    split; [reflexivity | intros ->; apply Hq; now left].
  - destruct (exists_last Hne) as (y & d & ->). exists d, (repeat dq l ++ y).
    split; [app_assoc_norm | intros ->; apply Hq, in_or_app; right; now left].
Qed.

Lemma mapM_count_col_encoded sep hs prof :
  length prof = length hs -> forallb (header_ok sep) hs = true ->
  mapM count_col (map (fun '(f, lr) => encode_field f lr) (combine hs prof)) = Ok prof.
Proof.
  revert prof. induction hs as [|f hs IH]; intros [|lr prof] Hl Hok; try discriminate; [reflexivity|].
  simpl in Hok. apply andb_prop in Hok as [Hf Hok]. apply header_ok_inv in Hf as (Hne & Hq & _).
  simpl. rewrite count_col_encoded by assumption. simpl.
  rewrite IH by (simpl in Hl; lia || assumption). reflexivity.
Qed.

(** The header of an encoded table is measured right: [count_quotes]
    gives back the profile the header was quoted with. *)
Lemma count_quotes_of_encoded sep hs prof :
  Ascii.eqb sep dq = false -> (0 < length hs)%nat -> length prof = length hs ->
  forallb (header_ok sep) hs = true ->
  count_quotes (encode_line sep hs prof) sep = Ok (split prof).
Proof.
  intros Hsep Hn Hl Hok. unfold count_quotes, encode_line.
  rewrite py_split_join.
  - rewrite (mapM_count_col_encoded sep) by assumption. reflexivity.
  - destruct hs, prof; simpl in *; try lia; discriminate.
  - apply Forall_forall. intros x Hx. apply in_map_iff in Hx as ([f [l r]] & <- & Hin).
    apply in_combine_l in Hin. rewrite forallb_forall in Hok.
    apply Hok, header_ok_inv in Hin as (_ & _ & Hs).
    assert (sep <> dq) by (intros ->; now rewrite Ascii.eqb_refl in Hsep).
    unfold encode_field; simpl. intros Hin.
    repeat (apply in_app_or in Hin as [Hin|Hin]); try (apply repeat_spec in Hin; congruence).
    contradiction.
Qed.

Lemma canonical_encoded sep fs :
  canonical_line sep fs = encode_line sep fs (repeat (1, 1)%nat (length fs)).
Proof.
  unfold canonical_line, encode_line. f_equal.
  induction fs as [|f fs IH]; simpl; [reflexivity|]. now rewrite IH.
Qed.

Lemma split_repeat {A B : Type} (a : A) (b : B) n :
  split (repeat (a, b) n) = (repeat a n, repeat b n).
Proof. induction n as [|n IH]; simpl; [reflexivity|]. now rewrite IH. Qed.

(** A canonical header, one quote on each side of every field, is
    measured as all ones, so it never triggers a repair. *)
Lemma count_quotes_of_canonical sep fs :
  Ascii.eqb sep dq = false -> (0 < length fs)%nat -> forallb (header_ok sep) fs = true ->
  count_quotes (canonical_line sep fs) sep = Ok (repeat 1%nat (length fs), repeat 1%nat (length fs)).
Proof.
  intros Hsep Hn Hok. rewrite canonical_encoded, count_quotes_of_encoded by (rewrite ?repeat_length; auto).
  apply f_equal, split_repeat.
Qed.

Lemma needs_repair_ones n : needs_repair (repeat 1%nat n) (repeat 1%nat n) = false.
Proof. unfold needs_repair. induction n as [|n IH]; simpl; [reflexivity|]. exact IH. Qed.

Lemma repair_lines_canonical_ok fs rows :
  (0 < length fs)%nat -> forallb (header_ok ","%char) fs = true ->
  repair_lines ((canonical_line ","%char fs ++ [lf]) :: rows) = Ok None.
Proof.
  intros Hn Hok. unfold repair_lines. cbn [hd]. rewrite py_take_minus_one.
  rewrite count_quotes_of_canonical by auto. simpl. now rewrite needs_repair_ones.
Qed.

(** C22: A table whose header
    is canonical is read as it is; in particular a repaired table, read
    again, triggers no second repair. *)
Theorem repair_lines_canonical fs rows :
  (0 < length fs)%nat -> forallb (header_ok ","%char) fs = true ->
  repair_lines ((canonical_line ","%char fs ++ [lf]) :: rows) = Ok None.
Proof. exact (repair_lines_canonical_ok fs rows). Qed.

(** ** The repair of an encoded table *)

Lemma lf_not_in_canonical fs :
  existsb (mem lf) fs = false -> ~ In lf (canonical_line ","%char fs).
Proof.
  intros Hf Hin. unfold canonical_line in Hin.
  apply In_py_join in Hin as [Hc|(w & Hw & Hc)]; [discriminate|].
  apply in_map_iff in Hw as (f & <- & Hf'). unfold wrap in Hc.
  apply in_app_or in Hc as [[Hc|[]]|Hc]; [discriminate|].
  apply in_app_or in Hc as [Hc|[Hc|[]]]; [|discriminate].
  assert (existsb (mem lf) fs = true) by (apply existsb_exists; exists f; split; [|apply mem_In]; auto).
  congruence.
Qed.

(** One line of the repaired file, when the line is quoted as the profile
    says: its canonical form, ended by ['\r\n']. *)
Lemma repaired_line L R fs tail :
  row_ok L R fs = true -> length R = length L -> (0 < length L)%nat ->
  tail_ok ","%char (last (combine L R) (0, 0)%nat) tail = true ->
  py_replace lf crlf (fix_quotes (encode_line ","%char fs (combine L R) ++ tail) L R ","%char ++ [lf]) =
  canonical_line ","%char fs ++ crlf.
Proof.
  unfold row_ok. intros Hok HR Hn Ht.
  apply andb_prop in Hok as [Hok Hlf]. apply andb_prop in Hok as [Hl Hok].
  apply Nat.eqb_eq in Hl. apply negb_true_iff in Hlf.
  rewrite fix_quotes_on_encoded by (auto; lia).
  rewrite py_replace_app, py_replace_absent by (now apply lf_not_in_canonical).
  reflexivity.
Qed.

Lemma tail_ok_lf lr : tail_ok ","%char lr [lf] = true.
Proof. unfold tail_ok. now destruct (Nat.ltb 0 (snd lr)). Qed.

Lemma repair_lines_encoded_ok hs L R rows :
  length L = length hs -> length R = length hs -> (0 < length hs)%nat ->
  forallb (header_ok ","%char) hs = true ->
  forallb (row_ok L R) (hs :: rows) = true ->
  tail_ok ","%char (last (combine L R) (0, 0)%nat) [] = true ->
  needs_repair L R = true ->
  repair_lines ((encode_line ","%char hs (combine L R) ++ [lf]) ::
                map (fun fs => encode_line ","%char fs (combine L R) ++ [lf]) rows) =
  Ok (Some (map (fun fs => canonical_line ","%char fs ++ crlf) (hs :: rows))).
Proof.
  intros HL HR Hn Hh Hrows Htail Hneed. unfold repair_lines. cbn [hd tl].
  rewrite py_take_minus_one, count_quotes_of_encoded by (rewrite ?length_combine; auto; lia).
  rewrite combine_split by lia. cbn [bind]. rewrite Hneed.
  cbn [forallb] in Hrows. apply andb_prop in Hrows as [Hhs Hrows].
  cbn [map]. rewrite <- (app_nil_r (encode_line ","%char hs (combine L R))) at 1.
  rewrite repaired_line by (auto; lia). rewrite map_map. do 3 f_equal.
  apply map_ext_in. intros fs Hin. rewrite forallb_forall in Hrows.
  apply repaired_line; [now apply Hrows | lia | lia | apply tail_ok_lf].
Qed.

(** C5: A table whose header and rows are
    quoted with one profile that is not all ones is rewritten, header
    included, into the canonical table with ['\r\n'] line ends. *)
Theorem repair_lines_encoded hs L R rows :
  length L = length hs -> length R = length hs -> (0 < length hs)%nat ->
  forallb (header_ok ","%char) hs = true ->
  forallb (row_ok L R) (hs :: rows) = true ->
  tail_ok ","%char (last (combine L R) (0, 0)%nat) [] = true ->
  needs_repair L R = true ->
  repair_lines ((encode_line ","%char hs (combine L R) ++ [lf]) ::
                map (fun fs => encode_line ","%char fs (combine L R) ++ [lf]) rows) =
  Ok (Some (map (fun fs => canonical_line ","%char fs ++ crlf) (hs :: rows))).
Proof. exact (repair_lines_encoded_ok hs L R rows). Qed.

(** ** A last column without closing quotes *)

(** A last field open on the right: one more character on it is one more
    character at the end of the line. *)
Lemma encode_line_last_char sep hs h c L R l :
  length L = length hs -> length R = length hs ->
  encode_line sep (hs ++ [h ++ [c]]) (combine (L ++ [l]) (R ++ [0%nat])) =
  encode_line sep (hs ++ [h]) (combine (L ++ [l]) (R ++ [0%nat])) ++ [c].
Proof.
  intros HL HR. unfold encode_line.
  rewrite combine_app, !combine_app, !map_app by (rewrite ?length_combine, HL, HR, ?Nat.min_id; reflexivity).
  cbn [combine map]. unfold encode_field at 2 4. cbn [fst snd repeat].
  rewrite !app_nil_r, app_assoc, py_join_snoc_char. reflexivity.
Qed.

Lemma field_ok_last_char sep h c lr : field_ok sep (h ++ [c]) lr = true -> field_ok sep h lr = true.
Proof.
  unfold field_ok. rewrite !mem_app.
  destruct (mem dq h), (mem sep h), (mem dq [c]), (mem sep [c]), (Nat.eqb (snd lr) 0); cbn; auto.
Qed.

Lemma row_ok_last_char L R l hs h c :
  length L = length hs -> length R = length hs ->
  row_ok (L ++ [l]) (R ++ [0%nat]) (hs ++ [h ++ [c]]) = true ->
  row_ok (L ++ [l]) (R ++ [0%nat]) (hs ++ [h]) = true.
Proof.
  intros HL HR. unfold row_ok.
  rewrite !length_app, combine_app, !combine_app by (rewrite ?length_combine, HL, HR, ?Nat.min_id; reflexivity).
  rewrite !forallb_app, !existsb_app. cbn [combine forallb existsb]. rewrite mem_app, !orb_false_r, !andb_true_r.
  destruct (field_ok _ (h ++ [c]) _) eqn:Hf; [apply field_ok_last_char in Hf; rewrite Hf|]; cbn [length];
    destruct (Nat.eqb _ _), (forallb _ _), (field_ok _ h _), (existsb _ hs), (mem lf h), (mem lf [c]);
    cbn; auto; discriminate.
Qed.

Lemma needs_repair_open L R : needs_repair L (R ++ [0%nat]) = true.
Proof. unfold needs_repair. rewrite forallb_app. cbn. now rewrite !andb_false_r. Qed.

Lemma repair_lines_open_ok hs h c L R l rows :
  length L = length hs -> length R = length hs ->
  forallb (header_ok ","%char) (hs ++ [h ++ [c]]) = true ->
  forallb (row_ok (L ++ [l]) (R ++ [0%nat])) ((hs ++ [h ++ [c]]) :: rows) = true ->
  repair_lines ((encode_line ","%char (hs ++ [h ++ [c]]) (combine (L ++ [l]) (R ++ [0%nat])) ++ [lf]) ::
                map (fun fs => encode_line ","%char fs (combine (L ++ [l]) (R ++ [0%nat])) ++ [lf]) rows) =
  Ok (Some (map (fun fs => canonical_line ","%char fs ++ crlf) ((hs ++ [h]) :: rows))).
Proof.
  intros HL HR Hh Hrows. unfold repair_lines. cbn [hd tl].
  rewrite py_take_minus_one, count_quotes_of_encoded
    by (rewrite ?length_combine, ?length_app; cbn [length]; try rewrite Nat.min_l by lia; auto; lia).
  rewrite combine_split by (rewrite !length_app; cbn [length]; lia). cbn [bind]. rewrite needs_repair_open.
  cbn [forallb] in Hrows. apply andb_prop in Hrows as [Hhs Hrows].
  assert (Hc : c <> ","%char).
  { rewrite forallb_app in Hh. apply andb_prop in Hh as [_ Hh]. cbn [forallb] in Hh.
    rewrite andb_true_r in Hh. apply header_ok_inv in Hh as (_ & _ & Hs). intros ->.
    apply Hs, in_or_app. right. now left. }
  cbn [map]. rewrite encode_line_last_char by assumption.
  rewrite repaired_line; [| exact (row_ok_last_char L R l hs h c HL HR Hhs)
                         | rewrite !length_app; cbn [length]; lia | rewrite length_app; cbn; lia |].
  - rewrite map_map. do 3 f_equal. apply map_ext_in. intros fs Hin. rewrite forallb_forall in Hrows.
    apply repaired_line;
      [now apply Hrows | rewrite !length_app; cbn [length]; lia | rewrite length_app; cbn; lia | apply tail_ok_lf].
  - rewrite combine_app by congruence. cbn [combine]. rewrite last_last. unfold tail_ok. cbn.
    destruct (Ascii.eqb c ","%char) eqn:E; [apply Ascii.eqb_eq in E; contradiction | reflexivity].
Qed.

(** C31: When the last column of the export is not closed by quotes (an
    export without quotes, for one), the repair is triggered and the
    repaired header loses the last character of its last field:
    [readline()[:-1]] already removed the line end, so [find] returns -1
    for the last field and [line[start:-1]] cuts one more character.  The
    rows, which keep their ['\n'], are repaired exactly. *)
Theorem repair_open_last_column hs h c L R l rows :
  length L = length hs -> length R = length hs ->
  forallb (header_ok ","%char) (hs ++ [h ++ [c]]) = true ->
  forallb (row_ok (L ++ [l]) (R ++ [0%nat])) ((hs ++ [h ++ [c]]) :: rows) = true ->
  repair_lines ((encode_line ","%char (hs ++ [h ++ [c]]) (combine (L ++ [l]) (R ++ [0%nat])) ++ [lf]) ::
                map (fun fs => encode_line ","%char fs (combine (L ++ [l]) (R ++ [0%nat])) ++ [lf]) rows) =
  Ok (Some (map (fun fs => canonical_line ","%char fs ++ crlf) ((hs ++ [h]) :: rows))).
Proof. exact (repair_lines_open_ok hs h c L R l rows). Qed.

(** ** The ING export of the source's comment (lines 78-81) *)

(** A literal in which every single quote stands for a double quote. *)
Definition q (s : string) : pystr :=
  map (fun c => if Ascii.eqb c "'"%char then dq else c) (str s).

Definition ing_fields : list pystr :=
  map str ["Datum"; "Naam / Omschrijving"; "Rekening"; "Tegenrekening"; "Code";
           "Af Bij"; "Bedrag (EUR)"; "MutatieSoort"; "Mededelingen"]%string.

(** The header line of lines 80-81, without its line end. *)
Definition ing_header : pystr :=
  q ("'Datum,''Naam / Omschrijving'',''Rekening'',''Tegenrekening'',''Code'',"
     ++ "''Af Bij'',''Bedrag (EUR)'',''MutatieSoort'',''Mededelingen'''")%string.

Definition ing_left : list nat := [1; 2; 2; 2; 2; 2; 2; 2; 2]%nat.
Definition ing_right : list nat := [0; 2; 2; 2; 2; 2; 2; 2; 3]%nat.

(** A row quoted like the header: the amount holds the separator. *)
Definition ing_row : list pystr :=
  map str ["20170105"; "Huur"; "NL01INGB0001234567"; "NL02ABNA0123456789"; "GT";
           "Af"; "10,50"; "Online bankieren"; "rent"]%string.

(** The header of the comment is the encoding of its fields with the
    profile [ing_left], [ing_right]. *)
Example ing_header_encoded :
  ing_header = encode_line ","%char ing_fields (combine ing_left ing_right).
Proof. vm_compute. reflexivity. Qed.

Lemma count_quotes_Ok_witness :
  length ing_left = length (py_split ","%char ing_header) /\
  length ing_right = length (py_split ","%char ing_header) /\
  Forall2 (fun col lr => edge_runs col (fst lr) (snd lr))
    (py_split ","%char ing_header) (combine ing_left ing_right).
Proof. apply (count_quotes_Ok ing_header ","%char ing_left ing_right). vm_compute. reflexivity. Defined.

Lemma fix_quotes_encoded_witness :
  fix_quotes (encode_line ","%char ing_row (combine ing_left ing_right) ++ [lf])
    ing_left ing_right ","%char = canonical_line ","%char ing_row.
Proof. apply fix_quotes_encoded; vm_compute; first [reflexivity | lia]. Defined.

Lemma repair_lines_canonical_witness :
  repair_lines ((canonical_line ","%char ing_fields ++ [lf]) ::
                [canonical_line ","%char ing_row ++ [lf]]) = Ok None.
Proof. apply repair_lines_canonical; vm_compute; first [reflexivity | lia]. Defined.

Lemma repair_lines_encoded_witness :
  repair_lines ((encode_line ","%char ing_fields (combine ing_left ing_right) ++ [lf]) ::
                map (fun fs => encode_line ","%char fs (combine ing_left ing_right) ++ [lf])
                  [ing_row]) =
  Ok (Some (map (fun fs => canonical_line ","%char fs ++ crlf) (ing_fields :: [ing_row]))).
Proof. apply repair_lines_encoded; vm_compute; first [reflexivity | lia]. Defined.

(** The export [Datum,Naam] without quotes: the header comes out as
    ["Datum","Naa"]. *)
Lemma repair_open_last_column_witness :
  repair_lines ((encode_line ","%char ([str "Datum"] ++ [str "Naa" ++ ["m"%char]])
                   (combine ([0] ++ [0]) ([0] ++ [0%nat]))%nat ++ [lf]) ::
                map (fun fs => encode_line ","%char fs (combine ([0] ++ [0]) ([0] ++ [0%nat]))%nat ++ [lf])
                  [[str "20170105"; str "rent"]]) =
  Ok (Some (map (fun fs => canonical_line ","%char fs ++ crlf)
                (([str "Datum"] ++ [str "Naa"]) :: [[str "20170105"; str "rent"]]))).
Proof. apply repair_open_last_column; vm_compute; reflexivity. Defined.

End QuoteRepair.
