(* ===== verification/PyFloat.v ===== *)
(** * PyFloat: the numeric conversions of [src/mt940convert.py]

    Line 104 computes [int(float(amount.replace(',', '.')) * 100)] and line
    121 formats the balance with ['{0:.2f}'.format(saldo / 100.)].  This
    file models the Python built-ins involved on the kernel's IEEE-754
    binary64 floats ([PrimFloat], CPython's [double]): [float(str)] as
    [PyFloat_FromString] reads an ASCII string (blanks stripped,
    underscores between digits removed, [inf], [infinity] and [nan] in
    any case, decimal literals correctly rounded to nearest, ties to
    even) ([py_float]); [float(int)] ([py_float_of_int]); [int(float)], which
    truncates toward zero ([py_int]); and the fixed-point format with two
    decimals, which rounds the exact binary value half to even
    ([format_2f]).  The rounding is computed exactly in [Z] from the
    rational value, so everything evaluates with [vm_compute].  The
    theorems: the amount conversion is exact or one cent short, and the
    balance format exact, on ranges checked by evaluation; [float(n)]
    succeeds below [2^1023]; a negative balance is printed with a minus
    sign ([saldo_str_neg], from the specifications of [FloatAxioms]). *)

From Stdlib Require Import Ascii String.
From Stdlib Require Import List ZArith Lia Bool Floats DecimalString.
From S2P Require Import Prelude.
Import ListNotations.
Local Open Scope Z_scope.

Module PyFloat.

(** ** Reading a decimal literal *)

(** [Py_ISSPACE]: the blanks [float()] strips around its argument, tab
    to carriage return and the space (not the separators 28-31, which
    [str.isspace] accepts). *)
Definition is_space (c : ascii) : bool :=
  let n := Z.of_nat (nat_of_ascii c) in
  ((9 <=? n) && (n <=? 13)) || (n =? 32).

Fixpoint strip_left (s : pystr) : pystr :=
  match s with
  | c :: s' => if is_space c then strip_left s' else s
  | [] => []
  end.

(** The blanks stripped on both sides, as [PyFloat_FromString] does. *)
Definition py_strip (s : pystr) : pystr := rev (strip_left (rev (strip_left s))).

Definition is_digit (c : ascii) : bool :=
  let n := Z.of_nat (nat_of_ascii c) in (48 <=? n) && (n <=? 57).

(** The longest prefix of digits, and the rest. *)
Fixpoint span_digits (s : pystr) : pystr * pystr :=
  match s with
  | c :: s' => if is_digit c then let '(d, r) := span_digits s' in (c :: d, r) else ([], s)
  | [] => ([], [])
  end.

Definition digit_value (c : ascii) : Z := Z.of_nat (nat_of_ascii c) - 48.

Definition digits_value (ds : pystr) : Z :=
  fold_left (fun acc c => 10 * acc + digit_value c) ds 0.

(** An optional sign. *)
Definition parse_sign (s : pystr) : bool * pystr :=
  match s with
  | c :: s' =>
      if Ascii.eqb c "-"%char then (true, s')
      else if Ascii.eqb c "+"%char then (false, s')
      else (false, s)
  | [] => (false, [])
  end.

(** An optional exponent [e[sign]digits] that ends the literal. *)
Definition parse_exponent (s : pystr) : option Z :=
  match s with
  | [] => Some 0
  | c :: s' =>
      if Ascii.eqb c "e"%char || Ascii.eqb c "E"%char then
        let '(neg, s2) := parse_sign s' in
        let '(ds, rest) := span_digits s2 in
        match ds, rest with
        | _ :: _, [] => Some (if neg then - digits_value ds else digits_value ds)
        | _, _ => None
        end
      else None
  end.

(** A decimal literal [(-1)^neg * mant * 10^exp]. *)
Record decimal := mk_decimal { d_neg : bool; d_mant : Z; d_exp : Z }.

(** [[sign] (digits [. [digits]] | . digits) [exponent]] *)
Definition parse_decimal (s : pystr) : option decimal :=
  let '(neg, s1) := parse_sign s in
  let '(ip, s2) := span_digits s1 in
  let '(fp, s3) :=
    match s2 with
    | c :: r => if Ascii.eqb c "."%char then span_digits r else ([], s2)
    | [] => ([], [])
    end in
  if Nat.eqb (length ip + length fp) 0 then None
  else match parse_exponent s3 with
       | Some e => Some (mk_decimal neg (digits_value (ip ++ fp)) (e - Z.of_nat (length fp)))
       | None => None
       end.

(** ** Rounding to binary64 *)

(** Quotient, remainder and divisor of [num / (den * 2^e)]. *)
Definition div_at (num den e : Z) : Z * Z * Z :=
  if 0 <=? e then let d := den * 2 ^ e in (num / d, num mod d, d)
  else let n := num * 2 ^ (- e) in (n / den, n mod den, den).

(** The binary64 number nearest to [num / den > 0], ties to even, as a
    mantissa and an exponent; [None] past the largest finite float. *)
Definition round_ratio (num den : Z) : option (Z * Z) :=
  let e1 := Z.log2 num - Z.log2 den - 53 in
  let e2 := if 2 ^ 53 <=? fst (fst (div_at num den e1)) then e1 + 1 else e1 in
  let e := Z.max e2 (-1074) in
  let '(q, r, d) := div_at num den e in
  let q' := if (d <? 2 * r) || ((2 * r =? d) && Z.odd q) then q + 1 else q in
  let '(m, e') := if q' =? 2 ^ 53 then (2 ^ 52, e + 1) else (q', e) in
  if 971 <? e' then None else Some (m, e').

Definition signed_zero (neg : bool) : float := if neg then neg_zero else zero.

(** The float nearest to [(-1)^neg * num / den]; [None] on overflow. *)
Definition float_of_ratio (neg : bool) (num den : Z) : option float :=
  if num =? 0 then Some (signed_zero neg)
  else match round_ratio num den with
       | Some (m, e) =>
           if m =? 0 then Some (signed_zero neg)
           else Some (SF2Prim (S754_finite neg (Z.to_pos m) e))
       | None => None
       end.

(** The decimal digits of [n >= 0]. *)
Definition z_digits (n : Z) : pystr := str (NilZero.string_of_uint (N.to_uint (Z.to_N n))).

(** The number of decimal digits of [n > 0]. *)
Definition num_digits (n : Z) : Z := Z.of_nat (length (z_digits n)).

(** The value of a decimal literal as CPython's [float] reads it: out of
    range it is an infinity (no exception); values below half the least
    subnormal read as zero.  The two guards only spare computing huge
    powers of ten: [10^(exp + digits - 1) >= 10^309] exceeds the largest
    float and [10^(exp + digits) <= 10^-324] is below [2^-1075]. *)
Definition float_of_decimal (d : decimal) : float :=
  let inf := if d_neg d then neg_infinity else infinity in
  if d_mant d =? 0 then signed_zero (d_neg d)
  else if 309 <=? d_exp d + num_digits (d_mant d) - 1 then inf
  else if d_exp d + num_digits (d_mant d) <=? -324 then signed_zero (d_neg d)
  else
    let r := if 0 <=? d_exp d then float_of_ratio (d_neg d) (d_mant d * 10 ^ d_exp d) 1
             else float_of_ratio (d_neg d) (d_mant d) (10 ^ (- d_exp d)) in
    match r with Some f => f | None => inf end.

(** [_Py_string_to_number_with_underscores]: an underscore is allowed
    only after a digit and before a digit, and is removed; [prev] is the
    character before ([\0] at the start). *)
Fixpoint remove_underscores (prev : ascii) (s : pystr) : option pystr :=
  match s with
  | [] => if Ascii.eqb prev "_"%char then None else Some []
  | c :: s' =>
      if Ascii.eqb c "_"%char then
        if is_digit prev then remove_underscores c s' else None
      else if Ascii.eqb prev "_"%char && negb (is_digit c) then None
      else option_map (cons c) (remove_underscores c s')
  end.

(** [Py_TOLOWER] on ASCII. *)
Definition to_lower (c : ascii) : ascii :=
  let n := nat_of_ascii c in
  if (65 <=? n)%nat && (n <=? 90)%nat then ascii_of_nat (n + 32) else c.

(** [_Py_parse_inf_or_nan] on the whole literal: one optional sign, then
    [inf], [infinity] or [nan] in any case.  The sign of a NaN is not
    kept: the program only multiplies the value and passes it to [int],
    which raises [ValueError] for every NaN. *)
Definition parse_special (s : pystr) : option float :=
  let '(neg, r) := parse_sign s in
  let r := map to_lower r in
  if py_eqb r (str "inf") || py_eqb r (str "infinity") then
    Some (if neg then neg_infinity else infinity)
  else if py_eqb r (str "nan") then Some nan
  else None.

(** [float(s)] on a string ([PyFloat_FromString]): the blanks stripped,
    the underscores checked and removed, then [_PyOS_ascii_strtod]: an
    infinity or a NaN, else a decimal literal that must reach the end. *)
Definition py_float (s : pystr) : result float :=
  match remove_underscores (ascii_of_nat 0) (py_strip s) with
  | None => Err ValueError
  | Some t =>
      match parse_special t with
      | Some f => Ok f
      | None =>
          match parse_decimal t with
          | Some d => Ok (float_of_decimal d)
          | None => Err ValueError
          end
      end
  end.

(** [float(n)] for a Python [int]: [OverflowError] out of range. *)
Definition py_float_of_int (n : Z) : result float :=
  match float_of_ratio (n <? 0) (Z.abs n) 1 with
  | Some f => Ok f
  | None => Err OverflowError
  end.

(** ** Back to integers and strings *)

(** [int(f)]: truncation toward zero; [ValueError] on NaN,
    [OverflowError] on an infinity. *)
Definition py_int (f : float) : result Z :=
  match Prim2SF f with
  | S754_nan => Err ValueError
  | S754_infinity _ => Err OverflowError
  | S754_zero _ => Ok 0
  | S754_finite s m e =>
      let a := if 0 <=? e then Z.pos m * 2 ^ e else Z.pos m / 2 ^ (- e) in
      Ok (if s then - a else a)
  end.

(** [m * 2^e] rounded to an integer, ties to even. *)
Definition round_half_even (m e : Z) : Z :=
  if 0 <=? e then m * 2 ^ e
  else let d := 2 ^ (- e) in
       let q := m / d in
       let r := m mod d in
       if (d <? 2 * r) || ((2 * r =? d) && Z.odd q) then q + 1 else q.

(** Two digits, zero padded, for [0 <= n < 100]. *)
Definition two_digits (n : Z) : pystr :=
  [ascii_of_nat (Z.to_nat (48 + n / 10)); ascii_of_nat (Z.to_nat (48 + n mod 10))].

(** ['{0:.2f}'.format(f)] *)
Definition format_2f (f : float) : pystr :=
  match Prim2SF f with
  | S754_nan => str "nan"
  | S754_infinity s => (if s then str "-" else []) ++ str "inf"
  | S754_zero s => (if s then str "-" else []) ++ str "0.00"
  | S754_finite s m e =>
      let k := round_half_even (Z.pos m * 100) e in
      (if s then str "-" else []) ++ z_digits (k / 100) ++ str "." ++ two_digits (k mod 100)
  end.

(** ** The program's two conversions *)

(** Line 104: [cents = int(float(amount.replace(',', '.')) * 100)]. *)
Definition amount_cents (amount : pystr) : result Z :=
  f <- py_float (py_replace ","%char (str ".") amount) ;;
  py_int (f * 100)%float.

(** Line 121: [saldo_str = '{0:.2f}'.format(saldo / 100.).replace('.', ',')]. *)
Definition saldo_str (saldo : Z) : result pystr :=
  f <- py_float_of_int saldo ;;
  Ok (py_replace "."%char (str ",") (format_2f (f / 100)%float)).

(** ** Integers that [float()] converts *)

(** Rounding an integer below [2^1023] stays below the overflow
    threshold: its exponent is at most [971]. *)
Lemma round_ratio_int_Some num :
  0 < num -> num < 2 ^ 1023 -> exists p, round_ratio num 1 = Some p.
Proof.
  intros Hpos Hlt. unfold round_ratio.
  assert (Hlog : Z.log2 num < 1023) by (apply Z.log2_lt_pow2; lia).
  set (e1 := Z.log2 num - Z.log2 1 - 53).
  set (e2 := if 2 ^ 53 <=? fst (fst (div_at num 1 e1)) then e1 + 1 else e1).
  assert (He2 : e2 <= 970) by (unfold e2, e1; destruct (_ <=? _); cbn [Z.log2] in *; lia).
  destruct (div_at num 1 (Z.max e2 (-1074))) as [[q r] d].
  destruct ((if (d <? 2 * r) || ((2 * r =? d) && Z.odd q) then q + 1 else q) =? 2 ^ 53);
    rewrite (proj2 (Z.ltb_ge _ _)) by lia; eauto.
Qed.

(** [float(n)] succeeds on every integer of magnitude below [2^1023]. *)
Lemma py_float_of_int_Ok n : Z.abs n < 2 ^ 1023 -> exists f, py_float_of_int n = Ok f.
Proof.
  intros Hn. unfold py_float_of_int, float_of_ratio.
  destruct (Z.abs n =? 0) eqn:H0; [eauto|]. apply Z.eqb_neq in H0.
  destruct (round_ratio_int_Some (Z.abs n)) as [[m e] ->]; [lia | exact Hn|].
  destruct (m =? 0); eauto.
Qed.

Lemma saldo_str_Ok n : Z.abs n < 2 ^ 1023 -> exists s, saldo_str n = Ok s.
Proof.
  intros Hn. unfold saldo_str. destruct (py_float_of_int_Ok n Hn) as [f ->]. cbn [bind]. eauto.
Qed.

(** ** The sign of the closing balance

    [float(n)] of a negative [n] is a negative float, and [/ 100.] keeps
    the sign: [SFdiv] rounds the quotient of the magnitudes with the sign
    [xorb sx sy], and the rounding of a non-negative mantissa never gives
    a NaN.  [sf_sign_is s x]: [x] is a zero, an infinity or a finite float
    of sign [s]. *)

Definition sf_sign_is (s : bool) (x : spec_float) : Prop :=
  match x with
  | S754_nan => False
  | S754_zero s' | S754_infinity s' | S754_finite s' _ _ => s' = s
  end.

Lemma shr_1_nonneg mrs : 0 <= shr_m mrs -> 0 <= shr_m (shr_1 mrs).
Proof. destruct mrs as [[|[p|p|]|p] r s]; cbn; lia. Qed.

Lemma iter_shr_1_nonneg p : forall mrs, 0 <= shr_m mrs -> 0 <= shr_m (iter_pos shr_1 p mrs).
Proof. induction p as [p IH|p IH|]; intros mrs H; cbn; auto using shr_1_nonneg. Qed.

Lemma shr_fexp_nonneg prec emax m e l : 0 <= m -> 0 <= shr_m (fst (shr_fexp prec emax m e l)).
Proof.
  intros Hm. unfold shr_fexp, shr.
  assert (0 <= shr_m (shr_record_of_loc m l)) by (destruct l as [|[]]; exact Hm).
  destruct (_ - e); cbn [fst]; auto using iter_shr_1_nonneg.
Qed.

Lemma round_nearest_even_nonneg m l : 0 <= m -> 0 <= round_nearest_even m l.
Proof. intros H. destruct l as [|[]]; cbn; try destruct (Z.even m); lia. Qed.

Lemma binary_round_aux_sign prec emax sx mx ex lx :
  0 <= mx -> sf_sign_is sx (binary_round_aux prec emax sx mx ex lx).
Proof.
  intros Hm. unfold binary_round_aux.
  pose proof (shr_fexp_nonneg prec emax mx ex lx Hm) as H1.
  destruct (shr_fexp prec emax mx ex lx) as [mrs' e'] eqn:E1. cbn [fst] in H1.
  pose proof (shr_fexp_nonneg prec emax _ e' loc_Exact
                (round_nearest_even_nonneg (shr_m mrs') (loc_of_shr_record mrs') H1)) as H2.
  destruct (shr_fexp prec emax _ e' loc_Exact) as [mrs'' e''] eqn:E2. cbn [fst] in H2.
  destruct (shr_m mrs'') as [|m|m]; [reflexivity| |lia]. destruct (_ <=? _); reflexivity.
Qed.

Lemma binary_round_sign prec emax sx mx ex : sf_sign_is sx (binary_round prec emax sx mx ex).
Proof.
  unfold binary_round. destruct (shl_align _ _ _) as [mz ez]. apply binary_round_aux_sign. lia.
Qed.

Lemma binary_normalize_nonneg prec emax m e : 0 <= m -> sf_sign_is false (binary_normalize prec emax m e false).
Proof. intros H. destruct m; [reflexivity | apply binary_round_sign | lia]. Qed.

Lemma SFldexp_sign prec emax s x e : sf_sign_is s x -> sf_sign_is s (SFldexp prec emax x e).
Proof. destruct x; cbn; auto. intros <-. apply binary_round_sign. Qed.

Lemma SFopp_sign s x : sf_sign_is s x -> sf_sign_is (negb s) (SFopp x).
Proof. destruct x; cbn; auto; intros <-; reflexivity. Qed.

Lemma SFdiv_core_nonneg prec emax m1 e1 m2 e2 :
  0 <= m1 -> 0 < m2 -> 0 <= fst (fst (SFdiv_core_binary prec emax m1 e1 m2 e2)).
Proof.
  intros H1 H2. unfold SFdiv_core_binary.
  set (m' := match _ with Zpos _ => _ | Z0 => _ | Zneg _ => _ end).
  assert (0 <= m') by (unfold m'; destruct (_ - _ - _); rewrite ?Z.shiftl_nonneg; lia).
  pose proof (Z.div_pos m' m2 ltac:(lia) H2) as Hq. unfold Z.div in Hq.
  destruct (Z.div_eucl m' m2). exact Hq.
Qed.

Lemma div_100_sign s f :
  sf_sign_is s (Prim2SF f) -> sf_sign_is s (Prim2SF (f / 100)%float).
Proof.
  rewrite div_spec. change (Prim2SF 100) with (S754_finite false 7036874417766400 (-46)).
  destruct (Prim2SF f) as [s'|s'| |s' m e]; cbn [SF64div SFdiv sf_sign_is]; try contradiction;
    intros <-; destruct s'; try reflexivity.
  all: pose proof (SFdiv_core_nonneg prec emax (Zpos m) e 7036874417766400 (-46) ltac:(lia) ltac:(lia)) as H;
    destruct (SFdiv_core_binary _ _ _ _ _ _) as [[mz ez] lz]; apply binary_round_aux_sign; exact H.
Qed.

Lemma py_float_of_int_neg n :
  n < 0 -> Z.abs n < 2 ^ 1023 -> exists f, py_float_of_int n = Ok f /\ sf_sign_is true (Prim2SF f).
Proof.
  intros Hn Hb. unfold py_float_of_int, float_of_ratio.
  rewrite (proj2 (Z.ltb_lt n 0) Hn), (proj2 (Z.eqb_neq (Z.abs n) 0)) by lia.
  destruct (round_ratio_int_Some (Z.abs n)) as [[m e] ->]; [lia | exact Hb|].
  destruct (m =? 0); (eexists; split; [reflexivity|]); [reflexivity|].
  cbn [SF2Prim]. rewrite opp_spec. apply (SFopp_sign false).
  rewrite Z_ldexp_spec. apply SFldexp_sign. rewrite of_uint63_spec.
  apply binary_normalize_nonneg, Uint63.to_Z_bounded.
Qed.

Lemma format_2f_neg f : sf_sign_is true (Prim2SF f) -> exists r, format_2f f = "-"%char :: r.
Proof. unfold format_2f. destruct (Prim2SF f); cbn [sf_sign_is]; try contradiction; intros ->; eexists; reflexivity. Qed.

(** Line 121 writes a minus sign for every negative balance [float()]
    converts. *)
Lemma saldo_str_neg n : n < 0 -> Z.abs n < 2 ^ 1023 -> exists r, saldo_str n = Ok ("-"%char :: r).
Proof.
  intros Hn Hb. unfold saldo_str. destruct (py_float_of_int_neg n Hn Hb) as (f & -> & Hf). cbn [bind].
  destruct (format_2f_neg _ (div_100_sign _ _ Hf)) as [r ->]. eexists. reflexivity.
Qed.

Lemma py_float_of_int_pos n :
  0 < n -> n < 2 ^ 1023 -> exists f, py_float_of_int n = Ok f /\ sf_sign_is false (Prim2SF f).
Proof.
  intros Hn Hb. unfold py_float_of_int, float_of_ratio.
  rewrite (proj2 (Z.ltb_ge n 0)), (proj2 (Z.eqb_neq (Z.abs n) 0)) by lia.
  destruct (round_ratio_int_Some (Z.abs n)) as [[m e] ->]; [lia | lia|].
  destruct (m =? 0); (eexists; split; [reflexivity|]); [reflexivity|].
  cbn [SF2Prim]. rewrite Z_ldexp_spec. apply SFldexp_sign. rewrite of_uint63_spec.
  apply binary_normalize_nonneg, Uint63.to_Z_bounded.
Qed.

Lemma string_of_uint_no_minus d : ~ In "-"%char (str (NilEmpty.string_of_uint d)).
Proof. induction d; cbn; intros H; try exact H; destruct H as [H|H]; first [discriminate | auto]. Qed.

Lemma z_digits_no_minus n : ~ In "-"%char (z_digits n).
Proof.
  unfold z_digits, NilZero.string_of_uint. destruct (N.to_uint (Z.to_N n)); cbn [str];
    try apply string_of_uint_no_minus; intros [H|[]]; discriminate.
Qed.

Lemma digit_not_minus q : 0 <= q <= 9 -> ascii_of_nat (Z.to_nat (48 + q)) <> "-"%char.
Proof.
  intros Hq E. apply (f_equal nat_of_ascii) in E.
  rewrite nat_ascii_embedding in E by lia. change (nat_of_ascii "-") with 45%nat in E. lia.
Qed.

Lemma format_2f_no_minus f : sf_sign_is false (Prim2SF f) -> ~ In "-"%char (format_2f f).
Proof.
  unfold format_2f. destruct (Prim2SF f) as [s|s| |s m e]; cbn [sf_sign_is]; try contradiction;
    intros ->; [intros H; apply mem_In in H; vm_compute in H; discriminate..|].
  cbn [app]. set (k := round_half_even _ _). unfold two_digits. intros H.
  apply in_app_or in H as [H|H]; [exact (z_digits_no_minus _ H)|].
  destruct H as [H|[H|[H|[]]]]; [discriminate| |];
    refine (digit_not_minus _ _ H); pose proof (Z.mod_pos_bound k 100); Z.to_euclidean_division_equations; lia.
Qed.

(** Line 121 writes no minus sign for a positive balance [float()]
    converts. *)
Lemma saldo_str_pos n : 0 < n -> n < 2 ^ 1023 -> exists s, saldo_str n = Ok s /\ ~ In "-"%char s.
Proof.
  intros Hn Hb. unfold saldo_str. destruct (py_float_of_int_pos n Hn Hb) as (f & -> & Hf). cbn [bind].
  eexists. split; [reflexivity|]. pose proof (format_2f_no_minus _ (div_100_sign _ _ Hf)) as H.
  generalize dependent (format_2f (f / 100)%float). intros t Ht.
  induction t as [|x t IH]; [intros []|]. cbn [py_replace]. intros Hin.
  apply in_app_or in Hin as [Hin|Hin]; [|apply IH; [intros H; apply Ht; now right | exact Hin]].
  destruct (Ascii.eqb x "."%char); destruct Hin as [Hin|[]]; [discriminate|]. subst. apply Ht. now left.
Qed.

(** ** Underscores and special values *)

(** The fast path of [_Py_string_to_number_with_underscores] ([strchr(s,
    '_') == NULL]: the string is passed on as it is) agrees with its loop. *)
Lemma remove_underscores_absent prev s :
  ~ In "_"%char s -> prev <> "_"%char -> remove_underscores prev s = Some s.
Proof.
  revert prev. induction s as [|c s IH]; intros prev Hs Hp; cbn [remove_underscores].
  - now rewrite ascii_eqb_false.
  - rewrite (ascii_eqb_false c) by (intros ->; apply Hs; now left).
    rewrite (ascii_eqb_false prev) by exact Hp. cbn [andb].
    rewrite IH; [reflexivity | intros H; apply Hs; now right | intros ->; apply Hs; now left].
Qed.

(** Amounts [float()] accepts beyond decimal literals: [1_000,50] is
    1000.50 euros, [inf] raises [OverflowError] and [nan] [ValueError] at
    [int()], [1__0] is refused. *)
Example amount_cents_special :
  amount_cents (str "1_000,50") = Ok 100050 /\ amount_cents (str "-Infinity") = Err OverflowError /\
  amount_cents (str "nan") = Err ValueError /\ amount_cents (str "1__0") = Err ValueError.
Proof. vm_compute. repeat split. Qed.

(** ** Bounds on the program's two conversions *)

(** An amount as the export writes it: euros, a comma, two digits. *)
Definition cents_text (n : Z) : pystr := z_digits (n / 100) ++ [","%char] ++ two_digits (n mod 100).

(** A balance as exact decimal arithmetic would print it. *)
Definition signed_cents_text (z : Z) : pystr :=
  (if z <? 0 then str "-" else []) ++ z_digits (Z.abs z / 100) ++ str "." ++ two_digits (Z.abs z mod 100).

Definition amount_within_one_cent (n : Z) : bool :=
  match amount_cents (cents_text n) with
  | Ok m => (m =? n) || (m =? n - 1)
  | Err _ => false
  end.

Definition format_exact (z : Z) : bool :=
  match py_float_of_int z with
  | Ok f => if list_eq_dec ascii_dec (format_2f (f / 100)%float) (signed_cents_text z) then true else false
  | Err _ => false
  end.

(** C26: For every amount from [0,00] to [199,99] the conversion
    of line 104 succeeds and loses at most one cent. *)
Theorem amount_cents_within_one_cent n :
  0 <= n < 20000 ->
  amount_cents (cents_text n) = Ok n \/ amount_cents (cents_text n) = Ok (n - 1).
Proof.
  intros Hn.
  assert (H : forallb amount_within_one_cent (range_Z 0 (Z.to_nat 20000)) = true)
    by (vm_compute; reflexivity).
  specialize (forallb_range_Z _ _ _ H n ltac:(lia)). unfold amount_within_one_cent.
  destruct (amount_cents (cents_text n)) as [m|e]; [|discriminate].
  intros Hm. apply orb_prop in Hm as [Hm|Hm]; apply Z.eqb_eq in Hm; subst; auto.
Qed.

(** C27: For balances from -200,00 to 200,00 the format of line 121,
    before the comma replacement, prints the exact decimal value, with a
    minus sign for a negative balance. *)
Theorem format_balance_exact z :
  -20000 <= z <= 20000 ->
  exists f, py_float_of_int z = Ok f /\ format_2f (f / 100)%float = signed_cents_text z.
Proof.
  intros Hz.
  assert (H : forallb format_exact (range_Z (-20000) (Z.to_nat 40001)) = true)
    by (vm_compute; reflexivity).
  specialize (forallb_range_Z _ _ _ H z ltac:(lia)). unfold format_exact.
  destruct (py_float_of_int z) as [f|e]; [|discriminate].
  destruct (list_eq_dec ascii_dec (format_2f (f / 100)%float) (signed_cents_text z)); [|discriminate].
  eauto.
Qed.

Lemma amount_cents_within_one_cent_witness :
  amount_cents (cents_text 29) = Ok 29 \/ amount_cents (cents_text 29) = Ok (29 - 1).
Proof. apply amount_cents_within_one_cent. lia. Defined.

Lemma format_balance_exact_witness :
  exists f, py_float_of_int (-300) = Ok f /\ format_2f (f / 100)%float = signed_cents_text (-300).
Proof. apply format_balance_exact. lia. Defined.

End PyFloat.
