(* ===== verification/Transcoder.v ===== *)
(** * Transcoder: the statement transcoder of [src/mt940convert.py]

    [run_conversion] (lines 62-127) checks the opening date (lines 65-66),
    fills the header template (lines 68-75), and, once the table is
    well formed, reads its rows, skips the header row and accumulates the
    document (lines 95-115) before the closing record (lines 117-122).
    The state of that loop, the document [result], the balance [saldo]
    and the last [date], is the record [state]; one iteration is
    [process_row]; the loop is [process_rows]; the closing record is
    [close_statement].  The theorems: the balance is the signed sum of
    the rows' cents, whatever their order; the document is the header
    followed by the rows' record groups in order; comments are cut into at
    most two records of 63 characters; every failure is an error value;
    the closing record's direction is [C] without a sign for every
    positive balance, [D] for a zero balance and, with a minus sign before
    the amount, for every negative one. *)

From Stdlib Require Import Ascii String.
From Stdlib Require Import List ZArith Lia Bool Permutation Floats.
From S2P Require Import Prelude PyFloat.
Import ListNotations PyFloat.
Local Open Scope Z_scope.

Module Transcoder.

(** ** Rows and the loop state *)

(** [date, name, _, iban, typ, DC, amount, _, comment = row]; the two
    ignored columns are the account ([Rekening]) and the mutation kind
    ([MutatieSoort]). *)
Record row := mk_row {
  date : pystr; name : pystr; account : pystr; iban : pystr; typ : pystr;
  DC : pystr; amount : pystr; kind : pystr; comment : pystr }.

(** The unpacking of line 103: [ValueError] unless the row has nine
    fields. *)
Definition unpack_row (r : list pystr) : result row :=
  match r with
  | [d; n; a; i; t; dc; am; k; c] => Ok (mk_row d n a i t dc am k c)
  | _ => Err ValueError
  end.

(** The variables the loop updates: [result] (here [doc]: [result] names
    the monad), [saldo], and [date], unbound before the first row. *)
Record state := mk_state { doc : pystr; saldo : Z; last_date : option pystr }.

(** ** The operations *)

(** Lines 68-75: the template, with the indentation of the source's
    triple-quoted string, filled in, then every ['\n'] made ['\r\n']. *)
Definition header_mt940 (reknr firstdate : pystr) : pystr :=
  py_replace lf crlf
    (str "0000 01INGBNL2AXXXX00001" ++ [lf] ++
     str "    0000 01INGBNL2AXXXX00001" ++ [lf] ++
     str "    940 00" ++ [lf] ++
     str "    :20:INGEB" ++ [lf] ++
     str "    :25:" ++ reknr ++ [lf] ++
     str "    :28C:1" ++ [lf] ++
     str "    :60F:C" ++ firstdate ++ str "EUR0" ++ [lf] ++
     str "    ").

(** Lines 103-115: one iteration of the loop. *)
Definition process_row (st : state) (r : list pystr) : result state :=
  x <- unpack_row r ;;
  cents <- amount_cents (amount x) ;;
  let '(dc, saldo') :=
    if py_eqb (DC x) (str "Bij") then (str "C", saldo st + cents)
    else (str "D", saldo st - cents) in
  let out1 := doc st ++ str ":61:" ++ py_drop (date x) 2 ++ dc ++ amount x ++ str "N" ++
              typ x ++ crlf in
  let out2 := if 0 <? py_len (comment x)
              then out1 ++ str ":86:" ++ py_take (comment x) 63 ++ crlf else out1 in
  let out3 := if 63 <? py_len (comment x)
              then out2 ++ str ":86:" ++ py_slice (comment x) 63 126 ++ crlf else out2 in
  Ok (mk_state out3 saldo' (Some (date x))).

(** Line 102: [for row in reader], stopping at the first exception. *)
Fixpoint process_rows (st : state) (rows : list (list pystr)) : result state :=
  match rows with
  | [] => Ok st
  | r :: rows' => st' <- process_row st r ;; process_rows st' rows'
  end.

(** Lines 117-122: the closing record.  [date] is unbound when no row was
    read. *)
Definition close_statement (st : state) : result pystr :=
  let dc := if 0 <? saldo st then str "C" else str "D" in
  s <- saldo_str (saldo st) ;;
  match last_date st with
  | Some d => Ok (doc st ++ str ":62F:" ++ dc ++ py_drop d 2 ++ str "EUR" ++ s ++ crlf ++ str "-")
  | None => Err UnboundLocalError
  end.

(** Lines 96-122: the rows of the reader, the first one (the header row)
    skipped by [for row in reader: break]; [header] is [header_mt940]. *)
Definition statement (header : pystr) (rows : list (list pystr)) : result pystr :=
  st <- process_rows (mk_state header 0 None) (tl rows) ;;
  close_statement st.

(** Lines 65-75 and 95-122: the conversion of a table that needs no quote
    repair, given the rows [csv.reader] yields. *)
Definition convert_rows (rows : list (list pystr)) (reknr firstdate : pystr) : result pystr :=
  if negb (py_len firstdate =? 6) then Err ValueError
  else statement (header_mt940 reknr firstdate) rows.

(** ** Reference definitions *)

(** The signed cents a row adds to the balance. *)
Definition row_delta (r : list pystr) : result Z :=
  x <- unpack_row r ;;
  cents <- amount_cents (amount x) ;;
  Ok (if py_eqb (DC x) (str "Bij") then cents else - cents).

(** The comment records' contents: at most two chunks of 63 characters. *)
Definition comment_payloads (c : pystr) : list pystr :=
  (if 0 <? py_len c then [py_take c 63] else []) ++
  (if 63 <? py_len c then [py_slice c 63 126] else []).

(** The records of one row: its [:61:] record and its [:86:] records. *)
Definition record_group (x : row) : pystr :=
  str ":61:" ++ py_drop (date x) 2 ++
  (if py_eqb (DC x) (str "Bij") then str "C" else str "D") ++
  amount x ++ str "N" ++ typ x ++ crlf ++
  concat (map (fun p => str ":86:" ++ p ++ crlf) (comment_payloads (comment x))).

(** The records of a raw row, or the exception the loop raises on it. *)
Definition row_group (r : list pystr) : result pystr :=
  x <- unpack_row r ;;
  _ <- amount_cents (amount x) ;;
  Ok (record_group x).

Definition sumZ (l : list Z) : Z := fold_right Z.add 0 l.

(** ** One iteration *)

(** The appends of lines 111-115 build exactly the row's record group. *)
Lemma process_row_step st r :
  process_row st r =
  (x <- unpack_row r ;;
   cents <- amount_cents (amount x) ;;
   Ok (mk_state (doc st ++ record_group x)
                (saldo st + if py_eqb (DC x) (str "Bij") then cents else - cents)
                (Some (date x)))).
Proof.
  unfold process_row. destruct (unpack_row r) as [x|e]; cbn [bind]; [|reflexivity].
  destruct (amount_cents (amount x)) as [c|e]; cbn [bind]; [|reflexivity].
  unfold record_group, comment_payloads.
  destruct (py_eqb (DC x) (str "Bij")); cbv zeta;
    (destruct (0 <? py_len (comment x)), (63 <? py_len (comment x)); cbn [app concat map];
     repeat rewrite app_nil_r; apply (f_equal (@Ok state));
     (apply (f_equal3 mk_state); [app_assoc_norm | lia | reflexivity])).
Qed.

(** ** The loop *)

(** (balance): the balance after the loop is the start balance plus the
    signed cents of every row (credit [Bij] positive, anything else
    negative); the loop fails exactly when, and as, one of the rows
    fails. *)
Lemma process_rows_saldo_fmap st rows :
  fmap saldo (process_rows st rows) = fmap (fun ds => saldo st + sumZ ds) (mapM row_delta rows).
Proof.
  revert st. induction rows as [|r rows IH]; intros st; cbn [process_rows mapM].
  - cbn. f_equal. lia.
  - rewrite process_row_step. set (M := mapM row_delta rows). unfold row_delta.
    destruct (unpack_row r) as [x|e]; cbn [bind]; [|reflexivity].
    destruct (amount_cents (amount x)) as [c|e]; cbn [bind]; [|reflexivity].
    rewrite IH. fold M. cbn [saldo]. destruct M; cbn; [unfold sumZ; f_equal; ring | reflexivity].
Qed.

(** C1: The balance after the loop is the start balance plus the
    signed cents of every row (credit [Bij] positive, anything else
    negative); the loop fails exactly when, and as, one of the rows
    fails. *)
Theorem process_rows_saldo st rows :
  fmap saldo (process_rows st rows) = fmap (fun ds => saldo st + sumZ ds) (mapM row_delta rows).
Proof. exact (process_rows_saldo_fmap st rows). Qed.

(** (document): the document after the loop is the start document
    followed by the record groups of the rows, in input order. *)
Lemma process_rows_doc_fmap st rows :
  fmap doc (process_rows st rows) = fmap (fun gs => doc st ++ concat gs) (mapM row_group rows).
Proof.
  revert st. induction rows as [|r rows IH]; intros st; cbn [process_rows mapM].
  - cbn. now rewrite app_nil_r.
  - rewrite process_row_step. set (M := mapM row_group rows). unfold row_group.
    destruct (unpack_row r) as [x|e]; cbn [bind]; [|reflexivity].
    destruct (amount_cents (amount x)) as [c|e]; cbn [bind]; [|reflexivity].
    rewrite IH. fold M. cbn [doc]. destruct M; cbn [fmap bind concat]; [|reflexivity].
    now rewrite app_assoc.
Qed.

(** C11: The document after the loop is the start document
    followed by the record groups of the rows, in input order. *)
Theorem process_rows_doc st rows :
  fmap doc (process_rows st rows) = fmap (fun gs => doc st ++ concat gs) (mapM row_group rows).
Proof. exact (process_rows_doc_fmap st rows). Qed.

Lemma fmap_Ok_inv {A B : Type} (f : A -> B) m b :
  fmap f m = Ok b -> exists a, m = Ok a /\ f a = b.
Proof. destruct m; cbn; intros H; inversion H; eauto. Qed.

Lemma sumZ_Permutation l l' : Permutation l l' -> sumZ l = sumZ l'.
Proof. induction 1; unfold sumZ in *; cbn in *; lia. Qed.

(** C12: The final balance does not depend on the order of the rows:
    a permutation of rows the loop accepts is accepted, with the same
    balance. *)
Theorem process_rows_Permutation st rows rows' s1 :
  Permutation rows rows' -> process_rows st rows = Ok s1 ->
  exists s2, process_rows st rows' = Ok s2 /\ saldo s2 = saldo s1.
Proof.
  intros Hp H1.
  assert (E1 := process_rows_saldo_fmap st rows). rewrite H1 in E1. cbn in E1.
  destruct (mapM row_delta rows) as [ds|e] eqn:Eds; cbn in E1; [|discriminate].
  destruct (mapM_Permutation _ _ _ _ Hp Eds) as (ds' & Eds' & Pds).
  assert (E2 := process_rows_saldo_fmap st rows'). rewrite Eds' in E2. cbn in E2.
  apply fmap_Ok_inv in E2 as (s2 & -> & Hs2). exists s2. split; [reflexivity|].
  inversion E1 as [Hs1]. rewrite Hs2, Hs1. f_equal. symmetry. now apply sumZ_Permutation.
Qed.

(** ** Comments *)

Lemma firstn_firstn_skipn {A : Type} n m (l : list A) :
  firstn n l ++ firstn m (skipn n l) = firstn (n + m) l.
Proof.
  revert l; induction n as [|n IH]; intros [|x l]; cbn; try reflexivity.
  - now rewrite firstn_nil.
  - now rewrite IH.
Qed.

(** C13: The [:86:] records of a comment hold its first
    126 characters, in order; there is none for an empty comment, one for a
    comment of at most 63 characters and two for a longer one; each holds
    between 1 and 63 characters. *)
Theorem comment_payloads_spec c :
  concat (comment_payloads c) = firstn 126 c /\
  length (comment_payloads c) = (if Nat.eqb (length c) 0 then 0 else if Nat.leb (length c) 63 then 1 else 2)%nat /\
  Forall (fun p => (0 < length p <= 63)%nat) (comment_payloads c).
Proof.
  unfold comment_payloads, py_take.
  change 0 with (Z.of_nat 0). change 63 with (Z.of_nat 63). change 126 with (Z.of_nat 126).
  rewrite !py_slice_of_nat by lia. change (skipn 0 c) with c. cbn [Nat.sub]. unfold py_len.
  destruct (Nat.eqb_spec (length c) 0) as [H0|H0].
  - apply length_zero_iff_nil in H0. subst c. cbn. repeat split; constructor.
  - replace (Z.of_nat 0 <? Z.of_nat (length c)) with true by (symmetry; apply Z.ltb_lt; lia).
    destruct (Nat.leb_spec (length c) 63) as [H63|H63].
    + replace (Z.of_nat 63 <? Z.of_nat (length c)) with false by (symmetry; apply Z.ltb_ge; lia).
      cbn [app concat length]. rewrite app_nil_r, !firstn_all2 by lia.
      split; [reflexivity | split; [reflexivity | constructor; [lia | constructor]]].
    + replace (Z.of_nat 63 <? Z.of_nat (length c)) with true by (symmetry; apply Z.ltb_lt; lia).
      cbn [app concat length]. rewrite app_nil_r, firstn_firstn_skipn.
      split; [reflexivity | split; [reflexivity|]].
      constructor; [|constructor; [|constructor]]; rewrite ?length_firstn, ?length_skipn; lia.
Qed.

(** ** The statement *)

Lemma last_cons_default {A : Type} (x : A) l d : last (x :: l) d = last l x.
Proof.
  revert x d; induction l as [|y l IH]; intros x d; [reflexivity|].
  change (last (x :: y :: l) d) with (last (y :: l) d). now rewrite !IH.
Qed.

Lemma unpack_row_date r x : unpack_row r = Ok x -> date x = hd [] r.
Proof.
  intros H. unfold unpack_row in H.
  do 9 (destruct r as [|? r]; [discriminate|]). destruct r; [|discriminate].
  now inversion H.
Qed.

(** After the loop, [date] holds the first field of the last row, or is
    still unbound when there was no row. *)
Lemma process_rows_last_date st rows st' :
  process_rows st rows = Ok st' ->
  last_date st' = last (map (fun r => Some (hd [] r)) rows) (last_date st).
Proof.
  revert st; induction rows as [|r rows IH]; intros st H; cbn [process_rows] in H.
  - now inversion H.
  - rewrite process_row_step in H.
    destruct (unpack_row r) as [x|e] eqn:Ex; cbn [bind] in H; [|discriminate].
    destruct (amount_cents (amount x)); cbn [bind] in H; [|discriminate].
    rewrite (IH _ H). cbn [map]. rewrite last_cons_default. cbn [last_date].
    now rewrite (unpack_row_date _ _ Ex).
Qed.

Lemma last_map_Some {A B : Type} (f : A -> B) l :
  l <> [] -> last (map (fun r => Some (f r)) l) None <> None.
Proof.
  induction l as [|x l IH]; intros Hne; [congruence|].
  destruct l as [|y l]; [discriminate|]. rewrite map_cons, last_cons_default.
  replace (last (map (fun r => Some (f r)) (y :: l)) (Some (f x))) with
          (last (map (fun r => Some (f r)) (y :: l)) None); [apply IH; discriminate|].
  cbn [map]. rewrite !last_cons_default. reflexivity.
Qed.

(** A table with data rows that all convert, whose balance [float()]
    can represent, gives a statement. *)
Lemma statement_Ok header rows ds :
  tl rows <> [] -> mapM row_delta (tl rows) = Ok ds -> Z.abs (sumZ ds) < 2 ^ 1023 ->
  exists out, statement header rows = Ok out.
Proof.
  intros Hne Hds Hb. unfold statement.
  pose proof (process_rows_saldo_fmap (mk_state header 0 None) (tl rows)) as Hs. rewrite Hds in Hs.
  destruct (process_rows (mk_state header 0 None) (tl rows)) as [st|e] eqn:Hp; cbn [fmap] in Hs; [|discriminate].
  injection Hs as Hs. cbn [saldo] in Hs.
  apply process_rows_last_date in Hp. cbn [last_date] in Hp.
  cbn [bind]. unfold close_statement. rewrite Hs, ?Z.add_0_l.
  destruct (saldo_str_Ok (sumZ ds) Hb) as [s ->]. cbn [bind].
  destruct (last_date st) eqn:Hd; [eauto|].
  exfalso. exact (last_map_Some (hd []) (tl rows) Hne (eq_sym Hp)).
Qed.

(** C2: A statement is the header block, the
    record groups of the data rows in input order, and one closing record
    whose direction is [C] exactly when the signed sum of the rows is
    positive, with the date of the last row and that sum formatted. *)
Theorem statement_document header rows out :
  statement header rows = Ok out ->
  exists gs ds s d,
    mapM row_group (tl rows) = Ok gs /\ mapM row_delta (tl rows) = Ok ds /\
    saldo_str (sumZ ds) = Ok s /\
    last (map (fun r => Some (hd [] r)) (tl rows)) None = Some d /\
    out = header ++ concat gs ++ str ":62F:" ++ (if 0 <? sumZ ds then str "C" else str "D") ++
          py_drop d 2 ++ str "EUR" ++ s ++ crlf ++ str "-".
Proof.
  unfold statement. intros H.
  destruct (process_rows (mk_state header 0 None) (tl rows)) as [st|e] eqn:E; cbn [bind] in H;
    [|discriminate].
  assert (Hs := process_rows_saldo_fmap (mk_state header 0 None) (tl rows)).
  assert (Hd := process_rows_doc_fmap (mk_state header 0 None) (tl rows)).
  rewrite E in Hs, Hd. cbn in Hs, Hd.
  destruct (mapM row_delta (tl rows)) as [ds|]; [|discriminate].
  destruct (mapM row_group (tl rows)) as [gs|]; [|discriminate].
  inversion Hs as [Hs']. inversion Hd as [Hd'].
  assert (Hl := process_rows_last_date _ _ _ E). cbn [last_date] in Hl.
  unfold close_statement in H. rewrite Hs' in H.
  destruct (saldo_str (sumZ ds)) as [s|] eqn:Es; cbn [bind] in H; [|discriminate].
  destruct (last_date st) as [d|]; [|discriminate]. inversion H; subst.
  exists gs, ds, s, d. repeat split; auto. rewrite Hd', <- app_assoc. reflexivity.
Qed.

(** C24: When a data row has the wrong width or an amount that does
    not convert, the statement fails with that row's exception: no
    document is produced. *)
Theorem statement_error header rows e :
  mapM row_delta (tl rows) = Err e -> statement header rows = Err e.
Proof.
  intros He. unfold statement.
  assert (Hs := process_rows_saldo_fmap (mk_state header 0 None) (tl rows)).
  rewrite He in Hs. cbn in Hs.
  destruct (process_rows (mk_state header 0 None) (tl rows)); cbn [bind]; cbn in Hs; congruence.
Qed.

(** C25: A table with a header row and no data row raises
    [UnboundLocalError] at line 122: [date] was never bound. *)
Theorem statement_no_rows header rows :
  tl rows = [] -> statement header rows = Err UnboundLocalError.
Proof.
  intros H. unfold statement. rewrite H. cbn [process_rows bind].
  unfold close_statement. cbn [saldo last_date].
  assert (saldo_str 0 = Ok (str "0,00")) as -> by (vm_compute; reflexivity). reflexivity.
Qed.

(** An opening date that is not six characters long is
    rejected before any row is looked at. *)
Lemma convert_rows_bad_date rows reknr firstdate :
  py_len firstdate <> 6 -> convert_rows rows reknr firstdate = Err ValueError.
Proof.
  intros H. unfold convert_rows. now replace (py_len firstdate =? 6) with false by lia.
Qed.

(** ** The closing record *)

(** C28: A zero balance closes with direction [D]: line 117 tests
    [saldo > 0], where a zero balance is usually a credit balance. *)
Theorem close_zero_balance out d :
  close_statement (mk_state out 0 (Some d)) =
  Ok (out ++ str ":62F:D" ++ py_drop d 2 ++ str "EUR0,00" ++ crlf ++ str "-").
Proof.
  unfold close_statement. cbn [saldo last_date doc].
  assert (saldo_str 0 = Ok (str "0,00")) as -> by (vm_compute; reflexivity).
  reflexivity.
Qed.

(** C29: Every negative balance that [float()] converts is written with
    both the direction [D] and a minus sign: ['{0:.2f}'] formats the
    signed value, not its magnitude. *)
Theorem close_negative_balance out d bal :
  bal < 0 -> Z.abs bal < 2 ^ 1023 ->
  exists r, close_statement (mk_state out bal (Some d)) =
            Ok (out ++ str ":62F:D" ++ py_drop d 2 ++ str "EUR-" ++ r ++ crlf ++ str "-").
Proof.
  intros Hn Hb. unfold close_statement. cbn [saldo last_date doc].
  rewrite (proj2 (Z.ltb_ge 0 bal)) by lia.
  destruct (saldo_str_neg bal Hn Hb) as [r ->]. exists r. reflexivity.
Qed.

(** C30: Every positive balance that [float()] converts closes with
    direction [C] and an amount without a minus sign. *)
Theorem close_positive_balance out d bal :
  0 < bal -> bal < 2 ^ 1023 ->
  exists r, ~ In "-"%char r /\
            close_statement (mk_state out bal (Some d)) =
            Ok (out ++ str ":62F:C" ++ py_drop d 2 ++ str "EUR" ++ r ++ crlf ++ str "-").
Proof.
  intros Hn Hb. unfold close_statement. cbn [saldo last_date doc].
  rewrite (proj2 (Z.ltb_lt 0 bal)) by lia.
  destruct (saldo_str_pos bal Hn Hb) as (r & -> & Hr). exists r. split; [exact Hr | reflexivity].
Qed.

(** ** The examples of the specification *)

Definition example_header_row : list pystr :=
  map str ["Datum"; "Naam / Omschrijving"; "Rekening"; "Tegenrekening"; "Code";
           "Af Bij"; "Bedrag (EUR)"; "MutatieSoort"; "Mededelingen"]%string.

Definition example_row (dc amount comment : string) : list pystr :=
  map str ["20170105"; "X"; "NL00INGB0000000001"; "NLxx"; "AB"; dc; amount; "Overschrijving";
           comment]%string.

(** A credit of [10,50] with the comment [rent] gives the record
    [:61:170105C10,50NAB], the record [:86:rent] and a closing balance of
    1050 cents, credit. *)
Theorem example_rent :
  convert_rows [example_header_row; example_row "Bij" "10,50" "rent"]
    (str "NL01INGB0001234567") (str "161231") =
  Ok (header_mt940 (str "NL01INGB0001234567") (str "161231") ++
      str ":61:170105C10,50NAB" ++ crlf ++ str ":86:rent" ++ crlf ++
      str ":62F:C170105EUR10,50" ++ crlf ++ str "-").
Proof. vm_compute. reflexivity. Qed.

(** A credit of [5,00] and a debit of [3,00] close with direction [C]
    and the balance [2,00]. *)
Theorem example_two_rows :
  convert_rows [example_header_row; example_row "Bij" "5,00" ""; example_row "Af" "3,00" ""]
    (str "NL01INGB0001234567") (str "161231") =
  Ok (header_mt940 (str "NL01INGB0001234567") (str "161231") ++
      str ":61:170105C5,00NAB" ++ crlf ++ str ":61:170105D3,00NAB" ++ crlf ++
      str ":62F:C170105EUR2,00" ++ crlf ++ str "-").
Proof. vm_compute. reflexivity. Qed.

(** ** Witnesses *)

Definition example_rows : list (list pystr) :=
  [example_row "Bij" "5,00" ""; example_row "Af" "3,00" ""].

Definition example_state : state :=
  match process_rows (mk_state [] 0 None) example_rows with
  | Ok st => st
  | Err _ => mk_state [] 0 None
  end.

Lemma process_rows_Permutation_witness :
  exists s2, process_rows (mk_state [] 0 None)
               [example_row "Af" "3,00" ""; example_row "Bij" "5,00" ""] = Ok s2 /\
             saldo s2 = saldo example_state.
Proof.
  apply (process_rows_Permutation _ example_rows).
  - apply perm_swap.
  - vm_compute. reflexivity.
Defined.

Definition example_out : pystr :=
  match statement [] [example_header_row; example_row "Bij" "10,50" "rent"] with
  | Ok out => out
  | Err _ => []
  end.

Lemma statement_document_witness :
  exists gs ds s d,
    mapM row_group [example_row "Bij" "10,50" "rent"] = Ok gs /\
    mapM row_delta [example_row "Bij" "10,50" "rent"] = Ok ds /\
    saldo_str (sumZ ds) = Ok s /\
    last (map (fun r => Some (hd [] r)) [example_row "Bij" "10,50" "rent"]) None = Some d /\
    example_out = [] ++ concat gs ++ str ":62F:" ++ (if 0 <? sumZ ds then str "C" else str "D") ++
                  py_drop d 2 ++ str "EUR" ++ s ++ crlf ++ str "-".
Proof.
  apply (statement_document [] [example_header_row; example_row "Bij" "10,50" "rent"]).
  vm_compute. reflexivity.
Defined.

(** A row with eight fields. *)
Definition short_row : list pystr := firstn 8 (example_row "Bij" "10,50" "rent").

Lemma statement_error_witness :
  statement [] [example_header_row; example_row "Bij" "10,50" "rent"; short_row] = Err ValueError.
Proof. apply statement_error. vm_compute. reflexivity. Defined.

Lemma statement_no_rows_witness :
  statement (header_mt940 (str "NL01") (str "161231")) [example_header_row] =
  Err UnboundLocalError.
Proof. apply statement_no_rows. reflexivity. Defined.

Lemma close_negative_balance_witness :
  exists r, close_statement (mk_state [] (-300) (Some (str "20170105"))) =
            Ok ([] ++ str ":62F:D" ++ py_drop (str "20170105") 2 ++ str "EUR-" ++ r ++ crlf ++ str "-").
Proof. apply close_negative_balance; [lia | reflexivity]. Defined.

Lemma close_positive_balance_witness :
  exists r, ~ In "-"%char r /\
            close_statement (mk_state [] 1050 (Some (str "20170105"))) =
            Ok ([] ++ str ":62F:C" ++ py_drop (str "20170105") 2 ++ str "EUR" ++ r ++ crlf ++ str "-").
Proof. apply close_positive_balance; [lia | reflexivity]. Defined.

End Transcoder.
