(* ===== verification/Csv.v ===== *)
(** * Csv: the [csv.reader] the transcoder reads the table with

    [run_conversion] reads the (repaired or original) table with
    [csv.reader(openfile)] (lines 95-97 of [src/mt940convert.py]) in the
    default [excel] dialect: delimiter [','], quote character ['\x22'],
    doubled quotes, no escape character, no initial-space skipping, not
    strict.  The reader is CPython's, not code of the repository, so it is
    modelled from its documented behaviour, as the C parser of CPython 3.11
    ([Modules/_csv.c]: [parse_process_char], [Reader_iternext]) has it: a
    character state machine fed with the characters of each line of the
    file followed by an end-of-line marker, which yields a record whenever
    it is back in its start state.  With no escape character the states
    [ESCAPED_CHAR], [ESCAPE_IN_QUOTED_FIELD] and [AFTER_ESCAPED_CRNL] are
    unreachable and are left out.

    The theorems: every record consumes at least one line, so reading a
    whole file terminates within its fuel; a canonical line (every field in
    one pair of quotes, as [QuoteRepair.canonical_line] writes it) is read
    back as its fields, exactly when no field exceeds the field size limit;
    a whole canonical table is read back as its rows; on the lines of a
    text file the machine is between lines after each line and fails only
    when a field reaches the size limit. *)

From Stdlib Require Import Ascii String.
From Stdlib Require Import List ZArith Lia Bool.
From S2P Require Import Prelude QuoteRepair.
Import ListNotations.
Import QuoteRepair.

Module Csv.

(** ** The parser *)

(** The states of [parse_process_char] reachable without an escape
    character. *)
Inductive ParserState : Type :=
| START_RECORD
| START_FIELD
| IN_FIELD
| IN_QUOTED_FIELD
| QUOTE_IN_QUOTED_FIELD
| EAT_CRNL.

(** The input of [parse_process_char]: a character of the line, or the
    marker [EOL] fed after the last one. *)
Inductive inchar : Type :=
| Chr (c : ascii)
| EOL.

(** The parser's fields: its state, the field being read ([field],
    [field_len]) and the fields of the record read so far. *)
Record ReaderObj := mk_reader {
  state : ParserState;
  field : pystr;
  fields : list pystr
}.

(** [csv.field_size_limit()]'s default, [128 * 1024]. *)
Definition field_limit : nat := 128 * 1024.
Arguments field_limit : simpl never.

(** The [excel] dialect. *)
Definition delimiter : ascii := ","%char.
Definition quotechar : ascii := dq.

Definition is_crlf (c : ascii) : bool := Ascii.eqb c lf || Ascii.eqb c cr.

Definition set_state (s : ParserState) (r : ReaderObj) : ReaderObj :=
  mk_reader s (field r) (fields r).

(** [parse_reset]: a new record. *)
Definition parse_reset : ReaderObj := mk_reader START_RECORD [] [].

(** [parse_add_char]: [csv.Error] once the field holds [field_limit]
    characters. *)
Definition parse_add_char (r : ReaderObj) (c : ascii) : result ReaderObj :=
  if Nat.leb field_limit (length (field r)) then Err CsvError
  else Ok (mk_reader (state r) (field r ++ [c]) (fields r)).

(** [parse_save_field]: the field joins the record and a new one starts. *)
Definition parse_save_field (r : ReaderObj) : ReaderObj :=
  mk_reader (state r) [] (fields r ++ [field r]).

(** The [START_FIELD] case, which [START_RECORD] falls through to. *)
Definition start_field (r : ReaderObj) (c : inchar) : result ReaderObj :=
  match c with
  | EOL => Ok (set_state START_RECORD (parse_save_field r))
  | Chr x =>
      if is_crlf x then Ok (set_state EAT_CRNL (parse_save_field r))
      else if Ascii.eqb x quotechar then Ok (set_state IN_QUOTED_FIELD r)
      else if Ascii.eqb x delimiter then Ok (parse_save_field r)
      else r' <- parse_add_char r x ;; Ok (set_state IN_FIELD r')
  end.

(** [parse_process_char]: one transition of the machine. *)
Definition parse_process_char (r : ReaderObj) (c : inchar) : result ReaderObj :=
  match state r with
  | START_RECORD =>
      match c with
      | EOL => Ok r
      | Chr x =>
          if is_crlf x then Ok (set_state EAT_CRNL r)
          else start_field (set_state START_FIELD r) c
      end
  | START_FIELD => start_field r c
  | IN_FIELD =>
      match c with
      | EOL => Ok (set_state START_RECORD (parse_save_field r))
      | Chr x =>
          if is_crlf x then Ok (set_state EAT_CRNL (parse_save_field r))
          else if Ascii.eqb x delimiter then Ok (set_state START_FIELD (parse_save_field r))
          else parse_add_char r x
      end
  | IN_QUOTED_FIELD =>
      match c with
      | EOL => Ok r
      | Chr x =>
          if Ascii.eqb x quotechar then Ok (set_state QUOTE_IN_QUOTED_FIELD r)
          else parse_add_char r x
      end
  | QUOTE_IN_QUOTED_FIELD =>
      match c with
      | EOL => Ok (set_state START_RECORD (parse_save_field r))
      | Chr x =>
          if Ascii.eqb x quotechar then
            r' <- parse_add_char r x ;; Ok (set_state IN_QUOTED_FIELD r')
          else if Ascii.eqb x delimiter then Ok (set_state START_FIELD (parse_save_field r))
          else if is_crlf x then Ok (set_state EAT_CRNL (parse_save_field r))
          else r' <- parse_add_char r x ;; Ok (set_state IN_FIELD r')
      end
  | EAT_CRNL =>
      match c with
      | EOL => Ok (set_state START_RECORD r)
      | Chr x => if is_crlf x then Ok r else Err CsvError
      end
  end.

(** The characters of one line, then [EOL]. *)
Fixpoint parse_chars (r : ReaderObj) (line : pystr) : result ReaderObj :=
  match line with
  | [] => Ok r
  | c :: line' => r' <- parse_process_char r (Chr c) ;; parse_chars r' line'
  end.

Definition parse_line (r : ReaderObj) (line : pystr) : result ReaderObj :=
  r' <- parse_chars r line ;; parse_process_char r' EOL.

Definition in_quoted (s : ParserState) : bool :=
  match s with IN_QUOTED_FIELD => true | _ => false end.

(** The loop of [Reader_iternext]: lines are fed until the machine is back
    in [START_RECORD]; at the end of the input a pending field (one not
    empty, or a quoted one) ends the record, otherwise iteration stops.
    The result is the record and the lines left, or [None] at the end. *)
Fixpoint read_record (r : ReaderObj) (lines : list pystr)
  : result (option (list pystr * list pystr)) :=
  match lines with
  | [] =>
      if negb (Nat.eqb (length (field r)) 0) || in_quoted (state r)
      then Ok (Some (fields (parse_save_field r), []))
      else Ok None
  | l :: lines' =>
      r' <- parse_line r l ;;
      match state r' with
      | START_RECORD => Ok (Some (fields r', lines'))
      | _ => read_record r' lines'
      end
  end.

(** [Reader_iternext]: [next(reader)]. *)
Definition Reader_iternext (lines : list pystr) : result (option (list pystr * list pystr)) :=
  read_record parse_reset lines.

(** [list(csv.reader(lines))]: iteration to the end, with fuel. *)
Fixpoint reader_rows (fuel : nat) (lines : list pystr) : result (list (list pystr)) :=
  match fuel with
  | O => Ok []
  | S fuel' =>
      next <- Reader_iternext lines ;;
      match next with
      | None => Ok []
      | Some (row, rest) => rows <- reader_rows fuel' rest ;; Ok (row :: rows)
      end
  end.

(** One more step than there are lines is enough (see [reader_rows_fuel]). *)
Definition csv_rows (lines : list pystr) : result (list (list pystr)) :=
  reader_rows (S (length lines)) lines.

(** A field [csv.reader] reads back from its quoted form: no quote inside,
    not longer than the limit. *)
Definition quotable (f : pystr) : bool :=
  negb (mem quotechar f) && Nat.leb (length f) field_limit.

(** ** Termination *)

Lemma parse_chars_app r a b :
  parse_chars r (a ++ b) = (r' <- parse_chars r a ;; parse_chars r' b).
Proof.
  revert r; induction a as [|c a IH]; intros r; cbn [app parse_chars]; [reflexivity|].
  destruct (parse_process_char r (Chr c)); cbn [bind]; auto.
Qed.

(** A record taken from a non-empty input leaves fewer lines. *)
Lemma read_record_shorter r lines row rest :
  read_record r lines = Ok (Some (row, rest)) -> lines <> [] ->
  (length rest < length lines)%nat.
Proof.
  revert r; induction lines as [|l lines IH]; intros r H Hne; [congruence|].
  cbn [read_record] in H. destruct (parse_line r l) as [r'|e]; cbn [bind] in H; [|discriminate].
  destruct (state r'); try (injection H as _ <-; cbn [length]; lia);
  (destruct lines as [|l' lines];
   [cbn [read_record] in H; destruct (_ || _) in H; [injection H as _ <-; cbn; lia | discriminate]
   | specialize (IH _ H ltac:(discriminate)); cbn [length] in *; lia]).
Qed.

Lemma Reader_iternext_shorter lines row rest :
  Reader_iternext lines = Ok (Some (row, rest)) -> (length rest < length lines)%nat.
Proof.
  intros H. destruct lines as [|l lines]; [discriminate|].
  apply (read_record_shorter _ _ _ _ H). discriminate.
Qed.

(** Two amounts of fuel above the number of lines give the same rows. *)
Lemma reader_rows_fuel_eq fuel fuel' lines :
  (length lines < fuel)%nat -> (length lines < fuel')%nat ->
  reader_rows fuel lines = reader_rows fuel' lines.
Proof.
  revert fuel' lines; induction fuel as [|fuel IH]; intros fuel' lines H H'; [lia|].
  destruct fuel' as [|fuel']; [lia|]. cbn [reader_rows].
  destruct (Reader_iternext lines) as [[[row rest]|]|e] eqn:Hn; cbn [bind]; try reflexivity.
  apply Reader_iternext_shorter in Hn. rewrite (IH fuel') by lia. reflexivity.
Qed.

(** ** Reading canonical lines *)

Lemma parse_add_char_ok r c :
  (length (field r) < field_limit)%nat ->
  parse_add_char r c = Ok (mk_reader (state r) (field r ++ [c]) (fields r)).
Proof. intros H. unfold parse_add_char. now rewrite (proj2 (Nat.leb_gt _ _) H). Qed.

Lemma parse_add_char_full r c :
  (field_limit <= length (field r))%nat -> parse_add_char r c = Err CsvError.
Proof. intros H. unfold parse_add_char. now rewrite (proj2 (Nat.leb_le _ _) H). Qed.

Lemma eqb_quotechar_false c f : ~ In quotechar (c :: f) -> Ascii.eqb c quotechar = false.
Proof. intros Hq. apply ascii_eqb_false. intros ->. apply Hq. now left. Qed.

(** Inside quotes every character but the quote is taken as it is. *)
Lemma parse_quoted_body r f :
  state r = IN_QUOTED_FIELD -> ~ In quotechar f ->
  (length (field r) + length f <= field_limit)%nat ->
  parse_chars r f = Ok (mk_reader IN_QUOTED_FIELD (field r ++ f) (fields r)).
Proof.
  revert r; induction f as [|c f IH]; intros [s fd fs] Hs Hq Hl; cbn [state field fields] in *; subst s.
  - now rewrite app_nil_r.
  - cbn [parse_chars parse_process_char state]. rewrite (eqb_quotechar_false c f Hq).
    rewrite parse_add_char_ok by (cbn [field length] in *; lia). cbn [bind state field fields].
    rewrite IH by (cbn [state field length] in *; rewrite ?length_app; cbn [length] in *;
                   first [reflexivity | intros Hin; apply Hq; now right | lia]).
    cbn [field fields]. now rewrite <- app_assoc.
Qed.

(** ... up to the field size limit, where [csv.Error] is raised. *)
Lemma parse_quoted_overflow r f rest :
  state r = IN_QUOTED_FIELD -> ~ In quotechar f -> (length (field r) <= field_limit)%nat ->
  (field_limit < length (field r) + length f)%nat ->
  parse_chars r (f ++ rest) = Err CsvError.
Proof.
  revert r; induction f as [|c f IH]; intros [s fd fs] Hs Hq Hle Hl; cbn [state field fields length] in *; subst s; [lia|].
  cbn [parse_chars app parse_process_char state]. rewrite (eqb_quotechar_false c f Hq).
  destruct (Nat.lt_ge_cases (length fd) field_limit) as [Hlt|Hge].
  - rewrite parse_add_char_ok by exact Hlt. cbn [bind]. apply IH; cbn [state field];
    [reflexivity | intros Hin; apply Hq; now right | rewrite length_app; cbn [length]; lia..].
  - now rewrite parse_add_char_full by exact Hge.
Qed.

Lemma wrap_eq f : wrap f = [dq] ++ f ++ [dq].
Proof. reflexivity. Qed.

Lemma parse_open_quote r :
  (state r = START_RECORD \/ state r = START_FIELD) -> field r = [] ->
  parse_process_char r (Chr dq) = Ok (mk_reader IN_QUOTED_FIELD [] (fields r)).
Proof. destruct r as [s fd fs]; cbn; intros [-> | ->] ->; reflexivity. Qed.

Lemma parse_close_quote_sep fd fs s :
  parse_chars (mk_reader IN_QUOTED_FIELD fd fs) (dq :: ","%char :: s) =
  parse_chars (mk_reader START_FIELD [] (fs ++ [fd])) s.
Proof. reflexivity. Qed.

Lemma parse_close_quote_end fd fs :
  parse_line (mk_reader IN_QUOTED_FIELD fd fs) [dq; lf] = Ok (mk_reader START_RECORD [] (fs ++ [fd])).
Proof. reflexivity. Qed.

(** A line of quoted fields, started at a field boundary: every field is
    read, or [csv.Error] is raised at the first one over the limit. *)
Lemma parse_canonical r f fs :
  (state r = START_RECORD \/ state r = START_FIELD) -> field r = [] ->
  forallb (fun g : pystr => negb (mem quotechar g)) (f :: fs) = true ->
  parse_line r (py_join ","%char (map wrap (f :: fs)) ++ [lf]) =
  if forallb (fun g : pystr => Nat.leb (length g) field_limit) (f :: fs)
  then Ok (mk_reader START_RECORD [] (fields r ++ f :: fs)) else Err CsvError.
Proof.
  revert r f; induction fs as [|g fs IH]; intros r f Hs Hf Hq;
    cbn [forallb] in Hq |- *; apply andb_prop in Hq as [Hq Hqs]; apply negb_true_iff, mem_false in Hq;
    [cbn [map py_join] | rewrite map_cons, py_join_cons_ne by discriminate];
    unfold parse_line; rewrite (wrap_eq f), <- !app_assoc; cbn [app parse_chars];
    rewrite parse_open_quote by assumption; cbn [bind];
    (destruct (Nat.leb (length f) field_limit) eqn:Hl; cbn [andb];
     [apply Nat.leb_le in Hl; rewrite parse_chars_app, parse_quoted_body by (cbn; auto); cbn [bind field fields]
     | apply Nat.leb_gt in Hl; now rewrite parse_quoted_overflow by (cbn; auto; lia)]).
  - exact (parse_close_quote_end f (fields r)).
  - cbn [app]. rewrite parse_close_quote_sep. fold (parse_line (mk_reader START_FIELD [] (fields r ++ [f]))
      (py_join ","%char (map wrap (g :: fs)) ++ [lf])).
    rewrite IH by (cbn; auto). cbn [fields]. now rewrite <- app_assoc.
Qed.

Lemma read_canonical_line_iff fs rest :
  forallb (fun f : pystr => negb (mem quotechar f)) fs = true ->
  Reader_iternext ((canonical_line ","%char fs ++ [lf]) :: rest) =
  if forallb (fun f : pystr => Nat.leb (length f) field_limit) fs then Ok (Some (fs, rest)) else Err CsvError.
Proof.
  intros Hq. destruct fs as [|f fs]; [reflexivity|].
  unfold Reader_iternext, canonical_line. cbn [read_record].
  rewrite parse_canonical by first [now left | reflexivity | assumption].
  destruct (forallb (fun g : pystr => Nat.leb (length g) field_limit) (f :: fs)); reflexivity.
Qed.

Lemma forallb_quotable fs :
  forallb quotable fs =
  forallb (fun f : pystr => negb (mem quotechar f)) fs && forallb (fun f : pystr => Nat.leb (length f) field_limit) fs.
Proof.
  induction fs as [|f fs IH]; [reflexivity|]. cbn [forallb]. rewrite IH. unfold quotable.
  now destruct (negb _), (Nat.leb _ _), (forallb _ fs), (forallb _ fs).
Qed.

Lemma read_canonical fs rest :
  forallb quotable fs = true ->
  Reader_iternext ((canonical_line ","%char fs ++ [lf]) :: rest) = Ok (Some (fs, rest)).
Proof.
  rewrite forallb_quotable. intros [Hq Hl]%andb_prop.
  now rewrite read_canonical_line_iff, Hl.
Qed.

Lemma reader_rows_canonical fuel rows :
  (length rows < fuel)%nat -> forallb (forallb quotable) rows = true ->
  reader_rows fuel (map (fun fs => canonical_line ","%char fs ++ [lf]) rows) = Ok rows.
Proof.
  revert fuel; induction rows as [|fs rows IH]; intros [|fuel] Hn Hok; cbn [length] in Hn; try lia;
    [reflexivity|].
  cbn [forallb] in Hok. apply andb_prop in Hok as [Hfs Hok].
  cbn [reader_rows map]. rewrite read_canonical by exact Hfs. cbn [bind].
  rewrite IH by (auto; lia). reflexivity.
Qed.

(** ** Errors on the lines of a text file *)

(** The states the machine is in inside a line of a text file, where no
    line break has been seen yet: all but [EAT_CRNL]. *)
Definition mid_line (s : ParserState) : bool :=
  match s with EAT_CRNL => false | _ => true end.

(** The states the machine is in between two lines. *)
Definition line_start (s : ParserState) : bool :=
  match s with START_RECORD | IN_QUOTED_FIELD => true | _ => false end.

(** A line of a file read in text mode: characters other than line breaks,
    then a ['\n'] unless it is the last line. *)
Definition text_line (l : pystr) : Prop :=
  exists body (eol : bool), forallb (fun c => negb (is_crlf c)) body = true /\
                            l = body ++ (if eol then [lf] else []).

(** Case analysis on every test of [parse_process_char]. *)
Ltac csv_cases :=
  unfold parse_process_char, start_field, parse_add_char, parse_save_field, set_state;
  cbn [state field fields];
  repeat match goal with |- context [if ?b then _ else _] => destruct b eqn:? end;
  cbn [bind state field fields mid_line line_start].

(** One character that is not a line break: the machine stays inside the
    line and the field grows by at most one, or the field is full. *)
Lemma process_char_plain r c :
  mid_line (state r) = true -> is_crlf c = false ->
  match parse_process_char r (Chr c) with
  | Ok r' => mid_line (state r') = true /\ (length (field r') <= S (length (field r)))%nat
  | Err _ => (field_limit <= length (field r))%nat
  end.
Proof.
  destruct r as [s fd fs]; cbn [state field]; intros Hs Hc.
  destruct s; try discriminate Hs; csv_cases; try congruence;
    rewrite ?length_app; cbn [length]; try apply Nat.leb_le; auto; split; auto; lia.
Qed.

(** A line break, then the end of the line: the machine is between lines. *)
Lemma process_line_end r (eol : bool) :
  mid_line (state r) = true ->
  match parse_chars r (if eol then [lf] else []) with
  | Ok r' =>
      match parse_process_char r' EOL with
      | Ok r'' => line_start (state r'') = true /\
                  (length (field r'') <= length (field r) + (if eol then 1 else 0))%nat
      | Err _ => False
      end
  | Err _ => (field_limit <= length (field r))%nat
  end.
Proof.
  destruct r as [s fd fs]; cbn [state field]; intros Hs.
  destruct eol; cbn [parse_chars]; destruct s; try discriminate Hs; csv_cases; try congruence;
    rewrite ?length_app; cbn [length]; try apply Nat.leb_le; auto; split; auto; lia.
Qed.

Lemma parse_chars_plain r l :
  mid_line (state r) = true -> forallb (fun c => negb (is_crlf c)) l = true ->
  match parse_chars r l with
  | Ok r' => mid_line (state r') = true /\ (length (field r') <= length (field r) + length l)%nat
  | Err _ => (field_limit <= length (field r) + length l)%nat
  end.
Proof.
  revert r; induction l as [|c l IH]; intros r Hs Hl; cbn [parse_chars length].
  - split; [exact Hs | lia].
  - cbn [forallb] in Hl. apply andb_prop in Hl as [Hc Hl]. apply negb_true_iff in Hc.
    pose proof (process_char_plain r c Hs Hc) as Hstep.
    destruct (parse_process_char r (Chr c)) as [r1|e]; cbn [bind]; [|lia].
    destruct Hstep as [Hs1 Hlen1]. specialize (IH r1 Hs1 Hl).
    destruct (parse_chars r1 l); [destruct IH; split; [assumption | lia] | lia].
Qed.

(** A whole text line, started between lines, ends between lines; it
    fails only when the field it ends in reaches the limit. *)
Lemma parse_text_line r l :
  line_start (state r) = true -> text_line l ->
  match parse_line r l with
  | Ok r' => line_start (state r') = true /\ (length (field r') <= length (field r) + length l)%nat
  | Err _ => (field_limit <= length (field r) + length l)%nat
  end.
Proof.
  intros Hs (body & eol & Hb & ->). unfold parse_line. rewrite parse_chars_app.
  assert (Hm : mid_line (state r) = true) by (destruct (state r); easy).
  pose proof (parse_chars_plain r body Hm Hb) as Hbody.
  destruct (parse_chars r body) as [r1|e]; cbn [bind]; rewrite ?length_app; [|lia].
  destruct Hbody as [Hs1 Hlen1]. pose proof (process_line_end r1 eol Hs1) as Hend.
  destruct eol; cbn [parse_chars bind length] in *;
    [destruct (parse_process_char r1 (Chr lf)) as [r2|e]; cbn [bind] in *; [|lia] |];
    match goal with |- context [parse_process_char ?x EOL] => destruct (parse_process_char x EOL) end;
    (destruct Hend; split; [assumption | lia]) || contradiction.
Qed.

Lemma read_record_text r lines :
  line_start (state r) = true -> Forall text_line lines ->
  match read_record r lines with
  | Ok (Some (_, rest)) => exists pre, lines = pre ++ rest
  | Ok None => True
  | Err _ => (field_limit <= length (field r) + length (concat lines))%nat
  end.
Proof.
  revert r; induction lines as [|l lines IH]; intros r Hs Hl; cbn [read_record].
  - destruct (_ || _); [exists []; reflexivity | exact I].
  - inversion Hl as [|? ? Hl1 Hls]; subst.
    pose proof (parse_text_line r l Hs Hl1) as Hline.
    destruct (parse_line r l) as [r1|e]; cbn [bind concat]; [|rewrite length_app; lia].
    destruct Hline as [Hs1 Hlen1].
    destruct (state r1) eqn:Hst; try discriminate Hs1; [exists [l]; reflexivity|].
    specialize (IH r1 ltac:(now rewrite Hst) Hls).
    destruct (read_record r1 lines) as [[[row rest]|]|e]; auto.
    + destruct IH as [pre ->]. exists (l :: pre). reflexivity.
    + rewrite length_app. lia.
Qed.

Lemma reader_rows_text fuel lines :
  Forall text_line lines -> (length (concat lines) < field_limit)%nat ->
  exists rows, reader_rows fuel lines = Ok rows.
Proof.
  revert lines; induction fuel as [|fuel IH]; intros lines Hl Hn; [eexists; reflexivity|].
  cbn [reader_rows]. unfold Reader_iternext.
  pose proof (read_record_text parse_reset lines eq_refl Hl) as Hr.
  destruct (read_record parse_reset lines) as [[[row rest]|]|e]; cbn [bind];
    [| eexists; reflexivity | cbn [parse_reset field length] in Hr; lia].
  destruct Hr as [pre ->]. apply Forall_app in Hl as [_ Hl].
  rewrite concat_app, length_app in Hn.
  destruct (IH rest Hl ltac:(lia)) as [rows ->]. eexists; reflexivity.
Qed.

End Csv.
