(* ===== verification/TextFile.v ===== *)
(** * TextFile: files read in text mode

    [run_conversion] reads its input with [open(filename_in, 'rt')] and
    [readline]/[readlines] (lines 82-90 of [src/mt940convert.py]) and the
    table with [open(filename_conv, 'r')] (line 95): Python's text mode with
    universal newlines, where ['\r\n'] and a lone ['\r'] are read as
    ['\n'] and the text is cut after every ['\n'].  This file models that
    reading on a file's contents ([decode_newlines], [split_lines],
    [text_lines]), modelled from Python's documentation of [io]; the
    theorems: a text of lines without line breaks, each ended by ['\n'] or
    ['\r\n'], is read back as those lines, and the lines of any text hold no
    ['\r'] and a ['\n'] only at their end ([Csv.text_line]). *)

From Stdlib Require Import Ascii String.
From Stdlib Require Import List Lia Bool Arith.
From S2P Require Import Prelude Csv.
Import ListNotations.

Module TextFile.

(** ** Files read in text mode *)

(** Universal newlines: ['\r\n'] and a lone ['\r'] are read as ['\n']. *)
Fixpoint decode_newlines (s : pystr) : pystr :=
  match s with
  | [] => []
  | c :: s' =>
      if Ascii.eqb c cr then
        lf :: match s' with
              | d :: s'' => if Ascii.eqb d lf then decode_newlines s'' else decode_newlines s'
              | [] => []
              end
      else c :: decode_newlines s'
  end.

(** The lines of a text, each with its ['\n'], the last one without it
    when the text does not end with one. *)
Fixpoint split_lines (cur : pystr) (s : pystr) : list pystr :=
  match s with
  | [] => match cur with [] => [] | _ => [cur] end
  | c :: s' =>
      if Ascii.eqb c lf then (cur ++ [lf]) :: split_lines [] s'
      else split_lines (cur ++ [c]) s'
  end.

(** The lines [readline] and [readlines], or iteration, give of a file
    opened in text mode. *)
Definition text_lines (content : pystr) : list pystr :=
  split_lines [] (decode_newlines content).

(** A text made of [lines], each ended by [eol]. *)
Definition table_text (eol : pystr) (lines : list pystr) : pystr :=
  concat (map (fun l => l ++ eol) lines).

(** The line ends of a text file: ['\n'] or ['\r\n']. *)
Definition line_end (eol : pystr) : bool := py_eqb eol [lf] || py_eqb eol crlf.

(** ** Reading a text file *)

Lemma decode_newlines_app a b :
  ~ In cr a -> decode_newlines (a ++ b) = a ++ decode_newlines b.
Proof.
  induction a as [|c a IH]; intros Ha; [reflexivity|]. cbn [app decode_newlines].
  rewrite ascii_eqb_false by (intros ->; apply Ha; now left).
  rewrite IH by (intros H; apply Ha; now right). reflexivity.
Qed.

Lemma decode_newlines_line_end eol b :
  line_end eol = true -> decode_newlines (eol ++ b) = lf :: decode_newlines b.
Proof.
  unfold line_end, py_eqb.
  destruct (list_eq_dec ascii_dec eol [lf]) as [->|_]; [reflexivity|].
  destruct (list_eq_dec ascii_dec eol crlf) as [->|_]; [reflexivity | discriminate].
Qed.

Lemma split_lines_line cur a b :
  ~ In lf a -> split_lines cur (a ++ lf :: b) = (cur ++ a ++ [lf]) :: split_lines [] b.
Proof.
  revert cur; induction a as [|c a IH]; intros cur Ha; cbn [app split_lines].
  - now rewrite Ascii.eqb_refl.
  - rewrite ascii_eqb_false by (intros ->; apply Ha; now left).
    rewrite IH by (intros H; apply Ha; now right). now rewrite <- app_assoc.
Qed.

(** A text of lines without line breaks, read in text mode, gives those
    lines back, each ended by ['\n']. *)
Lemma text_lines_table eol ls :
  line_end eol = true -> Forall (fun l => ~ In cr l /\ ~ In lf l) ls ->
  text_lines (table_text eol ls) = map (fun l => l ++ [lf]) ls.
Proof.
  intros Heol Hls. unfold text_lines, table_text.
  induction Hls as [|l ls [Hcr Hlf] Hls IH]; [reflexivity|].
  cbn [map concat]. rewrite <- app_assoc, decode_newlines_app, decode_newlines_line_end by assumption.
  rewrite split_lines_line by assumption. cbn [app map]. now rewrite IH.
Qed.

(** ** Text files never hold a line break inside a line *)

Lemma lf_neq_cr : lf <> cr.
Proof. intros H. vm_compute in H. discriminate. Qed.

Lemma decode_newlines_spec s :
  ~ In cr (decode_newlines s) /\ (length (decode_newlines s) <= length s)%nat.
Proof.
  induction s as [s IH] using (well_founded_induction (well_founded_ltof _ (@length ascii))).
  unfold ltof in IH.
  destruct s as [|c s']; [cbn; split; [intros [] | lia]|]. cbn [decode_newlines].
  destruct (Ascii.eqb c cr) eqn:Hc.
  - destruct s' as [|d s'']; [cbn; split; [intros [H|[]]; exact (lf_neq_cr H) | lia]|].
    destruct (Ascii.eqb d lf);
      [destruct (IH s'' ltac:(cbn; lia)) as [H1 H2] | destruct (IH (d :: s'') ltac:(cbn; lia)) as [H1 H2]];
      (split; [intros [H|H]; [exact (lf_neq_cr H) | exact (H1 H)] | cbn [length] in *; lia]).
  - destruct (IH s' ltac:(cbn; lia)) as [H1 H2]. apply Ascii.eqb_neq in Hc.
    split; [intros [H|H]; [exact (Hc H) | exact (H1 H)] | cbn [length]; lia].
Qed.

Lemma split_lines_text cur s :
  forallb (fun c => negb (Csv.is_crlf c)) cur = true -> ~ In cr s ->
  Forall Csv.text_line (split_lines cur s) /\ concat (split_lines cur s) = cur ++ s.
Proof.
  revert cur; induction s as [|c s IH]; intros cur Hcur Hs; cbn [split_lines].
  - destruct cur as [|x cur']; [split; [constructor | reflexivity]|].
    split; [constructor; [exists (x :: cur'), false; split; [exact Hcur | now rewrite app_nil_r] | constructor]
           | cbn [concat]; now rewrite !app_nil_r].
  - assert (Hs' : ~ In cr s) by (intros H; apply Hs; now right).
    destruct (Ascii.eqb c lf) eqn:Hc.
    + apply Ascii.eqb_eq in Hc as ->. destruct (IH [] eq_refl Hs') as [H1 H2].
      split; [constructor; [exists cur, true; auto | exact H1] | cbn [concat]; rewrite H2; now rewrite <- app_assoc].
    + assert (Hcr : Ascii.eqb c cr = false) by (apply ascii_eqb_false; intros ->; apply Hs; now left).
      destruct (IH (cur ++ [c])) as [H1 H2];
        [rewrite forallb_app, Hcur; cbn; unfold Csv.is_crlf; now rewrite Hc, Hcr | exact Hs' |].
      split; [exact H1 | rewrite H2; now rewrite <- app_assoc].
Qed.

Lemma text_lines_text content :
  Forall Csv.text_line (text_lines content) /\ (length (concat (text_lines content)) <= length content)%nat.
Proof.
  unfold text_lines. destruct (decode_newlines_spec content) as [Hcr Hlen].
  destruct (split_lines_text [] (decode_newlines content) eq_refl Hcr) as [H1 H2].
  split; [exact H1 | rewrite H2; exact Hlen].
Qed.

Lemma replace_from_cons old new c s :
  replace_from old new 0 (c :: s) =
  if prefixb old (c :: s) then new ++ replace_from old new (pred (length old)) s
  else c :: replace_from old new 0 s.
Proof. reflexivity. Qed.

(** Universal newlines as the documentation of [io] states them: ['\r\n']
    replaced by ['\n'], then every remaining ['\r']. *)
Lemma decode_newlines_replace s :
  decode_newlines s = py_replace cr [lf] (py_str_replace crlf [lf] s).
Proof.
  unfold py_str_replace, crlf.
  induction s as [s IH] using (well_founded_induction (well_founded_ltof _ (@length ascii))).
  unfold ltof in IH. destruct s as [|c s']; [reflexivity|].
  cbn [decode_newlines]. rewrite replace_from_cons.
  destruct (Ascii.eqb c cr) eqn:Hc.
  - apply Ascii.eqb_eq in Hc as ->. destruct s' as [|d s'']; [reflexivity|].
    cbn [prefixb]. rewrite Ascii.eqb_refl. cbn [andb].
    destruct (Ascii.eqb lf d) eqn:Hd.
    + apply Ascii.eqb_eq in Hd as <-. rewrite Ascii.eqb_refl.
      cbn [andb app length pred replace_from py_replace].
      rewrite (ascii_eqb_false lf cr lf_neq_cr), IH by (cbn; lia). reflexivity.
    + rewrite Ascii.eqb_sym, Hd. cbn [andb py_replace app]. rewrite Ascii.eqb_refl, IH by (cbn; lia).
      reflexivity.
  - cbn [prefixb]. rewrite Ascii.eqb_sym, Hc.
    cbn [andb py_replace app]. rewrite Hc, IH by (cbn; lia). reflexivity.
Qed.


End TextFile.
