(* ===== verification/Convert.v ===== *)
(** * Convert: [run_conversion] composed as the code composes it

    [run_conversion] (lines 62-127 of [src/mt940convert.py]) checks the
    opening date, reads the header line of the input file, repairs the
    file when its header is not canonical, then reads the repaired or the
    original file with [csv.reader] and transcodes its rows.  Here the
    input is its contents, read in text mode ([TextFile.text_lines]); the
    result is the document and the contents of the repaired file, if one
    is written ([Main] adds the files and their names).

    The transcoder pulls records from the reader one at a time (lines
    97-102), so a reader error after a bad row is never raised.  The
    contract between the two is the class [RecordReader] with its laws
    [RecordReaderLaws]; the loop [read_statement] and its refinement
    theorem are proved against the class, and the instance [csv_reader]
    discharges the laws with the theorems of [Csv].  The end-to-end
    theorems: a table quoted with a non-canonical profile converts to the
    statement of its canonical table, and its repaired file converts to the
    same statement without a second repair; such an export whose rows
    convert gets its document; [csv.reader] never fails on a text file
    shorter than its field size limit. *)

From Stdlib Require Import Ascii String.
From Stdlib Require Import List ZArith Lia Bool.
From S2P Require Import Prelude QuoteRepair PyFloat Transcoder Csv TextFile.
Import ListNotations QuoteRepair PyFloat Transcoder TextFile.
Local Open Scope Z_scope.

Module Convert.

(** ** The reader the transcoder pulls rows from *)

(** [next(reader)] on the lines not yet read: the next record and the
    lines after it, or [None] at the end. *)
Class RecordReader := {
  next_record : list pystr -> result (option (list pystr * list pystr))
}.

(** What the conversion relies on: a record consumes at least one line, the
    end of the input gives no record, and a canonical line with admissible
    fields is read as its fields. *)
Class RecordReaderLaws (R : RecordReader) := {
  admissible : pystr -> bool;
  next_record_shorter : forall lines row rest,
    next_record lines = Ok (Some (row, rest)) -> (length rest < length lines)%nat;
  next_record_end : next_record [] = Ok None;
  next_record_canonical : forall fs rest,
    forallb admissible fs = true ->
    next_record ((canonical_line ","%char fs ++ [lf]) :: rest) = Ok (Some (fs, rest))
}.

Section WithReader.
Context `{R : RecordReader}.

(** [list(reader)], with fuel. *)
Fixpoint records (fuel : nat) (lines : list pystr) : result (list (list pystr)) :=
  match fuel with
  | O => Ok []
  | S fuel' =>
      next <- next_record lines ;;
      match next with
      | None => Ok []
      | Some (row, rest) => rows <- records fuel' rest ;; Ok (row :: rows)
      end
  end.

(** Lines 102-115: [for row in reader], each record transcoded as soon
    as it is read; one step per line is enough fuel. *)
Fixpoint transcode_loop (fuel : nat) (st : state) (lines : list pystr) : result state :=
  match fuel with
  | O => Ok st
  | S fuel' =>
      next <- next_record lines ;;
      match next with
      | None => Ok st
      | Some (row, rest) => st' <- process_row st row ;; transcode_loop fuel' st' rest
      end
  end.

(** Lines 95-122: the header row taken by [for row in reader: break], the
    rows transcoded, the closing record.  After the end of the input the
    reader yields nothing more. *)
Definition read_statement (header : pystr) (lines : list pystr) : result pystr :=
  first <- next_record lines ;;
  let rest := match first with None => [] | Some (_, rest) => rest end in
  st <- transcode_loop (S (length rest)) (mk_state header 0 None) rest ;;
  close_statement st.

(** Lines 87, 93 and 95: the file the reader reads, the repaired one
    ([filename_conv], written with ['\r\n'] line ends) or the input. *)
Definition conv_lines (content : pystr) (repaired : option (list pystr)) : list pystr :=
  match repaired with
  | Some written => text_lines (concat written)
  | None => text_lines content
  end.

(** Lines 62-122.  [content] is the input file; the result is the
    document and the contents of the [_repaired.csv] file when the repair
    is triggered. *)
Definition run_conversion (content reknr firstdate : pystr) : result (pystr * option pystr) :=
  if negb (py_len firstdate =? 6) then Err ValueError
  else
    let header := header_mt940 reknr firstdate in
    let lines := text_lines content in
    repaired <- repair_lines lines ;;
    doc <- read_statement header (conv_lines content repaired) ;;
    Ok (doc, option_map (@concat ascii) repaired).

End WithReader.

(** ** The instance: [csv.reader] *)

#[export] Instance csv_reader : RecordReader := {| next_record := Csv.Reader_iternext |}.

#[export] Instance csv_reader_laws : RecordReaderLaws csv_reader := {|
  admissible := Csv.quotable;
  next_record_shorter := Csv.Reader_iternext_shorter;
  next_record_end := eq_refl;
  next_record_canonical := Csv.read_canonical
|}.

(** ** The loop against the reader's contract *)

Section Refinement.
Context {R : RecordReader} {RL : RecordReaderLaws R}.

Lemma records_fuel_eq fuel fuel' lines :
  (length lines < fuel)%nat -> (length lines < fuel')%nat ->
  records fuel lines = records fuel' lines.
Proof.
  revert fuel' lines; induction fuel as [|fuel IH]; intros [|fuel'] lines H H'; try lia.
  cbn [records]. destruct (next_record lines) as [[[row rest]|]|e] eqn:Hn; cbn [bind]; try reflexivity.
  apply next_record_shorter in Hn. rewrite (IH fuel') by lia. reflexivity.
Qed.

(** Pulling the records one by one and transcoding each gives what
    transcoding the list of all records gives, when reading succeeds. *)
Lemma transcode_loop_records fuel st lines rows :
  records fuel lines = Ok rows -> (length lines < fuel)%nat ->
  transcode_loop fuel st lines = process_rows st rows.
Proof.
  revert st lines rows; induction fuel as [|fuel IH]; intros st lines rows Hr Hn; [lia|].
  cbn [records transcode_loop] in *.
  destruct (next_record lines) as [[[row rest]|]|e] eqn:Hnext; cbn [bind] in *; [|now injection Hr as <- | discriminate].
  destruct (records fuel rest) as [rows'|e] eqn:Hrest; cbn [bind] in Hr; [|discriminate].
  injection Hr as <-. cbn [process_rows]. destruct (process_row st row); cbn [bind]; [|reflexivity].
  apply IH; [exact Hrest | apply next_record_shorter in Hnext; lia].
Qed.

(** When reading fails the loop fails too, with the reader's error or
    with that of an earlier row. *)
Lemma transcode_loop_records_Err fuel st lines e :
  records fuel lines = Err e -> exists e', transcode_loop fuel st lines = Err e'.
Proof.
  revert st lines; induction fuel as [|fuel IH]; intros st lines Hr; [discriminate|].
  cbn [records transcode_loop] in *.
  destruct (next_record lines) as [[[row rest]|]|e0] eqn:Hnext; cbn [bind] in *; [| discriminate | eauto].
  destruct (records fuel rest) as [rows'|e1] eqn:Hrest; cbn [bind] in Hr; [discriminate|].
  injection Hr as ->. destruct (process_row st row); cbn [bind]; eauto.
Qed.

Lemma read_statement_records header lines rows :
  records (S (length lines)) lines = Ok rows ->
  read_statement header lines = statement header rows.
Proof.
  intros Hr. unfold read_statement, statement. cbn [records] in Hr.
  destruct (next_record lines) as [[[row rest]|]|e] eqn:Hnext; cbn [bind] in *; [| | discriminate].
  - destruct (records (length lines) rest) as [rows'|e] eqn:Hrest; cbn [bind] in Hr; [|discriminate].
    injection Hr as <-. cbn [tl]. apply next_record_shorter in Hnext.
    rewrite (transcode_loop_records _ _ _ rows'); [reflexivity| |lia].
    rewrite <- Hrest. apply records_fuel_eq; lia.
  - injection Hr as <-. cbn [tl transcode_loop length]. rewrite next_record_end. reflexivity.
Qed.

Lemma read_statement_records_Err header lines e :
  records (S (length lines)) lines = Err e -> exists e', read_statement header lines = Err e'.
Proof.
  intros Hr. unfold read_statement. cbn [records] in Hr.
  destruct (next_record lines) as [[[row rest]|]|e0] eqn:Hnext; cbn [bind] in *; [| discriminate | eauto].
  destruct (records (length lines) rest) as [rows'|e1] eqn:Hrest; cbn [bind] in Hr; [discriminate|].
  apply next_record_shorter in Hnext.
  destruct (transcode_loop_records_Err (S (length rest)) (mk_state header 0 None) rest e1) as [e' He'].
  - rewrite <- Hrest. apply records_fuel_eq; lia.
  - rewrite He'. cbn [bind]. eauto.
Qed.

Lemma records_canonical fuel rows :
  (length rows < fuel)%nat -> forallb (forallb admissible) rows = true ->
  records fuel (map (fun fs => canonical_line ","%char fs ++ [lf]) rows) = Ok rows.
Proof.
  revert fuel; induction rows as [|fs rows IH]; intros [|fuel] Hn Hok; cbn [length] in Hn; try lia.
  - cbn [records map]. now rewrite next_record_end.
  - cbn [forallb] in Hok. apply andb_prop in Hok as [Hfs Hok].
    cbn [records map]. rewrite next_record_canonical by exact Hfs. cbn [bind].
    rewrite IH by (auto; lia). reflexivity.
Qed.

End Refinement.

(** The characters of an encoded or canonical line: separators, quotes,
    and those of its fields. *)
Lemma In_encode_line c sep fs prof :
  In c (encode_line sep fs prof) -> c = sep \/ c = dq \/ exists f, In f fs /\ In c f.
Proof.
  unfold encode_line. intros [->|(x & Hx & Hc)]%In_py_join; [now left|right].
  apply in_map_iff in Hx as ([f [l r]] & <- & Hin). apply in_combine_l in Hin.
  unfold encode_field in Hc. cbn [fst snd] in Hc.
  apply in_app_or in Hc as [Hc|[Hc|Hc]%in_app_or]; [| right; eauto |];
    left; eapply repeat_spec; eassumption.
Qed.

Lemma In_canonical_line c sep fs :
  In c (canonical_line sep fs) -> c = sep \/ c = dq \/ exists f, In f fs /\ In c f.
Proof.
  unfold canonical_line. intros [->|(x & Hx & Hc)]%In_py_join; [now left|right].
  apply in_map_iff in Hx as (f & <- & Hin). unfold wrap in Hc.
  apply in_app_or in Hc as [[Hc|[]]|[Hc|[Hc|[]]]%in_app_or]; [now left | right; eauto | now left].
Qed.

(** The fields of a row hold no line break. *)
Definition no_breaks (fs : list pystr) : bool :=
  forallb (fun f => negb (mem cr f) && negb (mem lf f)) fs.

Lemma no_breaks_In fs f c : no_breaks fs = true -> In f fs -> c = cr \/ c = lf -> ~ In c f.
Proof.
  unfold no_breaks. rewrite forallb_forall. intros H Hf Hc Hin.
  specialize (H f Hf). apply andb_prop in H as [H1 H2]. apply negb_true_iff in H1, H2.
  destruct Hc as [->| ->]; [apply (mem_false _ _ H1) | apply (mem_false _ _ H2)]; exact Hin.
Qed.

Lemma line_no_breaks (mk : list pystr -> pystr) (rows : list (list pystr)) :
  (forall c fs, In c (mk fs) -> c = ","%char \/ c = dq \/ exists f, In f fs /\ In c f) ->
  forallb no_breaks rows = true ->
  Forall (fun l => ~ In cr l /\ ~ In lf l) (map mk rows).
Proof.
  intros Hmk Hrows. apply Forall_map, Forall_forall. intros fs Hfs.
  rewrite forallb_forall in Hrows. specialize (Hrows fs Hfs).
  split; intros Hin; apply Hmk in Hin as [Hc|[Hc|(f & Hf & Hc)]];
    try (vm_compute in Hc; discriminate);
    first [exact (no_breaks_In fs f cr Hrows Hf (or_introl eq_refl) Hc)
          | exact (no_breaks_In fs f lf Hrows Hf (or_intror eq_refl) Hc)].
Qed.

Lemma text_lines_encoded eol L R rows :
  line_end eol = true -> forallb no_breaks rows = true ->
  text_lines (table_text eol (map (fun fs => encode_line ","%char fs (combine L R)) rows)) =
  map (fun fs => encode_line ","%char fs (combine L R) ++ [lf]) rows.
Proof.
  intros Heol Hb. rewrite text_lines_table, map_map; [reflexivity | assumption |].
  apply line_no_breaks; [intros; eapply In_encode_line; eassumption | exact Hb].
Qed.

(** ** The conversion against the reader's contract *)

Section EndToEnd.
Context {Rd : RecordReader} {RL : RecordReaderLaws Rd}.

Lemma run_conversion_records content reknr firstdate rep rows :
  repair_lines (text_lines content) = Ok rep ->
  records (S (length (conv_lines content rep))) (conv_lines content rep) = Ok rows ->
  run_conversion content reknr firstdate =
  fmap (fun doc => (doc, option_map (@concat ascii) rep)) (convert_rows rows reknr firstdate).
Proof.
  intros Hrep Hrec. unfold run_conversion, convert_rows.
  destruct (negb (py_len firstdate =? 6)); [reflexivity|].
  rewrite Hrep. cbn [bind]. rewrite (read_statement_records _ _ rows Hrec).
  destruct (statement _ rows); reflexivity.
Qed.

Lemma text_lines_canonical eol rows :
  line_end eol = true -> forallb no_breaks rows = true ->
  text_lines (table_text eol (map (canonical_line ","%char) rows)) =
  map (fun fs => canonical_line ","%char fs ++ [lf]) rows.
Proof.
  intros Heol Hb. rewrite text_lines_table, map_map by (auto using line_no_breaks, In_canonical_line).
  reflexivity.
Qed.

Lemma records_table eol rows :
  line_end eol = true -> forallb no_breaks rows = true -> forallb (forallb admissible) rows = true ->
  records (S (length (text_lines (table_text eol (map (canonical_line ","%char) rows)))))
          (text_lines (table_text eol (map (canonical_line ","%char) rows))) = Ok rows.
Proof.
  intros Heol Hb Ha. rewrite text_lines_canonical by assumption.
  apply records_canonical; [rewrite length_map; lia | exact Ha].
Qed.

Lemma repaired_text hs rows :
  concat (map (fun fs => canonical_line ","%char fs ++ crlf) (hs :: rows)) =
  table_text crlf (map (canonical_line ","%char) (hs :: rows)).
Proof. unfold table_text. now rewrite map_map. Qed.

Lemma run_conversion_encoded_ok hs L R rows eol reknr firstdate :
  length L = length hs -> length R = length hs -> (0 < length hs)%nat ->
  forallb (header_ok ","%char) hs = true ->
  forallb (row_ok L R) (hs :: rows) = true ->
  tail_ok ","%char (last (combine L R) (0, 0)%nat) [] = true ->
  needs_repair L R = true ->
  forallb no_breaks (hs :: rows) = true -> forallb (forallb admissible) (hs :: rows) = true ->
  line_end eol = true ->
  run_conversion (table_text eol (map (fun fs => encode_line ","%char fs (combine L R)) (hs :: rows)))
                 reknr firstdate =
  fmap (fun doc => (doc, Some (table_text crlf (map (canonical_line ","%char) (hs :: rows)))))
       (convert_rows (hs :: rows) reknr firstdate).
Proof.
  intros HL HR Hn Hh Hrows Htail Hneed Hb Ha Heol.
  rewrite <- repaired_text.
  apply (run_conversion_records _ _ _ (Some (map (fun fs => canonical_line ","%char fs ++ crlf) (hs :: rows)))).
  - rewrite text_lines_encoded by assumption. now apply repair_lines_encoded_ok.
  - cbn [conv_lines]. rewrite repaired_text. apply records_table; auto.
Qed.

Lemma run_conversion_canonical_ok hs rows eol reknr firstdate :
  (0 < length hs)%nat -> forallb (header_ok ","%char) hs = true ->
  forallb no_breaks (hs :: rows) = true -> forallb (forallb admissible) (hs :: rows) = true ->
  line_end eol = true ->
  run_conversion (table_text eol (map (canonical_line ","%char) (hs :: rows))) reknr firstdate =
  fmap (fun doc => (doc, None)) (convert_rows (hs :: rows) reknr firstdate).
Proof.
  intros Hn Hh Hb Ha Heol. apply (run_conversion_records _ _ _ None).
  - rewrite text_lines_canonical by assumption. now apply repair_lines_canonical_ok.
  - apply records_table; assumption.
Qed.

End EndToEnd.

(** ** The document only grows *)

Section Prefix.
Context {Rd : RecordReader}.

Lemma process_row_doc st r st' : process_row st r = Ok st' -> exists g, doc st' = doc st ++ g.
Proof.
  rewrite process_row_step. destruct (unpack_row r) as [x|e]; cbn [bind]; [|discriminate].
  destruct (amount_cents (amount x)); cbn [bind]; [|discriminate].
  intros H. injection H as <-. eexists; reflexivity.
Qed.

Lemma transcode_loop_doc fuel st lines st' :
  transcode_loop fuel st lines = Ok st' -> exists g, doc st' = doc st ++ g.
Proof.
  revert st lines; induction fuel as [|fuel IH]; intros st lines H; cbn [transcode_loop] in H.
  - injection H as <-. exists []. now rewrite app_nil_r.
  - destruct (next_record lines) as [[[row rest]|]|e]; cbn [bind] in H; [| injection H as <-; exists []; now rewrite app_nil_r | discriminate].
    destruct (process_row st row) as [st1|e] eqn:Hp; cbn [bind] in H; [|discriminate].
    destruct (process_row_doc _ _ _ Hp) as [g1 Hg1]. destruct (IH _ _ H) as [g2 Hg2].
    exists (g1 ++ g2). rewrite Hg2, Hg1. now rewrite app_assoc.
Qed.

(** The document the conversion writes starts with the header block. *)
Lemma read_statement_prefix header lines out :
  read_statement header lines = Ok out -> exists rest, out = header ++ rest.
Proof.
  unfold read_statement. destruct (next_record lines) as [first|e]; cbn [bind]; [|discriminate].
  match goal with |- context [transcode_loop ?f ?s ?l] => destruct (transcode_loop f s l) as [st|e] eqn:Ht end;
    cbn [bind]; [|discriminate].
  destruct (transcode_loop_doc _ _ _ _ Ht) as [g Hg]. cbn [doc] in Hg.
  unfold close_statement. destruct (saldo_str (saldo st)); cbn [bind]; [|discriminate].
  destruct (last_date st); [|discriminate]. intros H. injection H as <-.
  rewrite Hg. eexists. now rewrite <- !app_assoc.
Qed.

End Prefix.

(** ** Reading with [csv.reader] *)

Lemma records_reader_rows fuel lines : records fuel lines = Csv.reader_rows fuel lines.
Proof.
  revert lines; induction fuel as [|fuel IH]; intros lines; [reflexivity|].
  cbn [records Csv.reader_rows next_record csv_reader].
  destruct (Csv.Reader_iternext lines) as [[[row rest]|]|e]; cbn [bind]; rewrite ?IH; reflexivity.
Qed.

(** ** Exports quoted with one profile *)

(** An export whose header [hs] and rows are quoted with the profile
    [L], [R], not all ones: every line recoverable by [fix_quotes], no line
    break in a field, every field readable back by [csv.reader]. *)
Definition encoded_export (hs : list pystr) (L R : list nat) (rows : list (list pystr)) : bool :=
  Nat.eqb (length L) (length hs) && Nat.eqb (length R) (length hs) && Nat.ltb 0 (length hs) &&
  forallb (header_ok ","%char) hs && forallb (row_ok L R) (hs :: rows) &&
  tail_ok ","%char (last (combine L R) (0, 0)%nat) [] && needs_repair L R &&
  forallb no_breaks (hs :: rows) && forallb (forallb Csv.quotable) (hs :: rows).

Lemma encoded_export_spec hs L R rows :
  encoded_export hs L R rows = true ->
  length L = length hs /\ length R = length hs /\ (0 < length hs)%nat /\
  forallb (header_ok ","%char) hs = true /\ forallb (row_ok L R) (hs :: rows) = true /\
  tail_ok ","%char (last (combine L R) (0, 0)%nat) [] = true /\ needs_repair L R = true /\
  forallb no_breaks (hs :: rows) = true /\ forallb (forallb Csv.quotable) (hs :: rows) = true.
Proof.
  unfold encoded_export. intros H. repeat (apply andb_prop in H as [H ?]).
  apply Nat.eqb_eq in H. repeat match goal with Hb : Nat.eqb _ _ = true |- _ => apply Nat.eqb_eq in Hb end.
  repeat match goal with Hb : Nat.ltb _ _ = true |- _ => apply Nat.ltb_lt in Hb end. tauto.
Qed.

Lemma run_conversion_export hs L R rows eol reknr firstdate :
  encoded_export hs L R rows = true -> line_end eol = true ->
  run_conversion (table_text eol (map (fun fs => encode_line ","%char fs (combine L R)) (hs :: rows)))
                 reknr firstdate =
  fmap (fun doc => (doc, Some (table_text crlf (map (canonical_line ","%char) (hs :: rows)))))
       (convert_rows (hs :: rows) reknr firstdate).
Proof.
  intros Hx Heol. destruct (encoded_export_spec hs L R rows Hx) as (HL & HR & Hn & Hh & Hrows & Htail & Hneed & Hb & Ha).
  now apply run_conversion_encoded_ok.
Qed.

(** ** Properties *)

(** C3: Converting an export whose header and rows are quoted with one
    profile that is not all ones (the ING export of lines 78-81) writes
    the canonical table with ['\r\n'] line ends as the repaired file and
    gives the statement of the canonical table's rows: the repair is
    transparent to the transcoder. *)
Theorem run_conversion_encoded hs L R rows eol reknr firstdate :
  encoded_export hs L R rows = true -> line_end eol = true ->
  run_conversion (table_text eol (map (fun fs => encode_line ","%char fs (combine L R)) (hs :: rows)))
                 reknr firstdate =
  fmap (fun doc => (doc, Some (table_text crlf (map (canonical_line ","%char) (hs :: rows)))))
       (convert_rows (hs :: rows) reknr firstdate).
Proof. exact (run_conversion_export hs L R rows eol reknr firstdate). Qed.

(** C19: The conversion of an export produces its output: with a
    six-character opening date, at least one data row, every row of nine
    fields with an amount [float()] reads, and a balance [float()] can
    represent, [run_conversion] returns a document and the repaired file
    instead of raising. *)
Theorem run_conversion_produces hs L R rows eol reknr firstdate ds :
  encoded_export hs L R rows = true -> line_end eol = true ->
  py_len firstdate = 6 -> rows <> [] -> mapM row_delta rows = Ok ds -> Z.abs (sumZ ds) < 2 ^ 1023 ->
  exists doc,
    run_conversion (table_text eol (map (fun fs => encode_line ","%char fs (combine L R)) (hs :: rows)))
                   reknr firstdate =
    Ok (doc, Some (table_text crlf (map (canonical_line ","%char) (hs :: rows)))).
Proof.
  intros Hx Heol Hd Hne Hds Hb. rewrite run_conversion_export by assumption.
  unfold convert_rows. rewrite Hd. cbn [Z.eqb negb Pos.eqb].
  destruct (statement_Ok (header_mt940 reknr firstdate) (hs :: rows) ds Hne Hds Hb) as [out ->].
  eexists; reflexivity.
Qed.

(** C6: A table whose header is canonical passes through unchanged: no
    repaired file is written and the statement is that of its rows. *)
Theorem run_conversion_canonical hs rows eol reknr firstdate :
  (0 < length hs)%nat -> forallb (header_ok ","%char) hs = true ->
  forallb no_breaks (hs :: rows) = true -> forallb (forallb Csv.quotable) (hs :: rows) = true ->
  line_end eol = true ->
  run_conversion (table_text eol (map (canonical_line ","%char) (hs :: rows))) reknr firstdate =
  fmap (fun doc => (doc, None)) (convert_rows (hs :: rows) reknr firstdate).
Proof. exact (run_conversion_canonical_ok hs rows eol reknr firstdate). Qed.

(** C20: Converting the repaired file of an export gives the same
    statement and triggers no second repair. *)
Theorem run_conversion_repaired_file hs L R rows eol reknr firstdate doc rep :
  encoded_export hs L R rows = true -> line_end eol = true ->
  run_conversion (table_text eol (map (fun fs => encode_line ","%char fs (combine L R)) (hs :: rows)))
                 reknr firstdate = Ok (doc, Some rep) ->
  run_conversion rep reknr firstdate = Ok (doc, None).
Proof.
  intros Hx Heol Hrun. rewrite run_conversion_export in Hrun by assumption.
  destruct (encoded_export_spec hs L R rows Hx) as (HL & HR & Hn & Hh & Hrows & Htail & Hneed & Hb & Ha).
  destruct (convert_rows (hs :: rows) reknr firstdate) as [d|e] eqn:Hconv; cbn [fmap] in Hrun; [|discriminate].
  injection Hrun as <- <-.
  transitivity (fmap (fun doc : pystr => (doc, @None pystr)) (convert_rows (hs :: rows) reknr firstdate)).
  - apply run_conversion_canonical_ok; auto.
  - now rewrite Hconv.
Qed.

(** C21: The repaired file, read back by [csv.reader], gives the header
    and the rows of the export, each as wide as the header. *)
Theorem repaired_file_rows hs L R rows eol written :
  encoded_export hs L R rows = true -> line_end eol = true ->
  repair_lines (text_lines (table_text eol (map (fun fs => encode_line ","%char fs (combine L R)) (hs :: rows)))) =
  Ok (Some written) ->
  Csv.csv_rows (text_lines (concat written)) = Ok (hs :: rows) /\
  Forall (fun r => length r = length hs) (hs :: rows).
Proof.
  intros Hx Heol Hrep.
  destruct (encoded_export_spec hs L R rows Hx) as (HL & HR & Hn & Hh & Hrows & Htail & Hneed & Hb & Ha). split.
  - assert (Hw : Ok (Some (map (fun fs => canonical_line ","%char fs ++ crlf) (hs :: rows))) =
                 Ok (Some written)).
    { rewrite <- Hrep, text_lines_encoded by assumption. symmetry.
      exact (repair_lines_encoded_ok hs L R rows HL HR Hn Hh Hrows Htail Hneed). }
    injection Hw as <-. unfold Csv.csv_rows. rewrite <- records_reader_rows.
    pose proof (records_table crlf (hs :: rows) eq_refl Hb Ha) as Ht.
    rewrite <- repaired_text in Ht. exact Ht.
  - apply Forall_forall. intros r Hr. rewrite forallb_forall in Hrows.
    specialize (Hrows r Hr). unfold row_ok in Hrows.
    apply andb_prop in Hrows as [Hrows _]. apply andb_prop in Hrows as [Hrows _].
    apply Nat.eqb_eq in Hrows. lia.
Qed.

(** C8: The loop that pulls each record from [csv.reader] and transcodes
    it at once computes the statement of the list of all the records, when
    reading succeeds. *)
Theorem read_statement_csv header lines rows :
  Csv.csv_rows lines = Ok rows -> read_statement header lines = statement header rows.
Proof.
  intros H. apply read_statement_records. rewrite records_reader_rows. exact H.
Qed.

(** When [csv.reader] fails on the file no statement is produced:
    the error of the reader, or of an earlier row, is raised. *)
Lemma read_statement_csv_error header lines e :
  Csv.csv_rows lines = Err e -> exists e', read_statement header lines = Err e'.
Proof.
  intros H. apply (read_statement_records_Err _ _ e). rewrite records_reader_rows. exact H.
Qed.

(** C7: [csv.reader] reads a canonical line (each field in one pair of
    quotes, none holding a quote) back as its fields and leaves the lines
    after it, when no field is longer than the field size limit; otherwise
    it raises [csv.Error]. *)
Theorem csv_reader_canonical_line fs rest :
  forallb (fun f : pystr => negb (mem Csv.quotechar f)) fs = true ->
  @next_record csv_reader ((canonical_line ","%char fs ++ [lf]) :: rest) =
  if forallb (fun f : pystr => Nat.leb (length f) Csv.field_limit) fs
  then Ok (Some (fs, rest)) else Err CsvError.
Proof. exact (Csv.read_canonical_line_iff fs rest). Qed.

(** Iterating [csv.reader] to the end takes at most one step more
    than there are lines: any larger fuel gives the same records, so the
    iteration never stops for lack of fuel. *)
Theorem records_csv_fuel fuel lines :
  (length lines < fuel)%nat -> records fuel lines = records (S (length lines)) lines.
Proof. intros H. apply records_fuel_eq; [exact H | lia]. Qed.

(** Rows are transcoded as they are read: when a row's amount does
    not convert and a later line is malformed for [csv.reader], the
    conversion raises the row's [ValueError], where reading all the
    records first would raise [csv.Error]. *)
Example read_statement_row_error_first :
  Csv.csv_rows
    [canonical_line ","%char example_header_row ++ [lf];
     canonical_line ","%char (example_row "Bij" "abc" "x") ++ [lf];
     str "a" ++ [cr] ++ str "b" ++ [lf]] = Err CsvError /\
  read_statement (str "H")
    [canonical_line ","%char example_header_row ++ [lf];
     canonical_line ","%char (example_row "Bij" "abc" "x") ++ [lf];
     str "a" ++ [cr] ++ str "b" ++ [lf]] = Err ValueError.
Proof. split; vm_compute; reflexivity. Qed.

(** C18: Reading a file opened in text mode, [csv.reader] fails only on a
    field longer than its size limit: a file shorter than the limit is
    always read, and the error for a line break inside an unquoted field
    ('new-line character seen in unquoted field') cannot occur, since
    universal newlines leave no ['\r'] and end every line at its ['\n']. *)
Theorem csv_text_file_safe content fuel :
  (length content < Csv.field_limit)%nat -> exists rows, records fuel (text_lines content) = Ok rows.
Proof.
  intros Hn. destruct (text_lines_text content) as [Hl Hlen].
  rewrite records_reader_rows. apply Csv.reader_rows_text; [exact Hl | lia].
Qed.

(** ** Witnesses, on the ING export of lines 78-81 *)

Definition ing_text : pystr :=
  table_text crlf (map (fun fs => encode_line ","%char fs (combine ing_left ing_right)) [ing_fields; ing_row]).

Definition ing_run : result (pystr * option pystr) :=
  run_conversion ing_text (str "NL01INGB") (str "161231").

Definition ing_doc : pystr := match ing_run with Ok (d, _) => d | Err _ => [] end.
Definition ing_repaired : pystr := match ing_run with Ok (_, Some r) => r | _ => [] end.
Definition ing_written : list pystr :=
  match repair_lines (text_lines ing_text) with Ok (Some w) => w | _ => [] end.

Lemma run_conversion_encoded_witness :
  run_conversion ing_text (str "NL01INGB") (str "161231") =
  fmap (fun doc => (doc, Some (table_text crlf (map (canonical_line ","%char) [ing_fields; ing_row]))))
       (convert_rows [ing_fields; ing_row] (str "NL01INGB") (str "161231")).
Proof. apply run_conversion_encoded; vm_compute; first [reflexivity | lia]. Defined.

Lemma run_conversion_canonical_witness :
  run_conversion (table_text [lf] (map (canonical_line ","%char) [ing_fields; ing_row])) (str "NL01INGB") (str "161231") =
  fmap (fun doc => (doc, None)) (convert_rows [ing_fields; ing_row] (str "NL01INGB") (str "161231")).
Proof. apply run_conversion_canonical; vm_compute; first [reflexivity | lia]. Defined.

Lemma run_conversion_repaired_file_witness :
  run_conversion ing_repaired (str "NL01INGB") (str "161231") = Ok (ing_doc, None).
Proof.
  apply (run_conversion_repaired_file ing_fields ing_left ing_right [ing_row] crlf);
    vm_compute; first [reflexivity | lia].
Defined.

Lemma repaired_file_rows_witness :
  Csv.csv_rows (text_lines (concat ing_written)) = Ok [ing_fields; ing_row] /\
  Forall (fun r => length r = length ing_fields) [ing_fields; ing_row].
Proof.
  apply (repaired_file_rows ing_fields ing_left ing_right [ing_row] crlf);
    vm_compute; first [reflexivity | lia].
Defined.

Lemma read_statement_csv_witness :
  read_statement (str "H") (text_lines ing_repaired) = statement (str "H") [ing_fields; ing_row].
Proof. apply read_statement_csv. vm_compute. reflexivity. Defined.

Lemma csv_reader_canonical_line_witness :
  forallb (fun f : pystr => negb (mem Csv.quotechar f)) ing_fields = true /\
  next_record ((canonical_line ","%char ing_fields ++ [lf]) :: []) = Ok (Some (ing_fields, [])).
Proof.
  split; [vm_compute; reflexivity|].
  rewrite (csv_reader_canonical_line ing_fields []) by (vm_compute; reflexivity). vm_compute. reflexivity.
Defined.

Lemma records_csv_fuel_witness :
  records 5 [str "a,b"; str "c"] = records 3 [str "a,b"; str "c"].
Proof. apply (records_csv_fuel 5 [str "a,b"; str "c"]). cbn [length]. lia. Defined.

Lemma csv_text_file_safe_witness :
  exists rows, records 4 (text_lines (str "a,b" ++ [cr] ++ str "c" ++ [cr; lf; dq] ++ str "x" ++ [lf; dq])) = Ok rows.
Proof. apply csv_text_file_safe. apply Nat.ltb_lt. vm_compute. reflexivity. Defined.

Lemma run_conversion_produces_witness :
  exists doc, run_conversion ing_text (str "NL01INGB") (str "161231") =
              Ok (doc, Some (table_text crlf (map (canonical_line ","%char) [ing_fields; ing_row]))).
Proof.
  apply (run_conversion_produces ing_fields ing_left ing_right [ing_row] crlf _ _ [-1050]);
    first [discriminate | vm_compute; reflexivity].
Defined.

End Convert.
