(* ===== verification/Main.v ===== *)
(** * Main: the files of [run_conversion] and the command line

    [run_conversion] (lines 62-127 of [src/mt940convert.py]) derives the
    name of the output file from the input's ([filename_in.replace('.csv',
    '.ing')], line 63) and of the repaired file ([filename_in.replace(
    '.csv', '_repaired.csv')], line 87), reads the input (line 82), writes
    the repaired file when the repair is triggered (lines 88-91), reads
    the repaired file or the input again (line 95), and writes the
    document (lines 124-125); the entry point (lines 130-133) passes the
    command line's options to it and prints the output's name.

    The files are an explicit state, [fsys]: a list of names and contents
    in which the latest write of a name comes first.  [io] is a state
    monad with exceptions in which an exception keeps the files written
    before it, as Python leaves them.  The input is read whole when it is
    opened, as [readline] and [readlines] on the one open file give it;
    this is exact when the repaired file is a different file, and when it
    is the same file (a name without [.csv]) for inputs that fit in the
    first block [readline] reads.

    The theorems: the conversion with files refines the conversion on
    contents of [Convert] and writes exactly the repaired file and the
    document; a name without [.csv] makes the document overwrite the
    input; a failure after the repair leaves the repaired file written;
    the options the command line leaves out reach the code as [None]. *)

From Stdlib Require Import Ascii String.
From Stdlib Require Import List ZArith Lia Bool.
From S2P Require Import Prelude QuoteRepair PyFloat Transcoder Csv TextFile Convert.
Import ListNotations QuoteRepair Transcoder TextFile Convert.
Local Open Scope Z_scope.

Module Main.

(** ** The files *)

(** The contents of the files by name, the latest write first. *)
Definition fsys : Type := list (pystr * pystr).

Fixpoint fs_read (fs : fsys) (name : pystr) : option pystr :=
  match fs with
  | [] => None
  | (n, c) :: fs' => if py_eqb n name then Some c else fs_read fs' name
  end.

(** [open(name, 'w').write(content)]: the file is replaced. *)
Definition fs_write (fs : fsys) (name content : pystr) : fsys := (name, content) :: fs.

(** ** Computations on the files *)

Definition io (A : Type) : Type := fsys -> result A * fsys.

Definition io_ret {A : Type} (a : A) : io A := fun fs => (Ok a, fs).

Definition io_bind {A B : Type} (m : io A) (k : A -> io B) : io B :=
  fun fs => let '(r, fs') := m fs in
            match r with Ok a => k a fs' | Err e => (Err e, fs') end.

Notation "x <~ m ;; k" := (io_bind m (fun x => k))
  (at level 61, m at next level, right associativity) : py_scope.

Definition io_raise {A : Type} (e : py_exc) : io A := fun fs => (Err e, fs).

(** A pure computation: its exception is raised, the files stay. *)
Definition io_lift {A : Type} (r : result A) : io A := fun fs => (r, fs).

(** [open(name, 'r').read()]: [FileNotFoundError] when there is no such file. *)
Definition open_read (name : pystr) : io pystr :=
  fun fs => match fs_read fs name with
            | Some c => (Ok c, fs)
            | None => (Err FileNotFoundError, fs)
            end.

Definition open_write (name content : pystr) : io unit :=
  fun fs => (Ok tt, fs_write fs name content).

(** ** [run_conversion] with its files *)

(** Line 63: [filename_out]. *)
Definition out_name (filename_in : pystr) : pystr :=
  py_str_replace (str ".csv") (str ".ing") filename_in.

(** Line 87: [filename_conv] when the repair is triggered. *)
Definition conv_name (filename_in : pystr) : pystr :=
  py_str_replace (str ".csv") (str "_repaired.csv") filename_in.

(** Lines 62-127: the date check, the input read, the repaired file
    written when the repair is triggered, the file to read chosen and read,
    the rows transcoded as they are read, the document written, the
    output's name returned. *)
Definition run_conversion_files (filename_in reknr firstdate : pystr) : io pystr :=
  let filename_out := out_name filename_in in
  if negb (py_len firstdate =? 6) then io_raise ValueError
  else
    let header := header_mt940 reknr firstdate in
    content <~ open_read filename_in ;;
    repaired <~ io_lift (repair_lines (text_lines content)) ;;
    filename_conv <~ match repaired with
                     | Some written =>
                         _ <~ open_write (conv_name filename_in) (concat written) ;;
                         io_ret (conv_name filename_in)
                     | None => io_ret filename_in
                     end ;;
    conv <~ open_read filename_conv ;;
    doc <~ io_lift (read_statement header (text_lines conv)) ;;
    _ <~ open_write filename_out doc ;;
    io_ret filename_out.

(** ** The command line *)

(** What [parser.parse_args()] returns (lines 11-31): the positional
    [filename] and the options [-r/--reknr] and [-d/--date], which are not
    required and are [None] when left out. *)
Record cli_args := mk_args {
  filename : pystr;
  reknr : option pystr;
  date : option pystr
}.

(** [str(x)] of an optional string: what [.format(reknr=reknr,
    firstdate=firstdate)] writes (line 75). *)
Definition py_str_opt (x : option pystr) : pystr :=
  match x with Some s => s | None => str "None" end.

(** [len(firstdate)] (line 65) on a value the command line stores: the
    length of a string, [TypeError] on [None]. *)
Definition py_len_opt (x : option pystr) : result Z :=
  match x with Some s => Ok (py_len s) | None => Err TypeError end.

(** Lines 62-127 called as line 132 calls them, with [reknr] and
    [firstdate] a string or [None]: [filename_out] (line 63) has no effect,
    [len(firstdate)] (line 65) is the first step that can fail; past it
    [firstdate] is a string, [str] of which is itself, and the header
    holds [str(reknr)]. *)
Definition run_conversion_call (filename_in : pystr) (reknr firstdate : option pystr) : io pystr :=
  _ <~ io_lift (py_len_opt firstdate) ;;
  run_conversion_files filename_in (py_str_opt reknr) (py_str_opt firstdate).

(** Lines 130-133: the conversion, then the line printed. *)
Definition main (args : cli_args) : io pystr :=
  out <~ run_conversion_call (filename args) (reknr args) (date args) ;;
  io_ret (str "MT940 file has been written to " ++ out).

(** ** The conversion's effect on the files *)

Lemma py_eqb_refl s : py_eqb s s = true.
Proof. unfold py_eqb. now destruct (list_eq_dec ascii_dec s s). Qed.

Lemma fs_read_write_same fs name content : fs_read (fs_write fs name content) name = Some content.
Proof. cbn [fs_read fs_write]. now rewrite py_eqb_refl. Qed.

(** What [run_conversion_files] does, step by step: the exception of the
    first step that fails, with the files written before it, or the
    output's name with the repaired file and the document written. *)
Lemma run_conversion_files_eq name reknr firstdate fs :
  run_conversion_files name reknr firstdate fs =
  if negb (py_len firstdate =? 6) then (Err ValueError, fs) else
  match fs_read fs name with
  | None => (Err FileNotFoundError, fs)
  | Some content =>
      match repair_lines (text_lines content) with
      | Err e => (Err e, fs)
      | Ok rep =>
          let fs1 := match rep with
                     | Some written => fs_write fs (conv_name name) (concat written)
                     | None => fs
                     end in
          match read_statement (header_mt940 reknr firstdate) (conv_lines content rep) with
          | Err e => (Err e, fs1)
          | Ok doc => (Ok (out_name name), fs_write fs1 (out_name name) doc)
          end
      end
  end.
Proof.
  unfold run_conversion_files, io_bind, io_raise, io_lift, io_ret, open_read, open_write.
  destruct (negb (py_len firstdate =? 6)); [reflexivity|].
  destruct (fs_read fs name) as [content|] eqn:Hr; [|reflexivity].
  destruct (repair_lines (text_lines content)) as [[written|]|e]; [| |reflexivity].
  - rewrite fs_read_write_same. cbn [conv_lines].
    destruct (read_statement _ _); reflexivity.
  - cbn [conv_lines]. rewrite Hr. destruct (read_statement _ _); reflexivity.
Qed.

Lemma run_conversion_files_spec name reknr firstdate fs content :
  fs_read fs name = Some content ->
  fst (run_conversion_files name reknr firstdate fs) =
  fmap (fun _ => out_name name) (run_conversion content reknr firstdate) /\
  (forall doc rep, run_conversion content reknr firstdate = Ok (doc, rep) ->
   snd (run_conversion_files name reknr firstdate fs) =
   fs_write (match rep with Some c => fs_write fs (conv_name name) c | None => fs end) (out_name name) doc).
Proof.
  intros Hr. rewrite run_conversion_files_eq, Hr. unfold run_conversion.
  destruct (negb _); [split; [reflexivity | discriminate]|].
  destruct (repair_lines _) as [rep|e]; cbn [bind]; [|split; [reflexivity | discriminate]].
  destruct (read_statement _ _) as [doc|e]; cbn [bind fmap fst snd]; [|split; [reflexivity | discriminate]].
  split; [reflexivity|]. intros doc' rep' H. injection H as <- <-. destruct rep; reflexivity.
Qed.

Lemma run_conversion_files_Ok name reknr firstdate fs o fs' :
  run_conversion_files name reknr firstdate fs = (Ok o, fs') ->
  exists lines doc fs1, read_statement (header_mt940 reknr firstdate) lines = Ok doc /\
                        o = out_name name /\ fs' = fs_write fs1 (out_name name) doc.
Proof.
  rewrite run_conversion_files_eq. destruct (negb _); [discriminate|].
  destruct (fs_read fs name) as [content|]; [|discriminate].
  destruct (repair_lines _) as [rep|e]; [|discriminate].
  destruct (read_statement _ _) as [doc|e] eqn:Hs; [|discriminate].
  intros H. injection H as <- <-. eauto 6.
Qed.

Lemma out_name_no_csv name : py_in (str ".csv") name = false -> out_name name = name.
Proof. intros H. unfold out_name. apply py_str_replace_absent; [discriminate | exact H]. Qed.

(** ** Properties *)

(** C9: With its files, [run_conversion] raises what the conversion on
    the input's contents raises and otherwise returns the output's name;
    on success the files are the old ones with the repaired file written,
    when the repair is triggered, and then the document. *)
Theorem run_conversion_files_refines name reknr firstdate fs content :
  fs_read fs name = Some content ->
  fst (run_conversion_files name reknr firstdate fs) =
  fmap (fun _ => out_name name) (run_conversion content reknr firstdate) /\
  (forall doc rep, run_conversion content reknr firstdate = Ok (doc, rep) ->
   snd (run_conversion_files name reknr firstdate fs) =
   fs_write (match rep with Some c => fs_write fs (conv_name name) c | None => fs end) (out_name name) doc).
Proof. exact (run_conversion_files_spec name reknr firstdate fs content). Qed.

(** C32: An input whose name does not contain [.csv] (for instance
    [export.CSV]) gets the output's name itself: the document overwrites
    the input file. *)
Theorem output_overwrites_input name reknr firstdate fs content doc rep :
  py_in (str ".csv") name = false -> fs_read fs name = Some content ->
  run_conversion content reknr firstdate = Ok (doc, rep) ->
  fst (run_conversion_files name reknr firstdate fs) = Ok name /\
  fs_read (snd (run_conversion_files name reknr firstdate fs)) name = Some doc.
Proof.
  intros Hin Hr Hrun. destruct (run_conversion_files_spec name reknr firstdate fs content Hr) as [H1 H2].
  rewrite H1, Hrun, (H2 doc rep Hrun), (out_name_no_csv name Hin).
  split; [reflexivity | apply fs_read_write_same].
Qed.

(** C33: When the transcoding fails after the repair, the exception is
    raised with the repaired file already written: the run is not
    all-or-nothing. *)
Theorem repaired_file_kept_on_error name reknr firstdate fs content written e :
  py_len firstdate = 6 -> fs_read fs name = Some content ->
  repair_lines (text_lines content) = Ok (Some written) ->
  read_statement (header_mt940 reknr firstdate) (text_lines (concat written)) = Err e ->
  run_conversion_files name reknr firstdate fs = (Err e, fs_write fs (conv_name name) (concat written)).
Proof.
  intros Hd Hr Hrep Hs. rewrite run_conversion_files_eq, Hd, Hr, Hrep. cbn [negb Z.eqb Pos.eqb conv_lines].
  now rewrite Hs.
Qed.

(** ** The values the command line leaves out *)

(** Without a date, [len(None)] raises [TypeError] before any file is
    opened. *)
Lemma main_no_date name rk fs : main (mk_args name rk None) fs = (Err TypeError, fs).
Proof. reflexivity. Qed.

(** A date that is not six characters long raises [ValueError] at line
    66, before any file is opened. *)
Lemma main_bad_date name rk d fs :
  py_len d <> 6 -> main (mk_args name rk (Some d)) fs = (Err ValueError, fs).
Proof.
  intros Hd. unfold main, run_conversion_call, io_bind, io_lift.
  cbn [filename reknr date py_len_opt py_str_opt]. rewrite run_conversion_files_eq.
  replace (py_len d =? 6) with false by lia. reflexivity.
Qed.

(** Without an account, a run that succeeds writes [None] into the
    [:25:] line of the document's header. *)
Lemma main_no_account name d fs out fs' :
  main (mk_args name None (Some d)) fs = (Ok out, fs') ->
  exists rest, fs_read fs' (out_name name) = Some (header_mt940 (str "None") d ++ rest).
Proof.
  intros H. unfold main, run_conversion_call, io_bind, io_lift, io_ret in H.
  cbn [filename reknr date py_len_opt py_str_opt] in H.
  destruct (run_conversion_files name (str "None") d fs) as [[o|e] fs1] eqn:Hrun; [|discriminate].
  injection H as _ <-. apply run_conversion_files_Ok in Hrun as (lines & doc & fs0 & Hs & _ & ->).
  destruct (read_statement_prefix _ _ _ Hs) as [rest ->]. exists rest. apply fs_read_write_same.
Qed.

(** ** Witnesses, on the ING export of [Convert] *)

Definition ing_files (name : pystr) : fsys := [(name, ing_text)].

Definition ing_bad_row : list pystr :=
  map str ["20170105"; "Huur"; "NL01INGB0001234567"; "NL02ABNA0123456789"; "GT";
           "Af"; "abc"; "Online bankieren"; "rent"]%string.

Definition ing_bad_text : pystr :=
  table_text crlf (map (fun fs => encode_line ","%char fs (combine ing_left ing_right)) [ing_fields; ing_bad_row]).

Definition ing_bad_written : list pystr :=
  match repair_lines (text_lines ing_bad_text) with Ok (Some w) => w | _ => [] end.

Lemma run_conversion_files_refines_witness :
  fst (run_conversion_files (str "export.csv") (str "NL01INGB") (str "161231") (ing_files (str "export.csv"))) =
  fmap (fun _ => out_name (str "export.csv")) (run_conversion ing_text (str "NL01INGB") (str "161231")).
Proof. apply (run_conversion_files_refines _ _ _ _ ing_text). vm_compute. reflexivity. Defined.

Lemma output_overwrites_input_witness :
  fst (run_conversion_files (str "export.CSV") (str "NL01INGB") (str "161231") (ing_files (str "export.CSV"))) =
  Ok (str "export.CSV") /\
  fs_read (snd (run_conversion_files (str "export.CSV") (str "NL01INGB") (str "161231") (ing_files (str "export.CSV"))))
          (str "export.CSV") = Some ing_doc.
Proof.
  apply (output_overwrites_input _ _ _ _ ing_text ing_doc (Some ing_repaired)); vm_compute; reflexivity.
Defined.

Lemma repaired_file_kept_on_error_witness :
  run_conversion_files (str "b.csv") (str "NL01INGB") (str "161231") [(str "b.csv", ing_bad_text)] =
  (Err ValueError, fs_write [(str "b.csv", ing_bad_text)] (conv_name (str "b.csv")) (concat ing_bad_written)).
Proof. apply (repaired_file_kept_on_error _ _ _ _ ing_bad_text); vm_compute; reflexivity. Defined.


End Main.
