(* ===== verification/Cli.v ===== *)
(** * Cli: the command line of [src/mt940convert.py]

    Lines 11-31 declare an [argparse.ArgumentParser] with the positional
    [filename] and the options [-r/--reknr] and [-d/--date]; the entry
    point (lines 130-133) calls [parser.parse_args()] and passes
    [args.filename], [args.reknr] and [args.date] to [run_conversion].

    The declaration is data here ([mt940_parser], with the [-h/--help]
    action that [ArgumentParser] adds first).  [parse_args] follows
    [ArgumentParser.parse_args] of CPython 3.11 ([Lib/argparse.py], a
    library the program calls, modelled from its source) for the actions
    the declaration uses, store actions with one argument and the help
    action: every argument is first classified as an option ([O]), an
    argument ([A]) or the [--] marker ([-]) ([_parse_optional],
    [_get_option_tuples]); then options and positionals are consumed
    alternately ([consume_optional], [consume_positionals]), and the
    missing positionals and the arguments left over are reported.

    The help action prints the help and exits with status 0; every error
    prints the usage and exits with status 2.  The texts printed are not
    modelled: an error is the value of [arg_error] it reports.

    The theorems: the parse ends on every [argv] ([parse_args_some]); on
    well-formed words the entry point does what the words mean
    ([entry_refines]), the help option exits first ([entry_help]), and
    the options left out reach [run_conversion] as [None]
    ([entry_missing_options]), and a date of the wrong length is rejected
    before any file is opened ([entry_bad_date]). *)

From Stdlib Require Import Ascii String.
From Stdlib Require Import List ZArith Lia Bool.
From S2P Require Import Prelude PyFloat Transcoder Convert Main.
Import ListNotations PyFloat Transcoder Convert Main.

Module Cli.

(** ** The parser of lines 11-31 *)

Inductive action_kind : Type :=
| Store  (** [action='store'] with [nargs=None]: one argument *)
| Help.  (** [_HelpAction], [nargs=0]: prints the help and exits *)

(** An action: its option strings (none for a positional) and its [dest]. *)
Record action : Type := mk_action {
  option_strings : list pystr;
  dest : pystr;
  kind : action_kind
}.

(** Lines 11-13: [ArgumentParser(...)] with [add_help=True] registers
    [-h/--help] (its [dest] is [SUPPRESS]: it never reaches the namespace). *)
Definition help_action : action := mk_action [str "-h"; str "--help"] (str "help") Help.

(** Lines 15-18: [parser.add_argument('filename', ...)]. *)
Definition filename_action : action := mk_action [] (str "filename") Store.

(** Lines 21-25: [parser.add_argument('-r', '--reknr', dest='reknr', ...)]. *)
Definition reknr_action : action := mk_action [str "-r"; str "--reknr"] (str "reknr") Store.

(** Lines 27-31: [parser.add_argument('-d', '--date', dest='date', ...)]. *)
Definition date_action : action := mk_action [str "-d"; str "--date"] (str "date") Store.

(** Lines 11-31, the actions in the order they are added. *)
Definition mt940_parser : list action := [help_action; filename_action; reknr_action; date_action].

(** [parser._option_string_actions]: option string to action, in the
    order of registration. *)
Definition option_table (p : list action) : list (pystr * action) :=
  flat_map (fun a => map (fun o => (o, a)) (option_strings a)) p.

Fixpoint lookup_option (t : list (pystr * action)) (s : pystr) : option action :=
  match t with
  | [] => None
  | (o, a) :: t' => if py_eqb o s then Some a else lookup_option t' s
  end.

(** [parser._get_positional_actions()] *)
Definition positionals (p : list action) : list action :=
  filter (fun a => match option_strings a with [] => true | _ => false end) p.

(** ** Values and the namespace *)

(** What an action stores: [None] (the default), a string, or a list of
    strings ([_get_values] when the arguments are not exactly one). *)
Inductive pyval : Type :=
| VNone
| VStr (s : pystr)
| VList (l : list pystr).

(** The attributes of the [Namespace], the latest [setattr] first. *)
Definition namespace : Type := list (pystr * pyval).

Fixpoint ns_get (ns : namespace) (k : pystr) : pyval :=
  match ns with
  | [] => VNone
  | (k', v) :: ns' => if py_eqb k' k then v else ns_get ns' k
  end.

(** [parse_known_args]: [setattr(namespace, action.dest, action.default)]
    for every action whose [dest] and [default] are not [SUPPRESS]. *)
Definition defaults (p : list action) : namespace :=
  map (fun a => (dest a, VNone)) (filter (fun a => match kind a with Store => true | Help => false end) p).

(** ** Classifying the arguments *)

(** [s.split('=', 1)] when ['='] occurs in [s]. *)
Fixpoint split_eq (s : pystr) : option (pystr * pystr) :=
  match s with
  | [] => None
  | c :: s' =>
      if Ascii.eqb c "="%char then Some ([], s')
      else option_map (fun '(a, b) => (c :: a, b)) (split_eq s')
  end.

(** [s[1] in parser.prefix_chars], the prefix characters being ['-']. *)
Definition second_is_prefix (s : pystr) : bool :=
  match s with _ :: c :: _ => Ascii.eqb c "-"%char | _ => false end.

(** An option tuple [(action, option_string, explicit_arg)]; no action
    for an option the parser does not know. *)
Record opt_tuple : Type := mk_tuple {
  t_action : option action;
  t_option : pystr;
  t_explicit : option pystr
}.

(** [_get_option_tuples(s)] for [s] of two characters or more that starts
    with ['-']: with two dashes, the options [s] (cut at ['=']) is a
    prefix of; with one, the option [s[:2]] with the rest of [s] as its
    argument and the options [s] is a prefix of. *)
Definition get_option_tuples (t : list (pystr * action)) (s : pystr) : list opt_tuple :=
  if second_is_prefix s then
    let '(prefix, explicit) := match split_eq s with
                               | Some (a, b) => (a, Some b)
                               | None => (s, None)
                               end in
    map (fun '(o, a) => mk_tuple (Some a) o explicit) (filter (fun '(o, _) => prefixb prefix o) t)
  else
    flat_map (fun '(o, a) =>
                if py_eqb o (firstn 2 s) then [mk_tuple (Some a) o (Some (skipn 2 s))]
                else if prefixb s o then [mk_tuple (Some a) o None] else []) t.

(** [parser._negative_number_matcher], [^-\d+$|^-\d*\.\d+$]: [$] also
    matches before a final line feed. *)
Definition negative_number (s : pystr) : bool :=
  let s := match rev s with c :: r => if Ascii.eqb c lf then rev r else s | [] => s end in
  match s with
  | c :: r =>
      Ascii.eqb c "-"%char &&
      match span_digits r with
      | (_ :: _, []) => true
      | (_, d :: r') =>
          Ascii.eqb d "."%char &&
          match span_digits r' with (_ :: _, []) => true | _ => false end
      | _ => false
      end
  | [] => false
  end.

(** The errors [parse_args] reports before exiting with status 2. *)
Inductive arg_error : Type :=
| ErrAmbiguous (arg : pystr)                (** ambiguous option: ... could match ... *)
| ErrExpectedOne (a : action)               (** argument ...: expected one argument *)
| ErrIgnoredExplicit (a : action) (e : pystr) (** argument ...: ignored explicit argument ... *)
| ErrRequired (names : list pystr)          (** the following arguments are required: ... *)
| ErrUnrecognized (args : list pystr).      (** unrecognized arguments: ... *)

(** [_parse_optional(s)]: [None] for an argument, an option tuple for an
    option (known or not), or the ambiguity error. *)
Definition parse_optional (p : list action) (s : pystr) : arg_error + option opt_tuple :=
  let t := option_table p in
  match s with
  | [] => inr None
  | c :: _ =>
      if negb (Ascii.eqb c "-"%char) then inr None else
      match lookup_option t s with
      | Some a => inr (Some (mk_tuple (Some a) s None))
      | None =>
          if Nat.eqb (length s) 1 then inr None else
          match match split_eq s with
                | Some (o, e) => option_map (fun a => mk_tuple (Some a) o (Some e)) (lookup_option t o)
                | None => None
                end with
          | Some tup => inr (Some tup)
          | None =>
              match get_option_tuples t s with
              | [tup] => inr (Some tup)
              | _ :: _ :: _ => inl (ErrAmbiguous s)
              | [] =>
                  if negative_number s && negb (existsb (fun '(o, _) => negative_number o) t)
                  then inr None
                  else if mem " "%char s then inr None
                  else inr (Some (mk_tuple None s None))
              end
          end
      end
  end.

(** A letter of [arg_strings_pattern]. *)
Inductive pat : Type :=
| PA                 (** ['A'], an argument *)
| PO (t : opt_tuple) (** ['O'], an option, with its tuple *)
| PD.                (** ['-'], the first [--] *)

(** The loop of [_parse_known_args] that builds the pattern: after the
    first [--] every argument is an argument. *)
Fixpoint classify (p : list action) (args : list pystr) : arg_error + list pat :=
  match args with
  | [] => inr []
  | s :: rest =>
      if py_eqb s (str "--") then inr (PD :: map (fun _ => PA) rest)
      else match parse_optional p s with
           | inl e => inl e
           | inr o =>
               match classify p rest with
               | inl e => inl e
               | inr ps => inr (match o with Some tup => PO tup | None => PA end :: ps)
               end
           end
  end.

(** ** Consuming the arguments *)

(** The arguments with their letters, from the current index on. *)
Definition items : Type := list (pystr * pat).

(** The steps that stop the program: the help action, or an error. *)
Inductive stop : Type :=
| StopHelp
| StopError (e : arg_error).

(** [_get_values] for the actions of the parser: the first [--] removed,
    one argument stored as it is, otherwise the list. *)
Fixpoint remove_first (x : pystr) (l : list pystr) : list pystr :=
  match l with
  | [] => []
  | y :: l' => if py_eqb y x then l' else y :: remove_first x l'
  end.

Definition get_values (args : list pystr) : pyval :=
  match remove_first (str "--") args with
  | [v] => VStr v
  | vs => VList vs
  end.

(** [take_action]: the help action exits; a store action sets its [dest]. *)
Definition take_action (a : action) (args : list pystr) (ns : namespace) : stop + namespace :=
  match kind a with
  | Help => inl StopHelp
  | Store => inr ((dest a, get_values args) :: ns)
  end.

Fixpoint take_actions (ts : list (action * list pystr)) (ns : namespace) : stop + namespace :=
  match ts with
  | [] => inr ns
  | (a, args) :: ts' =>
      match take_action a args ns with
      | inl st => inl st
      | inr ns' => take_actions ts' ns'
      end
  end.

(** [_match_argument(action, pattern)] for an option with no explicit
    argument: the pattern [(A)] of [nargs=None], [()] of [nargs=0]. *)
Definition consume_following (a : action) (rest : items) : arg_error + (list pystr * items) :=
  match kind a with
  | Help => inr ([], rest)
  | Store =>
      match rest with
      | (s, PA) :: rest' => inr ([s], rest')
      | _ => inl (ErrExpectedOne a)
      end
  end.

(** The loop of [consume_optional] on an explicit argument [e]: a store
    action takes it; the help action, a single-dash option with no
    argument, reads the next character of [e] as another single-dash
    option ([-hr] is [-h -r]). *)
Fixpoint consume_explicit (t : list (pystr * action)) (a : action) (o e : pystr) (rest : items) :
    arg_error + (list (action * list pystr) * items) :=
  match kind a with
  | Store => inr ([(a, [e])], rest)
  | Help =>
      match e with
      | [] => inl (ErrIgnoredExplicit a e)
      | c :: e' =>
          if second_is_prefix o then inl (ErrIgnoredExplicit a e) else
          let o' := ["-"%char; c] in
          match lookup_option t o' with
          | None => inl (ErrIgnoredExplicit a e)
          | Some a' =>
              match match e' with
                    | [] => match consume_following a' rest with
                            | inl err => inl err
                            | inr (args, rest') => inr ([(a', args)], rest')
                            end
                    | _ :: _ => consume_explicit t a' o' e' rest
                    end with
              | inl err => inl err
              | inr (ts, rest') => inr ((a, []) :: ts, rest')
              end
          end
      end
  end.

(** [consume_optional] at an option [s] with tuple [tup]: the actions to
    take with their arguments, the extras (an unknown option), the rest. *)
Definition consume_optional (t : list (pystr * action)) (s : pystr) (tup : opt_tuple) (rest : items) :
    arg_error + (list (action * list pystr) * list pystr * items) :=
  match t_action tup with
  | None => inr ([], [s], rest)
  | Some a =>
      match t_explicit tup with
      | Some e =>
          match consume_explicit t a (t_option tup) e rest with
          | inl err => inl err
          | inr (ts, rest') => inr (ts, [], rest')
          end
      | None =>
          match consume_following a rest with
          | inl err => inl err
          | inr (args, rest') => inr ([(a, args)], [], rest')
          end
      end
  end.

(** The [--] markers at the head. *)
Fixpoint span_dashes (it : items) : list pystr * items :=
  match it with
  | (s, PD) :: it' => let '(d, r) := span_dashes it' in (s :: d, r)
  | _ => ([], it)
  end.

(** One group [( -*A-* )] of a positional with [nargs=None], matched
    greedily. *)
Definition match_group (it : items) : option (list pystr * items) :=
  let '(d1, r1) := span_dashes it in
  match r1 with
  | (s, PA) :: r2 => let '(d2, r3) := span_dashes r2 in Some (d1 ++ s :: d2, r3)
  | _ => None
  end.

(** [_match_arguments_partial(positionals, pattern)]: as many leading
    positionals as their groups match, one after the other.  The regular
    expression [( -*A-* )( -*A-* )...] matches [k] groups exactly when the
    greedy matches of the first [k] groups succeed in turn, and its groups
    are then the greedy ones: a group's trailing [-*] only takes markers
    the next group's leading [-*] would take, and the next group still
    needs an [A] after them. *)
Fixpoint match_positionals (pos : list action) (it : items) :
    list (action * list pystr) * list action * items :=
  match pos with
  | [] => ([], [], it)
  | a :: pos' =>
      match match_group it with
      | None => ([], pos, it)
      | Some (args, it') =>
          let '(gs, rest, it'') := match_positionals pos' it' in ((a, args) :: gs, rest, it'')
      end
  end.

Definition is_option (x : pystr * pat) : bool := match snd x with PO _ => true | _ => false end.

(** The arguments up to the next option. *)
Fixpoint span_args (it : items) : list pystr * items :=
  match it with
  | (s, PA) :: it' | (s, PD) :: it' => let '(l, r) := span_args it' in (s :: l, r)
  | _ => ([], it)
  end.

(** The state of the loop: the positionals left, the namespace, the extras. *)
Record pstate : Type := mk_pstate { st_pos : list action; st_ns : namespace; st_extras : list pystr }.

(** [consume_optional] at the head of [it], then [take_action] for each
    of its actions. *)
Definition optional_at (t : list (pystr * action)) (st : pstate) (it : items) : stop + (pstate * items) :=
  match it with
  | (s, PO tup) :: rest =>
      match consume_optional t s tup rest with
      | inl err => inl (StopError err)
      | inr (ts, ex, rest') =>
          match take_actions ts (st_ns st) with
          | inl x => inl x
          | inr ns => inr (mk_pstate (st_pos st) ns (st_extras st ++ ex), rest')
          end
      end
  | _ => inr (st, it)
  end.

(** The [while start_index <= max_option_string_index] loop: positionals
    before the next option, the strings no positional takes as extras,
    then the option.  Every round consumes an argument, so [length it + 1]
    rounds suffice ([consume_loop_spec]). *)
Fixpoint consume_loop (t : list (pystr * action)) (fuel : nat) (st : pstate) (it : items) :
    option (stop + (pstate * items)) :=
  match fuel with
  | O => None
  | S fuel' =>
      if negb (existsb is_option it) then Some (inr (st, it)) else
      let continue r := match r with
                        | inl x => Some (inl x)
                        | inr (st', it') => consume_loop t fuel' st' it'
                        end in
      if is_option (hd ([], PA) it) then continue (optional_at t st it) else
      let '(gs, pos', it') := match_positionals (st_pos st) it in
      match gs with
      | _ :: _ =>
          match take_actions gs (st_ns st) with
          | inl x => Some (inl x)
          | inr ns => consume_loop t fuel' (mk_pstate pos' ns (st_extras st)) it'
          end
      | [] =>
          let '(strs, it'') := span_args it in
          continue (optional_at t (mk_pstate (st_pos st) (st_ns st) (st_extras st ++ strs)) it'')
      end
  end.

(** What [parse_args] does: the namespace, or the program exits. *)
Inductive parse_outcome : Type :=
| Parsed (ns : namespace)
| ShowHelp               (** the help printed, [SystemExit(0)] *)
| ArgError (e : arg_error). (** the usage and the error printed, [SystemExit(2)] *)

Definition of_stop (x : stop) : parse_outcome :=
  match x with StopHelp => ShowHelp | StopError e => ArgError e end.

(** After the loop: the positionals after the last option, the required
    positionals not seen, the extras ([parse_args] refuses them). *)
Definition parse_tail (st : pstate) (it : items) : parse_outcome :=
  let '(gs, pos', it') := match_positionals (st_pos st) it in
  match take_actions gs (st_ns st) with
  | inl x => of_stop x
  | inr ns =>
      match pos' with
      | _ :: _ => ArgError (ErrRequired (map dest pos'))
      | [] =>
          match st_extras st ++ map fst it' with
          | [] => Parsed ns
          | ex => ArgError (ErrUnrecognized ex)
          end
      end
  end.

(** [parser.parse_args(argv)]: the pattern, the loop, the tail. *)
Definition parse_args (p : list action) (argv : list pystr) : option parse_outcome :=
  match classify p argv with
  | inl e => Some (ArgError e)
  | inr pats =>
      let it := combine argv pats in
      match consume_loop (option_table p) (S (length it)) (mk_pstate (positionals p) (defaults p) []) it with
      | None => None
      | Some (inl x) => Some (of_stop x)
      | Some (inr (st, it')) => Some (parse_tail st it')
      end
  end.

(** ** The entry point, lines 130-133 *)

(** [args.reknr] as [run_conversion] uses it: only formatted into the
    header (line 75), where [str([])] is [[]]. *)
Definition reknr_arg (v : pyval) : option (option pystr) :=
  match v with
  | VNone => Some None
  | VStr s => Some (Some s)
  | VList [] => Some (Some (str "[]"))
  | VList (_ :: _) => None
  end.

(** [args.date] as [run_conversion] uses it: [len(firstdate) != 6] comes
    first (line 65), and [len([])] is [0] as for the empty string. *)
Definition date_arg (v : pyval) : option (option pystr) :=
  match v with
  | VNone => Some None
  | VStr s => Some (Some s)
  | VList [] => Some (Some [])
  | VList (_ :: _) => None
  end.

(** Lines 132-133 on the namespace: [filename_in.replace] (line 63) comes
    first and raises [AttributeError] on [None] or a list.  [None] for the
    values [parse_args] never stores (a list of strings;
    [parse_args_some]). *)
Definition run_args (ns : namespace) : option (io pystr) :=
  match ns_get ns (str "filename") with
  | VStr f =>
      match reknr_arg (ns_get ns (str "reknr")), date_arg (ns_get ns (str "date")) with
      | Some r, Some d => Some (main (mk_args f r d))
      | _, _ => None
      end
  | VNone | VList [] => Some (io_raise AttributeError)
  | VList (_ :: _) => None
  end.

(** How the program ends. *)
Inductive exit_outcome : Type :=
| ExitHelp                  (** the help printed, status 0 *)
| ExitUsage (e : arg_error) (** the usage and the error printed, status 2 *)
| Finished (r : result pystr). (** the line printed, or the exception raised *)

(** Lines 130-133: [parser.parse_args()] on [sys.argv[1:]], then the
    conversion with the files and the line printed. *)
Definition entry (argv : list pystr) (fs : fsys) : option (exit_outcome * fsys) :=
  match parse_args mt940_parser argv with
  | Some (Parsed ns) => option_map (fun m => let '(r, fs') := m fs in (Finished r, fs')) (run_args ns)
  | Some ShowHelp => Some (ExitHelp, fs)
  | Some (ArgError e) => Some (ExitUsage e, fs)
  | None => None
  end.

(** ** What a well-formed command line means *)

Inductive opt_name : Type := OReknr | ODate.

Definition opt_action (o : opt_name) : action :=
  match o with OReknr => reknr_action | ODate => date_action end.

Definition short_name (o : opt_name) : ascii :=
  match o with OReknr => "r"%char | ODate => "d"%char end.

Definition long_name (o : opt_name) : pystr :=
  match o with OReknr => str "reknr" | ODate => str "date" end.

(** How an option is written: [-r v], [-rv], [--rek v] and [--rek=v]
    with a non-empty prefix of the long name. *)
Inductive spelling : Type :=
| Short
| Joined
| Long (p : pystr)
| LongEq (p : pystr).

(** A word of a command line: the file name, an option with its value,
    or the help option ([-h], or [--] and a prefix of [help]). *)
Inductive word : Type :=
| WPos (s : pystr)
| WOpt (o : opt_name) (sp : spelling) (v : pystr)
| WHelp (p : option pystr).

Definition render (w : word) : list pystr :=
  match w with
  | WPos s => [s]
  | WOpt o Short v => [["-"%char; short_name o]; v]
  | WOpt o Joined v => ["-"%char :: short_name o :: v]
  | WOpt o (Long p) v => [str "--" ++ p; v]
  | WOpt o (LongEq p) v => [str "--" ++ p ++ "="%char :: v]
  | WHelp None => [str "-h"]
  | WHelp (Some p) => [str "--" ++ p]
  end.

Definition command_line (ws : list word) : list pystr := concat (map render ws).

(** An argument that does not start with a dash. *)
Definition plain (s : pystr) : bool :=
  match s with c :: _ => negb (Ascii.eqb c "-"%char) | [] => true end.

(** The words written as a user means them: a value given in its own
    argument is plain; a value joined to [-r] does not start with [=]; a
    joined value is not [--] (which argparse would drop). *)
Definition word_ok (w : word) : bool :=
  match w with
  | WPos s => plain s
  | WOpt _ Short v => plain v
  | WOpt _ Joined v =>
      match v with c :: _ => negb (Ascii.eqb c "="%char) && negb (py_eqb v (str "--")) | [] => false end
  | WOpt o (Long p) v => negb (py_eqb p []) && prefixb p (long_name o) && plain v
  | WOpt o (LongEq p) v => negb (py_eqb p []) && prefixb p (long_name o) && negb (py_eqb v (str "--"))
  | WHelp None => true
  | WHelp (Some p) => negb (py_eqb p []) && prefixb p (str "help")
  end.

Definition opt_name_eqb (o o' : opt_name) : bool :=
  match o, o' with OReknr, OReknr | ODate, ODate => true | _, _ => false end.

(** The value of the last occurrence of an option. *)
Definition opt_value (o : opt_name) (ws : list word) : option pystr :=
  fold_left (fun acc w => match w with
                          | WOpt o' _ v => if opt_name_eqb o o' then Some v else acc
                          | _ => acc
                          end) ws None.

Fixpoint pos_values (ws : list word) : list pystr :=
  match ws with
  | [] => []
  | WPos s :: ws' => s :: pos_values ws'
  | _ :: ws' => pos_values ws'
  end.

(** The meaning of a command line without the help option: the last
    value of each option wins; exactly one file name is required, the
    others are reported. *)
Definition spec_args (ws : list word) : arg_error + cli_args :=
  match pos_values ws with
  | [] => inl (ErrRequired [str "filename"])
  | [f] => inr (mk_args f (opt_value OReknr ws) (opt_value ODate ws))
  | _ :: extra => inl (ErrUnrecognized extra)
  end.

(** ** The parse word by word *)

(** The letters [_parse_optional] gives the arguments of a word. *)
Definition pats_of_word (w : word) : list pat :=
  match w with
  | WPos _ => [PA]
  | WOpt o Short _ => [PO (mk_tuple (Some (opt_action o)) ["-"%char; short_name o] None); PA]
  | WOpt o Joined v => [PO (mk_tuple (Some (opt_action o)) ["-"%char; short_name o] (Some v))]
  | WOpt o (Long _) _ => [PO (mk_tuple (Some (opt_action o)) (str "--" ++ long_name o) None); PA]
  | WOpt o (LongEq _) v => [PO (mk_tuple (Some (opt_action o)) (str "--" ++ long_name o) (Some v))]
  | WHelp None => [PO (mk_tuple (Some help_action) (str "-h") None)]
  | WHelp (Some _) => [PO (mk_tuple (Some help_action) (str "--help") None)]
  end.

(** The arguments of a word with their letters. *)
Definition word_items (w : word) : items := combine (render w) (pats_of_word w).
Definition items_of (ws : list word) : items := concat (map word_items ws).

(** The step of one word: a file name fills the positional or joins
    the extras; an option stores its value; the help option exits. *)
Definition word_step (st : pstate) (w : word) : stop + pstate :=
  match w with
  | WPos s =>
      inr (match st_pos st with
           | [] => mk_pstate [] (st_ns st) (st_extras st ++ [s])
           | a :: pos' => mk_pstate pos' ((dest a, VStr s) :: st_ns st) (st_extras st)
           end)
  | WOpt o _ v => inr (mk_pstate (st_pos st) ((dest (opt_action o), VStr v) :: st_ns st) (st_extras st))
  | WHelp _ => inl StopHelp
  end.

(** The steps of the words in turn, until the help option. *)
Fixpoint run_words (st : pstate) (ws : list word) : stop + pstate :=
  match ws with
  | [] => inr st
  | w :: ws' => match word_step st w with inl x => inl x | inr st' => run_words st' ws' end
  end.

(** The end of [parse_args] on a state: a missing positional, the extras, or the namespace. *)
Definition final (st : pstate) : parse_outcome :=
  match st_pos st with
  | _ :: _ => ArgError (ErrRequired (map dest (st_pos st)))
  | [] => match st_extras st with [] => Parsed (st_ns st) | ex => ArgError (ErrUnrecognized ex) end
  end.

(** What [parse_args] does with a command line of words, word by word. *)
Definition words_outcome (st : pstate) (ws : list word) : parse_outcome :=
  match run_words st ws with inl x => of_stop x | inr st' => final st' end.

Definition is_pos_word (w : word) : bool := match w with WPos _ => true | _ => false end.

(** At most one positional left, a store action. *)
Definition pos_ok (st : pstate) : bool :=
  match st_pos st with
  | [] => true
  | [a] => match kind a with Store => true | Help => false end
  | _ => false
  end.

(** Arguments that are all plain. *)
Definition pa_items (ps : list pystr) : items := map (fun s => (s, PA)) ps.

(** The first letter is the [--] marker. *)
Definition starts_pd (it : items) : bool := match it with (_, PD) :: _ => true | _ => false end.

(** [parse_args] after the classification: the loop, then the tail. *)
Definition loop_outcome (r : option (stop + (pstate * items))) : option parse_outcome :=
  match r with
  | None => None
  | Some (inl x) => Some (of_stop x)
  | Some (inr (st, it)) => Some (parse_tail st it)
  end.

(** The state [parse_args] starts from. *)
Definition init_state : pstate := mk_pstate (positionals mt940_parser) (defaults mt940_parser) [].
Definition is_help (w : word) : bool := match w with WHelp _ => true | _ => false end.
Definition word_state (st : pstate) (w : word) : pstate :=
  match word_step st w with inl _ => st | inr st' => st' end.
Definition opt_step (o : opt_name) (acc : option pystr) (w : word) : option pystr :=
  match w with WOpt o' _ v => if opt_name_eqb o o' then Some v else acc | _ => acc end.

(** The positional left, if any, is [filename]. *)
Definition pos_filename (st : pstate) : bool :=
  match st_pos st with [] => true | [a] => py_eqb (dest a) (str "filename") | _ => false end.

(** ** Invariants of the loop *)

(** [l'] is what is left of [l]. *)
Definition suffix {A : Type} (l' l : list A) : Prop := exists pre, l = pre ++ l'.

(** A value argparse stores for these actions: never a list with an element. *)
Definition val_ok (v : pyval) : bool := match v with VList (_ :: _) => false | _ => true end.
Definition ns_ok (ns : namespace) : bool := forallb (fun kv => val_ok (snd kv)) ns.
Fixpoint count_pd (it : items) : nat :=
  match it with [] => 0 | (_, PD) :: it' => S (count_pd it') | _ :: it' => count_pd it' end.
Definition pd_is_marker (x : pystr * pat) : bool :=
  match snd x with PD => py_eqb (fst x) (str "--") | _ => true end.
Definition items_ok (it : items) : bool := Nat.leb (count_pd it) 1 && forallb pd_is_marker it.
Definition args_ok (ts : list (action * list pystr)) : bool :=
  forallb (fun t => val_ok (get_values (snd t))) ts.

(** ** The loop ends, and stores single values *)

Lemma suffix_refl {A : Type} (l : list A) : suffix l l.
Proof. now exists []. Qed.
Lemma suffix_cons {A : Type} (x : A) l' l : suffix l' l -> suffix l' (x :: l).
Proof. intros [pre ->]. now exists (x :: pre). Qed.
Lemma suffix_trans {A : Type} (l1 l2 l3 : list A) : suffix l1 l2 -> suffix l2 l3 -> suffix l1 l3.
Proof. intros [p ->] [q ->]. exists (q ++ p). now rewrite app_assoc. Qed.
Lemma suffix_length {A : Type} (l' l : list A) : suffix l' l -> length l' <= length l.
Proof. intros [p ->]. rewrite length_app. lia. Qed.

Lemma val_ok_short args : length args <= 1 -> val_ok (get_values args) = true.
Proof.
  intros H. unfold get_values. destruct args as [|x [|y args]]; [reflexivity| |cbn in H; lia].
  cbn [remove_first]. destruct (py_eqb x (str "--")); reflexivity.
Qed.

Lemma consume_following_suffix a rest args rest' :
  consume_following a rest = inr (args, rest') -> suffix rest' rest /\ length args <= 1.
Proof.
  unfold consume_following. destruct (kind a).
  2: intros H; inversion H; subst; split; [apply suffix_refl | cbn; lia].
  destruct rest as [|[s [| |]] r]; intros H; inversion H; subst.
  split; [apply suffix_cons, suffix_refl | cbn; lia].
Qed.

Lemma consume_explicit_suffix t a o e rest ts rest' :
  consume_explicit t a o e rest = inr (ts, rest') -> suffix rest' rest /\ args_ok ts = true.
Proof.
  revert a o ts. induction e as [|c e IH]; intros a o ts; cbn [consume_explicit];
    destruct (kind a); try discriminate;
    try (intros [= <- <-]; split; [apply suffix_refl | unfold args_ok; cbn [forallb snd];
                                   rewrite val_ok_short by (cbn; lia); reflexivity]).
  destruct (second_is_prefix o); [discriminate|].
  destruct (lookup_option t _) as [a'|]; [|discriminate].
  destruct e as [|c' e'].
  - destruct (consume_following a' rest) as [|[args r]] eqn:Hf; [discriminate|].
    intros [= <- <-]. destruct (consume_following_suffix _ _ _ _ Hf) as [Hs Hl].
    split; [exact Hs|]. unfold args_ok; cbn [forallb snd]. now rewrite !val_ok_short by (cbn; lia).
  - destruct (consume_explicit t a' _ (c' :: e') rest) as [|[ts' r]] eqn:He; [discriminate|].
    intros [= <- <-]. exact (IH _ _ _ He).
Qed.

Lemma consume_optional_suffix t s tup rest ts ex rest' :
  consume_optional t s tup rest = inr (ts, ex, rest') -> suffix rest' rest /\ args_ok ts = true.
Proof.
  unfold consume_optional. destruct (t_action tup) as [a|]; [|intros [= <- _ <-]; split; [apply suffix_refl | reflexivity]].
  destruct (t_explicit tup) as [e|].
  - destruct (consume_explicit t a _ e rest) as [|[ts' r]] eqn:He; [discriminate|].
    intros [= <- _ <-]. exact (consume_explicit_suffix _ _ _ _ _ _ _ He).
  - destruct (consume_following a rest) as [|[args r]] eqn:Hf; [discriminate|].
    intros [= <- _ <-]. destruct (consume_following_suffix _ _ _ _ Hf) as [Hs Hl].
    split; [exact Hs|]. unfold args_ok; cbn [forallb snd]. now rewrite val_ok_short.
Qed.

Lemma take_actions_ok ts ns ns' :
  args_ok ts = true -> ns_ok ns = true -> take_actions ts ns = inr ns' -> ns_ok ns' = true.
Proof.
  revert ns. induction ts as [|[a args] ts IH]; intros ns Hts Hns; cbn [take_actions]; [congruence|].
  unfold args_ok in Hts. cbn [forallb snd] in Hts. apply andb_true_iff in Hts as [Ha Hts].
  unfold take_action. destruct (kind a); [|discriminate]. apply IH; [exact Hts|].
  unfold ns_ok in *. cbn [forallb snd]. now rewrite Ha, Hns.
Qed.

Lemma optional_at_suffix t st s tup rest st' it' :
  optional_at t st ((s, PO tup) :: rest) = inr (st', it') ->
  suffix it' rest /\ (ns_ok (st_ns st) = true -> ns_ok (st_ns st') = true).
Proof.
  cbn [optional_at]. destruct (consume_optional t s tup rest) as [|[[ts ex] r]] eqn:Hc; [discriminate|].
  destruct (consume_optional_suffix _ _ _ _ _ _ _ Hc) as [Hs Hts].
  destruct (take_actions ts (st_ns st)) as [|ns] eqn:Ht; [discriminate|]. intros [= <- <-].
  split; [exact Hs|]. intros Hns. exact (take_actions_ok _ _ _ Hts Hns Ht).
Qed.

Lemma span_dashes_spec it d r :
  span_dashes it = (d, r) -> it = map (fun x => (x, PD)) d ++ r.
Proof.
  revert d. induction it as [|[s [| |]] it IH]; intros d; cbn [span_dashes]; try (intros [= <- <-]; reflexivity).
  destruct (span_dashes it) as [d' r'] eqn:Hs. intros [= <- <-]. cbn. now rewrite <- (IH _ eq_refl).
Qed.

Lemma count_pd_app it it' : count_pd (it ++ it') = count_pd it + count_pd it'.
Proof. induction it as [|[s [| |]] it IH]; cbn; lia. Qed.

Lemma items_ok_app it it' : items_ok (it ++ it') = true -> items_ok it = true /\ items_ok it' = true.
Proof.
  unfold items_ok. rewrite count_pd_app, forallb_app. intros H.
  apply andb_true_iff in H as [H1 [H2 H3]%andb_true_iff]. apply Nat.leb_le in H1.
  rewrite H2, H3. split; apply andb_true_iff; (split; [apply Nat.leb_le; lia | reflexivity]).
Qed.

Lemma items_ok_suffix it' it : suffix it' it -> items_ok it = true -> items_ok it' = true.
Proof. intros [pre ->] H. exact (proj2 (items_ok_app _ _ H)). Qed.

Lemma count_pd_dashes d : count_pd (map (fun x => (x, PD)) d) = length d.
Proof. induction d as [|x d IH]; simpl; [reflexivity | f_equal; exact IH]. Qed.

Lemma dashes_ok d r :
  items_ok (map (fun x => (x, PD)) d ++ r) = true ->
  length d + count_pd r <= 1 /\ Forall (fun x => x = str "--") d.
Proof.
  unfold items_ok. rewrite count_pd_app, forallb_app. intros H.
  apply andb_true_iff in H as [H1 [H2 _]%andb_true_iff]. apply Nat.leb_le in H1.
  rewrite count_pd_dashes in H1. split; [lia|]. clear H1. induction d as [|x d IH]; [constructor|].
  cbn in H2. apply andb_true_iff in H2 as [Hx Hd]. constructor; [exact (py_eqb_true _ _ Hx) | exact (IH Hd)].
Qed.

Lemma get_values_group d1 s d2 :
  length d1 + length d2 <= 1 -> Forall (fun x => x = str "--") (d1 ++ d2) ->
  val_ok (get_values (d1 ++ s :: d2)) = true.
Proof.
  intros Hl Hd. destruct d1 as [|x [|]], d2 as [|y [|]]; cbn in Hl; try lia.
  - apply val_ok_short. reflexivity.
  - inversion Hd as [|? ? -> _]. unfold get_values. cbn [app remove_first].
    destruct (py_eqb s (str "--")); reflexivity.
  - inversion Hd as [|? ? -> _]. reflexivity.
Qed.

Lemma match_group_suffix it args it' :
  match_group it = Some (args, it') ->
  suffix it' it /\ length it' < length it /\ (items_ok it = true -> val_ok (get_values args) = true).
Proof.
  unfold match_group. destruct (span_dashes it) as [d1 r1] eqn:H1. apply span_dashes_spec in H1.
  destruct r1 as [|[s [| |]] r2]; try discriminate.
  destruct (span_dashes r2) as [d2 r3] eqn:H2. apply span_dashes_spec in H2. intros [= <- <-]. subst.
  split; [exists (map (fun x => (x, PD)) d1 ++ (s, PA) :: map (fun x => (x, PD)) d2); now rewrite <- app_assoc|].
  split; [rewrite !length_app; cbn; rewrite length_app; lia|].
  intros Hok. destruct (dashes_ok _ _ Hok) as [L1 F1].
  apply items_ok_app in Hok as [_ Hok]. apply (items_ok_suffix (map (fun x => (x, PD)) d2 ++ r3)) in Hok;
    [|apply suffix_cons, suffix_refl].
  destruct (dashes_ok _ _ Hok) as [_ F2]. apply get_values_group; [|now apply Forall_app].
  cbn [count_pd] in L1. rewrite count_pd_app, count_pd_dashes in L1. lia.
Qed.

Lemma match_positionals_suffix pos it gs pos' it' :
  match_positionals pos it = (gs, pos', it') ->
  suffix it' it /\ (gs <> [] -> length it' < length it) /\ (items_ok it = true -> args_ok gs = true).
Proof.
  revert it gs pos'. induction pos as [|a pos IH]; intros it gs pos'; cbn [match_positionals].
  - intros [= <- _ <-]. split; [apply suffix_refl | split; [congruence | reflexivity]].
  - destruct (match_group it) as [[args it1]|] eqn:Hg;
      [|intros [= <- _ <-]; split; [apply suffix_refl | split; [congruence | reflexivity]]].
    destruct (match_group_suffix _ _ _ Hg) as (S1 & L1 & V1).
    destruct (match_positionals pos it1) as [[gs1 r] it2] eqn:Hm. intros [= <- _ <-].
    destruct (IH _ _ _ Hm) as (S2 & _ & V2). split; [exact (suffix_trans _ _ _ S2 S1)|].
    split; [intros _; pose proof (suffix_length _ _ S2); lia|].
    intros Hok. unfold args_ok. cbn [forallb snd]. rewrite (V1 Hok). apply V2, (items_ok_suffix _ _ S1 Hok).
Qed.

Lemma span_args_suffix it strs it' :
  span_args it = (strs, it') -> suffix it' it /\
  (existsb is_option it = true -> exists s tup rest, it' = (s, PO tup) :: rest).
Proof.
  revert strs. induction it as [|[s [|tup|]] it IH]; intros strs; cbn [span_args existsb];
    try (intros [= _ <-]; split; [apply suffix_refl | discriminate]).
  - destruct (span_args it) as [l r] eqn:Hs. intros [= _ <-]. destruct (IH _ eq_refl) as [S1 H1].
    split; [exact (suffix_cons _ _ _ S1) | exact H1].
  - intros [= _ <-]. split; [apply suffix_refl | intros _; eauto].
  - destruct (span_args it) as [l r] eqn:Hs. intros [= _ <-]. destruct (IH _ eq_refl) as [S1 H1].
    split; [exact (suffix_cons _ _ _ S1) | exact H1].
Qed.

(** Within [length it + 1] rounds the loop ends, keeps the markers right
    and stores only strings or the empty list. *)
Lemma consume_loop_spec t fuel st it :
  length it < fuel -> items_ok it = true -> ns_ok (st_ns st) = true ->
  exists r, consume_loop t fuel st it = Some r /\
            match r with
            | inl _ => True
            | inr (st', it') => items_ok it' = true /\ ns_ok (st_ns st') = true
            end.
Proof.
  revert st it. induction fuel as [|fuel IH]; intros st it Hf Hok Hns; [lia|]. cbn [consume_loop].
  destruct (negb (existsb is_option it)) eqn:Hno; [eexists; split; [reflexivity | split; assumption]|].
  apply negb_false_iff in Hno.
  assert (Hopt : forall st0 s tup rest, it = (s, PO tup) :: rest \/ suffix ((s, PO tup) :: rest) it ->
            ns_ok (st_ns st0) = true ->
            exists r, match optional_at t st0 ((s, PO tup) :: rest) with
                      | inl x => Some (inl x)
                      | inr (st', it') => consume_loop t fuel st' it'
                      end = Some r /\
                      match r with
                      | inl _ => True
                      | inr (st', it') => items_ok it' = true /\ ns_ok (st_ns st') = true
                      end).
  { intros st0 s tup rest Hsuf Hns0.
    assert (Hs : suffix ((s, PO tup) :: rest) it) by (destruct Hsuf as [->|Hsuf]; [apply suffix_refl | exact Hsuf]).
    destruct (optional_at t st0 ((s, PO tup) :: rest)) as [x|[st' it']] eqn:Ho; [eexists; split; [reflexivity | exact I]|].
    destruct (optional_at_suffix _ _ _ _ _ _ _ Ho) as [S1 N1].
    pose proof (suffix_trans _ _ _ (suffix_cons (s, PO tup) _ _ S1) Hs) as S2.
    apply IH; [pose proof (suffix_length _ _ S1); pose proof (suffix_length _ _ Hs); cbn in *; lia
              | exact (items_ok_suffix _ _ S2 Hok) | exact (N1 Hns0)]. }
  destruct (is_option (hd ([], PA) it)) eqn:Hhd.
  - destruct it as [|[s [|tup|]] rest]; try discriminate. exact (Hopt st s tup rest (or_introl eq_refl) Hns).
  - destruct (match_positionals (st_pos st) it) as [[gs pos'] it'] eqn:Hm.
    destruct (match_positionals_suffix _ _ _ _ _ Hm) as (S1 & L1 & V1).
    destruct gs as [|g gs].
    + destruct (span_args it) as [strs it''] eqn:Hs.
      destruct (span_args_suffix _ _ _ Hs) as [S2 H2]. destruct (H2 Hno) as (s & tup & rest & ->).
      exact (Hopt (mk_pstate (st_pos st) (st_ns st) (st_extras st ++ strs)) s tup rest (or_intror S2) Hns).
    + destruct (take_actions (g :: gs) (st_ns st)) as [x|ns] eqn:Ht; [eexists; split; [reflexivity | exact I]|].
      apply IH; [specialize (L1 ltac:(discriminate)); lia | exact (items_ok_suffix _ _ S1 Hok)
                | exact (take_actions_ok _ _ _ (V1 Hok) Hns Ht)].
Qed.

Lemma classify_items_ok p argv pats :
  classify p argv = inr pats -> items_ok (combine argv pats) = true.
Proof.
  revert pats. induction argv as [|s argv IH]; intros pats; cbn [classify]; [intros [= <-]; reflexivity|].
  destruct (py_eqb s (str "--")) eqn:Hd.
  - intros [= <-]. cbn [combine]. unfold items_ok. cbn [count_pd forallb pd_is_marker snd fst].
    rewrite Hd. assert (H0 : forall l l' : list pystr, count_pd (combine l (map (fun _ => PA) l')) = 0 /\
                              forallb pd_is_marker (combine l (map (fun _ => PA) l')) = true)
      by (induction l as [|x l IHl]; intros [|y l']; cbn; auto).
    destruct (H0 argv argv) as [-> ->]. reflexivity.
  - destruct (parse_optional p s) as [e|o]; [discriminate|].
    destruct (classify p argv) as [e|ps] eqn:Hc; [discriminate|]. intros [= <-].
    specialize (IH ps eq_refl). unfold items_ok in *. destruct o; exact IH.
Qed.

Lemma parse_tail_values st it ns :
  items_ok it = true -> ns_ok (st_ns st) = true -> parse_tail st it = Parsed ns -> ns_ok ns = true.
Proof.
  intros Hok Hns. unfold parse_tail.
  destruct (match_positionals (st_pos st) it) as [[gs pos'] it'] eqn:Hm.
  destruct (match_positionals_suffix _ _ _ _ _ Hm) as (_ & _ & V).
  destruct (take_actions gs (st_ns st)) as [x|ns'] eqn:Ht; [destruct x; discriminate|].
  destruct pos'; [|discriminate]. destruct (st_extras st ++ map fst it'); [|discriminate].
  intros [= <-]. exact (take_actions_ok _ _ _ (V Hok) Hns Ht).
Qed.

Lemma defaults_ok p : ns_ok (defaults p) = true.
Proof. unfold defaults. induction p as [|a p IH]; [reflexivity|]. cbn. destruct (kind a); exact IH. Qed.

Lemma ns_get_ok ns k : ns_ok ns = true -> val_ok (ns_get ns k) = true.
Proof.
  induction ns as [|[k' v] ns IH]; [reflexivity|]. unfold ns_ok. cbn [forallb snd ns_get].
  intros [Hv Hns]%andb_true_iff. destruct (py_eqb k' k); [exact Hv | exact (IH Hns)].
Qed.

(** [parse_args] returns, and a namespace it returns holds strings, [None]
    or the empty list. *)
Lemma parse_args_some p argv :
  exists o, parse_args p argv = Some o /\ (forall ns, o = Parsed ns -> ns_ok ns = true).
Proof.
  unfold parse_args. destruct (classify p argv) as [e|pats] eqn:Hc; [eexists; split; [reflexivity | discriminate]|].
  destruct (consume_loop_spec (option_table p) (S (length (combine argv pats)))
              (mk_pstate (positionals p) (defaults p) []) (combine argv pats)
              (Nat.lt_succ_diag_r _) (classify_items_ok _ _ _ Hc) (defaults_ok p)) as (r & -> & Hr).
  destruct r as [x|[st' it']]; (eexists; split; [reflexivity|]); intros ns Hns; [destruct x; discriminate|].
  destruct Hr as [Hok Hok']. exact (parse_tail_values _ _ _ Hok Hok' Hns).
Qed.

(** ** The parse of a well-formed command line *)

Ltac str_eval :=
  repeat progress (rewrite ?py_eqb_cons, ?py_eqb_nil_cons, ?py_eqb_cons_nil, ?py_eqb_nil_nil; cbn -[py_eqb]).

Lemma plain_not_dashdash s : plain s = true -> py_eqb s (str "--") = false.
Proof. destruct s as [|c s]; [reflexivity|]. cbn. rewrite py_eqb_cons. destruct (Ascii.eqb c "-"%char); [discriminate | reflexivity]. Qed.

Lemma parse_optional_plain s : plain s = true -> parse_optional mt940_parser s = inr None.
Proof. destruct s as [|c s]; [reflexivity|]. cbn [plain]. intros H. unfold parse_optional. rewrite H. reflexivity. Qed.

Lemma parse_optional_joined o c v :
  Ascii.eqb c "="%char = false ->
  parse_optional mt940_parser ("-"%char :: short_name o :: c :: v) =
  inr (Some (mk_tuple (Some (opt_action o)) ["-"%char; short_name o] (Some (c :: v)))).
Proof.
  intros Hc. unfold parse_optional. destruct o; str_eval; rewrite Hc;
    destruct (split_eq v) as [[x y]|]; str_eval; try reflexivity.
Qed.

(** A non-empty prefix of a name is one of its finitely many prefixes. *)
Lemma prefix_cases p q :
  py_eqb p [] = false -> prefixb p q = true -> exists n, p = firstn (S n) q /\ n < length q.
Proof.
  intros Hne Hp. destruct (prefixb_firstn p q Hp) as [E L].
  destruct p as [|c p]; [discriminate|]. exists (length p). split; [exact E | cbn in L; lia].
Qed.

Ltac case_prefix p q :=
  let n := fresh "n" in let E := fresh "E" in let L := fresh "L" in
  destruct (prefix_cases p q ltac:(assumption) ltac:(assumption)) as (n & E & L);
  subst p; cbn in L; destruct n as [|[|[|[|[|n]]]]]; try lia.

Lemma classify_word w args :
  word_ok w = true ->
  classify mt940_parser (render w ++ args) =
  match classify mt940_parser args with inl e => inl e | inr ps => inr (pats_of_word w ++ ps) end.
Proof.
  destruct w as [s|o [| |p|p] v|[p|]]; cbn [word_ok render app]; intros H.
  - cbn [classify]. rewrite plain_not_dashdash, parse_optional_plain by exact H. reflexivity.
  - cbn [classify]. rewrite (plain_not_dashdash v), (parse_optional_plain v) by exact H.
    destruct o; str_eval; destruct (classify mt940_parser args); reflexivity.
  - destruct v as [|c v]; [discriminate|]. apply andb_true_iff in H as [H1 H2]. apply negb_true_iff in H1, H2.
    cbn [classify]. rewrite parse_optional_joined by exact H1.
    destruct o; str_eval; reflexivity.
  - apply andb_true_iff in H as [[H1 H2]%andb_true_iff H3]. apply negb_true_iff in H1.
    cbn [classify]. rewrite (plain_not_dashdash v), (parse_optional_plain v) by exact H3.
    destruct o; [case_prefix p (long_name OReknr) | case_prefix p (long_name ODate)];
      destruct (classify mt940_parser args); vm_compute; reflexivity.
  - apply andb_true_iff in H as [[H1 H2]%andb_true_iff H3]. apply negb_true_iff in H1.
    cbn [classify]. destruct o; [case_prefix p (long_name OReknr) | case_prefix p (long_name ODate)];
      destruct (classify mt940_parser args); vm_compute; reflexivity.
  - apply andb_true_iff in H as [H1 H2]. apply negb_true_iff in H1. cbn [classify].
    case_prefix p (str "help"); destruct (classify mt940_parser args); vm_compute; reflexivity.
  - cbn [classify]. destruct (classify mt940_parser args); vm_compute; reflexivity.
Qed.

Lemma classify_command_line ws :
  forallb word_ok ws = true -> classify mt940_parser (command_line ws) = inr (concat (map pats_of_word ws)).
Proof.
  induction ws as [|w ws IH]; [reflexivity|]. cbn [forallb]. intros [Hw Hws]%andb_true_iff.
  unfold command_line. cbn [map concat]. rewrite classify_word by exact Hw. fold (command_line ws).
  rewrite IH by exact Hws. reflexivity.
Qed.

Lemma combine_command_line ws :
  combine (command_line ws) (concat (map pats_of_word ws)) = items_of ws.
Proof.
  induction ws as [|w ws IH]; [reflexivity|]. unfold command_line, items_of in *. cbn [map concat].
  rewrite combine_app, IH; [reflexivity|]. destruct w as [|o [| | |] v|[|]]; reflexivity.
Qed.

Lemma get_values_one s : py_eqb s (str "--") = false -> get_values [s] = VStr s.
Proof. intros H. unfold get_values. cbn [remove_first]. rewrite H. reflexivity. Qed.

Lemma consume_explicit_store t a o e rest :
  kind a = Store -> consume_explicit t a o e rest = inr ([(a, [e])], rest).
Proof. intros H. destruct e; cbn [consume_explicit]; rewrite H; reflexivity. Qed.

Lemma optional_word t st w rest :
  t = option_table mt940_parser -> word_ok w = true -> is_pos_word w = false ->
  optional_at t st (word_items w ++ rest) =
  match word_step st w with inl x => inl x | inr st' => inr (st', rest) end.
Proof.
  intros -> Hw Hp. destruct w as [s|o [| |p|p] v|[p|]]; try discriminate; cbn [word_ok] in Hw;
    try (destruct v as [|c v]; [discriminate|]; apply andb_true_iff in Hw as [_ Hw]; apply negb_true_iff in Hw);
    try (apply andb_true_iff in Hw as [_ Hw]; try apply negb_true_iff in Hw);
    try (destruct o; cbn; rewrite ?consume_explicit_store by reflexivity; cbn; rewrite get_values_one by first [exact Hw | apply plain_not_dashdash; exact Hw];
         now rewrite app_nil_r);
    reflexivity.
Qed.

Lemma items_of_pos ps : items_of (map WPos ps) = pa_items ps.
Proof.
  induction ps as [|s ps IH]; [reflexivity|]. unfold items_of in *.
  cbn [map concat word_items render pats_of_word combine app]. now rewrite IH.
Qed.

Lemma items_of_app ws ws' : items_of (ws ++ ws') = items_of ws ++ items_of ws'.
Proof. unfold items_of. now rewrite map_app, concat_app. Qed.

Lemma word_items_option w :
  is_pos_word w = false -> exists x tup tl, word_items w = (x, PO tup) :: tl.
Proof. destruct w as [|o [| | |] v|[|]]; try discriminate; intros _; eexists _, _, _; reflexivity. Qed.

Lemma match_positionals_one a s rest :
  starts_pd rest = false -> match_positionals [a] ((s, PA) :: rest) = ([(a, [s])], [], rest).
Proof. intros H. destruct rest as [|[x [| |]] r]; try discriminate; reflexivity. Qed.

Lemma span_args_pa ps x tup rest : span_args (pa_items ps ++ (x, PO tup) :: rest) = (ps, (x, PO tup) :: rest).
Proof.
  induction ps as [|s ps IH]; [reflexivity|]. unfold pa_items in *. cbn [map app span_args].
  now rewrite IH.
Qed.

Lemma existsb_option_pa ps : existsb is_option (pa_items ps) = false.
Proof. induction ps; [reflexivity | exact IHps]. Qed.

Lemma run_words_pos_extras st ps ws :
  st_pos st = [] ->
  run_words st (map WPos ps ++ ws) = run_words (mk_pstate [] (st_ns st) (st_extras st ++ ps)) ws.
Proof.
  revert st. induction ps as [|s ps IH]; intros st H.
  - destruct st; cbn in *; subst. now rewrite app_nil_r.
  - cbn [map app run_words word_step]. rewrite H, IH by reflexivity. cbn. now rewrite <- app_assoc.
Qed.

Lemma take_store a s ns :
  kind a = Store -> py_eqb s (str "--") = false -> take_action a [s] ns = inr ((dest a, VStr s) :: ns).
Proof. intros Ha Hs. unfold take_action. rewrite Ha, get_values_one by exact Hs. reflexivity. Qed.

Lemma tail_pos st ps :
  pos_ok st = true -> forallb plain ps = true -> parse_tail st (pa_items ps) = words_outcome st (map WPos ps).
Proof.
  intros Hst Hps. unfold parse_tail, words_outcome, pos_ok in *.
  destruct st as [[|a [|]] ns ex]; cbn [st_pos st_ns st_extras] in *; try discriminate.
  - cbn [match_positionals take_actions].
    rewrite <- (app_nil_r (map WPos ps)), run_words_pos_extras by reflexivity.
    cbn [run_words final st_pos st_extras st_ns]. unfold pa_items. now rewrite map_map, map_id.
  - destruct ps as [|s ps]; [reflexivity|]. cbn [forallb] in Hps. apply andb_true_iff in Hps as [Hs Hps].
    unfold pa_items. cbn [map]. rewrite match_positionals_one by (destruct ps; reflexivity).
    destruct (kind a) eqn:Ha; [|discriminate]. cbn [take_actions].
    rewrite take_store by (exact Ha || apply plain_not_dashdash, Hs).
    cbn [map app run_words word_step st_pos st_ns st_extras].
    rewrite <- (app_nil_r (map WPos ps)), run_words_pos_extras by reflexivity. cbn. unfold pa_items. now rewrite map_map, map_id.
Qed.

Lemma words_split ws :
  (exists ps, ws = map WPos ps) \/
  exists ps w ws', ws = map WPos ps ++ w :: ws' /\ is_pos_word w = false.
Proof.
  induction ws as [|w ws [(ps & ->)|(ps & w' & ws' & -> & Hw)]]; [left; now exists []| |].
  - destruct w as [s| |]; [left; now exists (s :: ps) | right; eexists [], _, _; split; reflexivity ..].
  - destruct w as [s| |]; [right; exists (s :: ps), w', ws'; split; [reflexivity | exact Hw]|
      right; eexists [], _, _; split; reflexivity ..].
Qed.

Lemma forallb_app_true {A : Type} (f : A -> bool) l l' :
  forallb f (l ++ l') = true -> forallb f l = true /\ forallb f l' = true.
Proof. rewrite forallb_app. apply andb_true_iff. Qed.

Lemma forallb_pos ps : forallb word_ok (map WPos ps) = forallb plain ps.
Proof. induction ps as [|s ps IH]; [reflexivity|]. cbn. now rewrite IH. Qed.

Lemma optional_word_pos_ok st w st' :
  is_pos_word w = false -> word_step st w = inr st' -> pos_ok st' = pos_ok st.
Proof. destruct w; try discriminate; intros _ [= <-]; reflexivity. Qed.

Lemma consume_loop_option t fuel st w rest :
  is_pos_word w = false ->
  consume_loop t (S fuel) st (word_items w ++ rest) =
  match optional_at t st (word_items w ++ rest) with
  | inl x => Some (inl x)
  | inr (st', it') => consume_loop t fuel st' it'
  end.
Proof. intros Hw. destruct (word_items_option w Hw) as (x & tup & tl & ->). reflexivity. Qed.

Lemma consume_loop_pos_one t fuel st a s ps w rest :
  st_pos st = [a] -> kind a = Store -> plain s = true -> is_pos_word w = false ->
  consume_loop t (S fuel) st (pa_items (s :: ps) ++ word_items w ++ rest) =
  consume_loop t fuel (mk_pstate [] ((dest a, VStr s) :: st_ns st) (st_extras st))
               (pa_items ps ++ word_items w ++ rest).
Proof.
  intros Hpos Ha Hs Hw. destruct (word_items_option w Hw) as (x & tup & tl & ->).
  cbn [consume_loop]. rewrite existsb_app, existsb_app. cbn [existsb is_option snd].
  rewrite orb_true_r. cbn [negb pa_items map app hd is_option snd]. rewrite Hpos.
  rewrite match_positionals_one by (destruct ps; reflexivity). cbn [take_actions].
  rewrite take_store by (exact Ha || apply plain_not_dashdash, Hs). reflexivity.
Qed.

Lemma consume_loop_pos_extras t fuel st s ps w rest :
  st_pos st = [] -> is_pos_word w = false ->
  consume_loop t (S fuel) st (pa_items (s :: ps) ++ word_items w ++ rest) =
  match optional_at t (mk_pstate [] (st_ns st) (st_extras st ++ s :: ps)) (word_items w ++ rest) with
  | inl x => Some (inl x)
  | inr (st', it') => consume_loop t fuel st' it'
  end.
Proof.
  intros Hpos Hw. destruct (word_items_option w Hw) as (x & tup & tl & ->).
  cbn [consume_loop]. rewrite existsb_app, existsb_app. cbn [existsb is_option snd].
  rewrite orb_true_r. cbn [negb pa_items map app hd is_option snd]. rewrite Hpos. cbn [match_positionals].
  change ((s, PA) :: map (fun s0 : pystr => (s0, PA)) ps ++ (x, PO tup) :: tl ++ rest)
    with (pa_items (s :: ps) ++ (x, PO tup) :: tl ++ rest).
  rewrite span_args_pa. destruct st; cbn in Hpos |- *. now subst.
Qed.

Lemma loop_words fuel ws st :
  forallb word_ok ws = true -> pos_ok st = true -> length (items_of ws) < fuel ->
  loop_outcome (consume_loop (option_table mt940_parser) fuel st (items_of ws)) = Some (words_outcome st ws).
Proof.
  revert ws st. induction fuel as [|fuel IH]; intros ws st Hws Hst Hlen; [lia|].
  destruct (words_split ws) as [(ps & ->)|(ps & w & ws' & -> & Hw)].
  - rewrite items_of_pos in *. cbn [consume_loop]. rewrite existsb_option_pa. cbn [negb loop_outcome].
    rewrite forallb_pos in Hws. now rewrite tail_pos.
  - apply forallb_app_true in Hws as [Hps Hws]. rewrite forallb_pos in Hps.
    cbn [forallb] in Hws. apply andb_true_iff in Hws as [Hwok Hws].
    rewrite items_of_app, items_of_pos in *. cbn [items_of map concat] in *. fold (items_of ws') in *.
    rewrite !length_app in Hlen.
    assert (Hwl : 0 < length (word_items w)) by (destruct (word_items_option w Hw) as (? & ? & ? & ->); cbn; lia).
    assert (Hstep : forall st', pos_ok st' = true ->
              loop_outcome (match optional_at (option_table mt940_parser) st' (word_items w ++ items_of ws') with
                            | inl x => Some (inl x)
                            | inr (st'', it') => consume_loop (option_table mt940_parser) fuel st'' it'
                            end) = Some (words_outcome st' (w :: ws'))).
    { intros st' Hst'. rewrite optional_word by (reflexivity || assumption). unfold words_outcome. cbn [run_words].
      destruct (word_step st' w) as [x|st''] eqn:Hs; [reflexivity|].
      apply IH; [exact Hws | now rewrite (optional_word_pos_ok _ _ _ Hw Hs) | lia]. }
    destruct ps as [|s ps].
    + cbn [pa_items map app]. rewrite consume_loop_option by exact Hw. apply Hstep, Hst.
    + cbn [forallb] in Hps. apply andb_true_iff in Hps as [Hs Hps].
      unfold pos_ok in Hst. destruct (st_pos st) as [|a [|]] eqn:Hpos; try discriminate.
      * rewrite consume_loop_pos_extras by assumption. rewrite Hstep by reflexivity.
        unfold words_outcome. rewrite run_words_pos_extras by exact Hpos. reflexivity.
      * destruct (kind a) eqn:Ha; [|discriminate].
        rewrite consume_loop_pos_one with (a := a) by assumption.
        rewrite <- items_of_pos. change (word_items w ++ items_of ws') with (items_of (w :: ws')).
        rewrite <- items_of_app. rewrite IH.
        -- unfold words_outcome. cbn [map app run_words word_step]. now rewrite Hpos.
        -- rewrite forallb_app, forallb_pos, Hps. cbn [forallb andb]. now rewrite Hwok, Hws.
        -- reflexivity.
        -- rewrite items_of_app, items_of_pos, !length_app.
           change (items_of (w :: ws')) with (word_items w ++ items_of ws').
           rewrite length_app. unfold pa_items in *. cbn [map length] in Hlen. lia.
Qed.

Lemma parse_words ws :
  forallb word_ok ws = true ->
  parse_args mt940_parser (command_line ws) = Some (words_outcome init_state ws).
Proof.
  intros Hws. unfold parse_args. rewrite classify_command_line by exact Hws.
  cbv zeta. rewrite combine_command_line.
  apply (loop_words (S (length (items_of ws)))); [exact Hws | reflexivity | lia].
Qed.

Lemma run_words_help st ws : existsb is_help ws = true -> run_words st ws = inl StopHelp.
Proof.
  revert st. induction ws as [|w ws IH]; intros st H; [discriminate|].
  destruct w; cbn in H |- *; [apply IH, H | apply IH, H | reflexivity].
Qed.

Lemma run_words_no_help st ws :
  existsb is_help ws = false -> run_words st ws = inr (fold_left word_state ws st).
Proof.
  revert st. induction ws as [|w ws IH]; intros st H; [reflexivity|].
  destruct w; cbn in H |- *; [apply IH, H | apply IH, H | discriminate].
Qed.

Lemma fold_opt_step o ws x :
  fold_left (opt_step o) ws (Some x) = match fold_left (opt_step o) ws None with Some v => Some v | None => Some x end.
Proof.
  revert x. induction ws as [|w ws IH]; intros x; [reflexivity|]. cbn [fold_left].
  destruct w as [|o' sp v|]; cbn [opt_step]; try apply IH.
  destruct (opt_name_eqb o o'); [|apply IH]. rewrite !IH. destruct (fold_left (opt_step o) ws None); reflexivity.
Qed.

Lemma pos_filename_step st w : pos_filename st = true -> pos_filename (word_state st w) = true.
Proof.
  unfold pos_filename, word_state. destruct w; cbn [word_step st_pos]; auto.
  destruct (st_pos st) as [|a [|]]; cbn; auto; discriminate.
Qed.

Lemma dest_opt_filename o : py_eqb (str "filename") (dest (opt_action o)) = false.
Proof. destruct o; reflexivity. Qed.

Lemma dest_opt_eqb o o' : py_eqb (dest (opt_action o')) (dest (opt_action o)) = opt_name_eqb o o'.
Proof. destruct o, o'; reflexivity. Qed.

Lemma ns_get_options o ws st :
  pos_filename st = true ->
  ns_get (st_ns (fold_left word_state ws st)) (dest (opt_action o)) =
  match opt_value o ws with Some v => VStr v | None => ns_get (st_ns st) (dest (opt_action o)) end.
Proof.
  unfold opt_value. fold (opt_step o). revert st. induction ws as [|w ws IH]; intros st Hst; [reflexivity|].
  cbn [fold_left]. rewrite IH by now apply pos_filename_step.
  destruct w as [s|o' sp v|h]; cbn [opt_step].
  - unfold word_state; cbn [word_step]. unfold pos_filename in Hst.
    destruct (st_pos st) as [|a [|]]; cbn [st_ns]; [reflexivity| |discriminate].
    apply py_eqb_true in Hst. cbn [ns_get]. rewrite Hst, dest_opt_filename. reflexivity.
  - unfold word_state; cbn [word_step st_ns ns_get]. rewrite dest_opt_eqb.
    destruct (opt_name_eqb o o'); [|reflexivity]. rewrite fold_opt_step.
    destruct (fold_left (opt_step o) ws None); reflexivity.
  - reflexivity.
Qed.

Lemma word_state_opt st o sp v :
  word_state st (WOpt o sp v) = mk_pstate (st_pos st) ((dest (opt_action o), VStr v) :: st_ns st) (st_extras st).
Proof. reflexivity. Qed.

Lemma words_pos_none st ws :
  st_pos st = [] ->
  st_pos (fold_left word_state ws st) = [] /\
  st_extras (fold_left word_state ws st) = st_extras st ++ pos_values ws.
Proof.
  revert st. induction ws as [|w ws IH]; intros st Hst; cbn [fold_left pos_values].
  - now rewrite app_nil_r.
  - destruct w as [s|o sp v|h].
    + assert (E : word_state st (WPos s) = mk_pstate [] (st_ns st) (st_extras st ++ [s]))
        by (unfold word_state; cbn [word_step]; now rewrite Hst).
      rewrite E. destruct (IH (mk_pstate [] (st_ns st) (st_extras st ++ [s])) eq_refl) as [H1 H2]. split; [exact H1|]. rewrite H2. cbn. now rewrite <- app_assoc.
    + rewrite word_state_opt. exact (IH (mk_pstate _ _ _) Hst).
    + apply IH. exact Hst.
Qed.

Lemma ns_get_filename_none st ws :
  st_pos st = [] ->
  ns_get (st_ns (fold_left word_state ws st)) (str "filename") = ns_get (st_ns st) (str "filename").
Proof.
  revert st. induction ws as [|w ws IH]; intros st Hst; [reflexivity|]. cbn [fold_left].
  destruct w as [s|o sp v|h].
  - assert (E : word_state st (WPos s) = mk_pstate [] (st_ns st) (st_extras st ++ [s]))
      by (unfold word_state; cbn [word_step]; now rewrite Hst).
    rewrite E. exact (IH (mk_pstate _ _ _) eq_refl).
  - rewrite word_state_opt, (IH (mk_pstate _ _ _) Hst). cbn [st_ns ns_get].
    replace (py_eqb _ _) with false by (destruct o; reflexivity). reflexivity.
  - exact (IH st Hst).
Qed.

Lemma words_pos_one st a ws :
  st_pos st = [a] -> dest a = str "filename" ->
  let F := fold_left word_state ws st in
  match pos_values ws with
  | [] => st_pos F = [a] /\ st_extras F = st_extras st /\
          ns_get (st_ns F) (str "filename") = ns_get (st_ns st) (str "filename")
  | f :: rest => st_pos F = [] /\ st_extras F = st_extras st ++ rest /\
                 ns_get (st_ns F) (str "filename") = VStr f
  end.
Proof.
  intros Hst Ha. cbn zeta. revert st Hst. induction ws as [|w ws IH]; intros st Hst.
  { cbn. auto. }
  cbn [fold_left pos_values]. destruct w as [s|o sp v|h].
  - assert (E : word_state st (WPos s) = mk_pstate [] ((dest a, VStr s) :: st_ns st) (st_extras st))
      by (unfold word_state; cbn [word_step]; now rewrite Hst).
    rewrite E. destruct (words_pos_none (mk_pstate [] ((dest a, VStr s) :: st_ns st) (st_extras st)) ws eq_refl)
      as [H1 H2].
    split; [exact H1|]. split; [exact H2|]. rewrite ns_get_filename_none by reflexivity.
    cbn [st_ns ns_get]. rewrite Ha, py_eqb_refl. reflexivity.
  - rewrite word_state_opt. specialize (IH (mk_pstate (st_pos st) ((dest (opt_action o), VStr v) :: st_ns st) (st_extras st)) Hst).
    destruct (pos_values ws) as [|f rest]; destruct IH as (H1 & H2 & H3); (split; [exact H1|]; split; [exact H2|]);
      rewrite H3; [|reflexivity]. cbn [st_ns ns_get]. replace (py_eqb _ _) with false by (destruct o; reflexivity). reflexivity.
  - exact (IH st Hst).
Qed.

(** The command line of well-formed words without the help option ends as
    [spec_args] says. *)
Lemma entry_words ws fs :
  forallb word_ok ws = true -> existsb is_help ws = false ->
  entry (command_line ws) fs =
  Some (match spec_args ws with
        | inl e => (ExitUsage e, fs)
        | inr a => let '(r, fs') := main a fs in (Finished r, fs')
        end).
Proof.
  intros Hok Hh. unfold entry. rewrite parse_words by exact Hok. unfold words_outcome.
  rewrite run_words_no_help by exact Hh.
  pose proof (words_pos_one init_state filename_action ws eq_refl eq_refl) as HP. cbn zeta in HP.
  unfold spec_args, final.
  destruct (pos_values ws) as [|f [|g rest]]; destruct HP as (H1 & H2 & H3); rewrite H1; [reflexivity| |].
  - rewrite H2. cbn [st_extras init_state app option_map]. unfold run_args. rewrite H3.
    pose proof (ns_get_options OReknr ws init_state eq_refl) as HR.
    pose proof (ns_get_options ODate ws init_state eq_refl) as HD.
    change (dest (opt_action OReknr)) with (str "reknr") in HR.
    change (dest (opt_action ODate)) with (str "date") in HD.
    change (ns_get (st_ns init_state) (str "reknr")) with VNone in HR.
    change (ns_get (st_ns init_state) (str "date")) with VNone in HD. rewrite HR, HD.
    destruct (opt_value OReknr ws), (opt_value ODate ws); reflexivity.
  - rewrite H2. reflexivity.
Qed.

(** C10: On a command line of well-formed words without the help option
    (the file name, and the values of [-r] and [-d] written as [-r v],
    [-rv], [--rek v] or [--rek=v]) the program ends as the words mean:
    the usage error when the file name is missing or given twice, else
    the conversion of lines 130-133 on the file name and the last value
    given to each option. *)
Theorem entry_refines ws fs :
  forallb word_ok ws = true -> existsb is_help ws = false ->
  entry (command_line ws) fs =
  Some (match spec_args ws with
        | inl e => (ExitUsage e, fs)
        | inr a => let '(r, fs') := main a fs in (Finished r, fs')
        end).
Proof. exact (entry_words ws fs). Qed.

(** C34: The options of lines 21-31 are not required: a well-formed
    command line with one file name and no [-d] ends in the [TypeError]
    that [len(None)] (line 65) raises, with no file touched; with [-d] and
    no [-r], a run that succeeds writes [None] as the account in the
    [:25:] line of the document. *)
Theorem entry_missing_options ws fs f :
  forallb word_ok ws = true -> existsb is_help ws = false -> pos_values ws = [f] ->
  (opt_value ODate ws = None -> entry (command_line ws) fs = Some (Finished (Err TypeError), fs)) /\
  (forall d out fs', opt_value OReknr ws = None -> opt_value ODate ws = Some d ->
   entry (command_line ws) fs = Some (Finished (Ok out), fs') ->
   exists rest, fs_read fs' (out_name f) = Some (header_mt940 (str "None") d ++ rest)).
Proof.
  intros Hok Hh Hpos. rewrite (entry_words ws fs Hok Hh). unfold spec_args. rewrite Hpos. split.
  - intros Hd. rewrite Hd, main_no_date. reflexivity.
  - intros d out fs' Hr Hd. rewrite Hr, Hd.
    destruct (main (mk_args f None (Some d)) fs) as [r fs1] eqn:Hm. intros H. injection H as -> <-.
    exact (main_no_account f d fs out fs1 Hm).
Qed.

(** C23: A well-formed command line with the help option anywhere prints
    the help and exits with status 0, whatever is missing or extra, and
    touches no file. *)
Theorem entry_help ws fs :
  forallb word_ok ws = true -> existsb is_help ws = true -> entry (command_line ws) fs = Some (ExitHelp, fs).
Proof.
  intros Hok Hh. unfold entry. rewrite parse_words by exact Hok. unfold words_outcome.
  rewrite run_words_help by exact Hh. reflexivity.
Qed.

(** C35: A well-formed command line with one file name whose last [-d]
    value is not six characters long ends in the [ValueError] of lines
    65-66, whatever the other options, with no file read or written. *)
Theorem entry_bad_date ws fs f d :
  forallb word_ok ws = true -> existsb is_help ws = false -> pos_values ws = [f] ->
  opt_value ODate ws = Some d -> (py_len d <> 6)%Z ->
  entry (command_line ws) fs = Some (Finished (Err ValueError), fs).
Proof.
  intros Hok Hh Hpos Hd Hlen. rewrite (entry_words ws fs Hok Hh). unfold spec_args.
  rewrite Hpos, Hd, main_bad_date by exact Hlen. reflexivity.
Qed.

(** ** Witnesses *)

(** [export.csv -r NL01INGB --da=161231] *)
Definition cli_words : list word :=
  [WPos (str "export.csv"); WOpt OReknr Short (str "NL01INGB"); WOpt ODate (LongEq (str "da")) (str "161231")].

Lemma entry_refines_witness :
  entry (command_line cli_words) (ing_files (str "export.csv")) =
  Some (match spec_args cli_words with
        | inl e => (ExitUsage e, ing_files (str "export.csv"))
        | inr a => let '(r, fs') := main a (ing_files (str "export.csv")) in (Finished r, fs')
        end).
Proof. exact (entry_refines cli_words (ing_files (str "export.csv")) eq_refl eq_refl). Defined.

Lemma entry_help_witness :
  entry (command_line [WOpt ODate Short (str "1612"); WHelp (Some (str "he"))]) [] = Some (ExitHelp, []).
Proof. exact (entry_help [WOpt ODate Short (str "1612"); WHelp (Some (str "he"))] [] eq_refl eq_refl). Defined.

(** [export.csv -d 2016-12-31]: a date of ten characters. *)
Lemma entry_bad_date_witness :
  entry (command_line [WPos (str "export.csv"); WOpt ODate Short (str "2016-12-31")]) (ing_files (str "export.csv")) =
  Some (Finished (Err ValueError), ing_files (str "export.csv")).
Proof.
  apply (entry_bad_date _ _ (str "export.csv") (str "2016-12-31")); [reflexivity..| cbv; discriminate].
Defined.

(** [export.csv -r NL01INGB]: no date. *)
Lemma entry_missing_options_witness :
  (opt_value ODate [WPos (str "export.csv"); WOpt OReknr Short (str "NL01INGB")] = None ->
   entry (command_line [WPos (str "export.csv"); WOpt OReknr Short (str "NL01INGB")]) (ing_files (str "export.csv")) =
   Some (Finished (Err TypeError), ing_files (str "export.csv"))) /\
  (forall d out fs', opt_value OReknr [WPos (str "export.csv"); WOpt OReknr Short (str "NL01INGB")] = None ->
   opt_value ODate [WPos (str "export.csv"); WOpt OReknr Short (str "NL01INGB")] = Some d ->
   entry (command_line [WPos (str "export.csv"); WOpt OReknr Short (str "NL01INGB")]) (ing_files (str "export.csv")) =
   Some (Finished (Ok out), fs') ->
   exists rest, fs_read fs' (out_name (str "export.csv")) = Some (header_mt940 (str "None") d ++ rest)).
Proof.
  exact (entry_missing_options [WPos (str "export.csv"); WOpt OReknr Short (str "NL01INGB")]
           (ing_files (str "export.csv")) (str "export.csv") eq_refl eq_refl eq_refl).
Defined.

End Cli.
